(** * blurcam: configuration loading, consumer detection and the daemon loop

    A shallow embedding of [src/linuxcam/config.py] and
    [src/linuxcam/daemon.py].  Python values that come out of the JSON
    configuration file are kept as JSON values, dictionaries are [gmap]s
    keyed by strings, exceptions are an explicit result type, and the
    daemon's main loop is a small state-and-trace monad over the fields of
    [BlurDaemon] and the locals of [run]. *)

From Stdlib Require Import ZArith QArith Qcanon Lia Ascii String.
From stdpp Require Import gmap strings list fin_maps.

Set Warnings "-register-all".
Set Default Proof Using "Type".

Open Scope Z_scope.

(** ** Python exceptions and fallible computations *)

Inductive exn :=
| TypeError
| KeyError
| ValueError
| OSError            (* [IOError], [PermissionError] and [FileExistsError]
                        are [OSError] *)
| JSONDecodeError
| UnicodeDecodeError
| RecursionError
| MemoryError
| RuntimeError.

#[global] Instance exn_eq_dec : EqDecision exn.
Proof. solve_decision. Defined.

Inductive res (A : Type) :=
| Ok (a : A)
| Raise (e : exn).
Arguments Ok {A} a.
Arguments Raise {A} e.

Definition res_bind {A B} (r : res A) (k : A -> res B) : res B :=
  match r with
  | Ok a => k a
  | Raise e => Raise e
  end.

(** [try: body except (e1, e2, ...): handler] *)
Definition try_except {A} (body : res A) (caught : list exn) (handler : res A)
  : res A :=
  match body with
  | Ok a => Ok a
  | Raise e => if bool_decide (e ∈ caught) then handler else Raise e
  end.

(** ** config.py *)

Module Config.

Inductive json :=
| JNull
| JBool (b : bool)
| JInt (n : Z)
| JFloat (q : Qc)
| JStr (s : string)
| JArr (l : list json)
| JObj (m : gmap string json).

(** DEFAULT_CONFIG *)
Definition DEFAULT_CONFIG : gmap string json :=
  list_to_map
    [ ("blur", JInt 35);
      ("threshold", JFloat (Q2Qc (1 # 2)));
      ("input", JInt 0);
      ("output", JStr "/dev/video10");
      ("width", JInt 640);
      ("height", JInt 480);
      ("fps", JInt 30) ].

Definition DEFAULT_KEYS : list string :=
  ["blur"; "threshold"; "input"; "output"; "width"; "height"; "fps"].

(** What [json.load] makes of the content of the file: it reads the
    file, decodes it and parses the text. *)
Inductive file_text :=
| NotJson                 (* json.load raises JSONDecodeError *)
| Parsed (v : json)       (* json.load returns v *)
| LoadRaises (e : exn).   (* json.load raises e, something other than
                             JSONDecodeError: UnicodeDecodeError on bytes
                             that do not decode, ValueError on an integer
                             over the digit limit, RecursionError on deep
                             nesting, OSError on a read error, MemoryError *)

(** The configuration directory and file as the functions of config.py
    find them. *)
Inductive config_file :=
| Blocked                                  (* CONFIG_DIR.mkdir raises OSError:
                                              the directory is not there and
                                              cannot be created, or its path
                                              is taken by a file *)
| Absent                                   (* config_path.exists() is False *)
| Unreadable (mtime : Qc)                  (* exists, open() raises IOError *)
| Readable (mtime : Qc) (text : file_text).

(** [get_config_path]: [CONFIG_DIR.mkdir(parents=True, exist_ok=True)],
    then the path. *)
Definition get_config_path (f : config_file) : res unit :=
  match f with
  | Blocked => Raise OSError
  | _ => Ok tt
  end.

Definition path_exists (f : config_file) : bool :=
  match f with
  | Blocked | Absent => false
  | _ => true
  end.

Definition open_file (f : config_file) : res file_text :=
  match f with
  | Readable _ text => Ok text
  | _ => Raise OSError
  end.

Definition json_load (text : file_text) : res json :=
  match text with
  | NotJson => Raise JSONDecodeError
  | Parsed v => Ok v
  | LoadRaises e => Raise e
  end.

(** [{**defaults, **saved}]: the keys of [saved] win; unpacking a value
    that is not a mapping raises TypeError. *)
Definition dict_merge (defaults : gmap string json) (saved : json)
  : res (gmap string json) :=
  match saved with
  | JObj m => Ok (m ∪ defaults)
  | _ => Raise TypeError
  end.

Definition load_config (f : config_file) : res (gmap string json) :=
  res_bind (get_config_path f) (fun _ =>
  if path_exists f then
    try_except
      (res_bind (open_file f) (fun text =>
       res_bind (json_load text) (fun saved =>
       dict_merge DEFAULT_CONFIG saved)))
      [JSONDecodeError; OSError]
      (Ok DEFAULT_CONFIG)
  else Ok DEFAULT_CONFIG).

(** [config_path.stat().st_mtime] *)
Definition st_mtime (f : config_file) : Qc :=
  match f with
  | Blocked | Absent => 0%Qc
  | Unreadable mtime => mtime
  | Readable mtime _ => mtime
  end.

Definition get_config_mtime (f : config_file) : res Qc :=
  res_bind (get_config_path f) (fun _ =>
  if path_exists f then Ok (st_mtime f) else Ok 0%Qc).

(** [d[k]] *)
Definition getitem (d : gmap string json) (k : string) : res json :=
  match d !! k with
  | Some v => Ok v
  | None => Raise KeyError
  end.

(** The states of the file that the loader is written for: no file, a
    file that cannot be opened, a file that [json.load] rejects with
    JSONDecodeError, and a file from which [json.load] returns an object
    (with any set of keys). *)
Definition anticipated (f : config_file) : Prop :=
  match f with
  | Absent | Unreadable _ | Readable _ NotJson => True
  | Readable _ (Parsed (JObj _)) => True
  | Readable _ (Parsed _) => False
  | Readable _ (LoadRaises _) => False
  | Blocked => False
  end.

(** The value the file gives to key [k], when it holds an object. *)
Definition file_value (f : config_file) (k : string) : option json :=
  match f with
  | Readable _ (Parsed (JObj m)) => m !! k
  | _ => None
  end.

End Config.

(** ** The process table read by [_get_consumer_count] *)

Module Proc.

Definition is_digit (c : ascii) : bool :=
  let n := nat_of_ascii c in (48 <=? n)%nat && (n <=? 57)%nat.

Fixpoint all_digits (s : string) : bool :=
  match s with
  | EmptyString => true
  | String c s' => is_digit c && all_digits s'
  end.

(** [str.isdigit()]: at least one character, and all of them digits.
    The names under /proc are ASCII, and so are the strings here. *)
Definition isdigit (s : string) : bool :=
  match s with
  | EmptyString => false
  | _ => all_digits s
  end.

Fixpoint int_digits (acc : Z) (s : string) : Z :=
  match s with
  | EmptyString => acc
  | String c s' => int_digits (10 * acc + (Z.of_nat (nat_of_ascii c) - 48)) s'
  end.

(** [int(s)], called on strings that passed [isdigit] only. *)
Definition int (s : string) : Z := int_digits 0 s.

(** /proc as the scan reads it.  [os.listdir] and [os.readlink] fail with
    OSError (PermissionError included), written [None]. *)
Record procfs := {
  proc_listing : option (list string);         (* os.listdir('/proc') *)
  fd_links : Z -> option (list (option string))
    (* os.listdir(f'/proc/{pid}/fd'), and for each entry, in listing order,
       what os.readlink returns *)
}.

(** The inner [for fd in os.listdir(fd_dir)] loop: [true] when it leaves
    through [count += 1; break]. *)
Fixpoint scan_fds (device : string) (fds : list (option string)) : bool :=
  match fds with
  | [] => false
  | Some target :: rest =>
      if bool_decide (target = device) then true else scan_fds device rest
  | None :: rest => scan_fds device rest
  end.

(** The outer [for pid_dir in os.listdir('/proc')] loop. *)
Fixpoint scan_procs (my_pid : Z) (device : string)
    (links : Z -> option (list (option string)))
    (pid_dirs : list string) (count : Z) : Z :=
  match pid_dirs with
  | [] => count
  | pid_dir :: rest =>
      if negb (isdigit pid_dir) then scan_procs my_pid device links rest count
      else
        let pid := int pid_dir in
        if pid =? my_pid then scan_procs my_pid device links rest count
        else
          match links pid with
          | Some fds =>
              scan_procs my_pid device links rest
                (if scan_fds device fds then count + 1 else count)
          | None => scan_procs my_pid device links rest count
          end
  end.

Definition get_consumer_count (my_pid : Z) (device : string) (fs : procfs) : Z :=
  match proc_listing fs with
  | Some pid_dirs => scan_procs my_pid device (fd_links fs) pid_dirs 0
  | None => 0
  end.

(** The process ids listed under /proc. *)
Definition running_pids (pid_dirs : list string) : list Z :=
  int <$> filter (fun d => isdigit d = true) pid_dirs.

(** Process [pid] has a handle that resolves to [device]. *)
Definition holds (fs : procfs) (device : string) (pid : Z) : Prop :=
  exists fds, fd_links fs pid = Some fds /\ Some device ∈ fds.

#[global] Instance holds_dec fs device pid : Decision (holds fs device pid).
Proof.
  unfold holds. destruct (fd_links fs pid) as [fds |] eqn:Hl.
  - destruct (decide (Some device ∈ fds)) as [Hin | Hout].
    + left. eauto.
    + right. intros (fds' & Heq & Hin). congruence.
  - right. intros (fds' & Heq & _). congruence.
Defined.

(** A listed process counts when it is not the daemon and holds the device. *)
Definition is_consumer (my_pid : Z) (device : string) (fs : procfs) (pid : Z)
  : Prop :=
  pid <> my_pid /\ holds fs device pid.

End Proc.

(** ** daemon.py *)

Module Daemon.
Import Config.

(** A frame: the bytes of a height x width x 3 array of uint8. *)
Definition frame := list Z.

(** inotify event masks (IN_OPEN, IN_CLOSE_WRITE, IN_CLOSE_NOWRITE). *)
Definition OPEN : Z := 0x20.
Definition CLOSE_WRITE : Z := 0x08.
Definition CLOSE_NOWRITE : Z := 0x10.

(** One inotify event, with /proc as the recount that follows the settle
    delay finds it. *)
Record inotify_event := {
  mask : Z;
  table : Proc.procfs
}.

Inductive stream := Stdout | Stderr.

Inductive message :=
| MsgStarted
| MsgVirtualCamera (device : string)
| MsgPressCtrlC
| MsgBlank
| MsgDeviceNotFound (device : string)
| MsgRunSetup
| MsgShuttingDown
| MsgCouldNotWatch (device : string)
| MsgVcamReady
| MsgSelectBlurCam
| MsgConsumerConnected
| MsgCouldNotOpenWebcam
| MsgNoConsumers
| MsgError (e : exn).

Inductive cap_prop := FRAME_WIDTH | FRAME_HEIGHT | FPS.

(** What the daemon does to the outside world, in order. *)
Inductive effect :=
| Print (out : stream) (m : message)
| StartWatcher
| Settle                                  (* time.sleep(0.05) *)
| EventSet                                (* consumer_event.set() *)
| EventClear                              (* consumer_event.clear() *)
| InotifyClose
| LoadModel (id : nat)                    (* get_model_path(); SelfieSegmentation(...) *)
| VideoCapture (id : nat) (input : json) (opened : bool)
| CapSet (id : nat) (p : cap_prop) (v : json)
| CapRead (id : nat) (ret : bool)
| CapRelease (id : nat)
| VcamOpen
| VcamClose
| Send (f : frame)                        (* vcam.send(f) *)
| SleepUntilNextFrame.

(** A [cv2.VideoCapture] object.  [is_opened] is what [isOpened()] answers
    from construction until [release()]. *)
Record capture := {
  cap_id : nat;
  is_opened : bool
}.

(** The fields that [__init__] fixes. *)
Record daemon := {
  device : string;
  input_device : json;
  width : json;
  height : json;
  fps : json
}.

(** The mutable fields of [BlurDaemon], the locals of [run], the counter
    that names the objects [run] constructs, and whether the watcher
    thread is inside its loop. *)
Record state := {
  blur_active : bool;
  has_consumers : bool;
  consumer_event : bool;
  stop_event : bool;
  config : gmap string json;
  segmentation : option nat;
  cap : option capture;
  config_mtime : Qc;
  blur_strength : json;
  threshold : json;
  next_id : nat;
  watching : bool
}.

Definition set_blur_active (v : bool) (s : state) : state :=
  {| blur_active := v; has_consumers := has_consumers s;
     consumer_event := consumer_event s; stop_event := stop_event s;
     config := config s; segmentation := segmentation s; cap := cap s;
     config_mtime := config_mtime s; blur_strength := blur_strength s;
     threshold := threshold s; next_id := next_id s; watching := watching s |}.

Definition set_has_consumers (v : bool) (s : state) : state :=
  {| blur_active := blur_active s; has_consumers := v;
     consumer_event := consumer_event s; stop_event := stop_event s;
     config := config s; segmentation := segmentation s; cap := cap s;
     config_mtime := config_mtime s; blur_strength := blur_strength s;
     threshold := threshold s; next_id := next_id s; watching := watching s |}.

Definition set_consumer_event (v : bool) (s : state) : state :=
  {| blur_active := blur_active s; has_consumers := has_consumers s;
     consumer_event := v; stop_event := stop_event s;
     config := config s; segmentation := segmentation s; cap := cap s;
     config_mtime := config_mtime s; blur_strength := blur_strength s;
     threshold := threshold s; next_id := next_id s; watching := watching s |}.

Definition set_stop_event (v : bool) (s : state) : state :=
  {| blur_active := blur_active s; has_consumers := has_consumers s;
     consumer_event := consumer_event s; stop_event := v;
     config := config s; segmentation := segmentation s; cap := cap s;
     config_mtime := config_mtime s; blur_strength := blur_strength s;
     threshold := threshold s; next_id := next_id s; watching := watching s |}.

Definition set_config (v : gmap string json) (s : state) : state :=
  {| blur_active := blur_active s; has_consumers := has_consumers s;
     consumer_event := consumer_event s; stop_event := stop_event s;
     config := v; segmentation := segmentation s; cap := cap s;
     config_mtime := config_mtime s; blur_strength := blur_strength s;
     threshold := threshold s; next_id := next_id s; watching := watching s |}.

Definition set_segmentation (v : option nat) (s : state) : state :=
  {| blur_active := blur_active s; has_consumers := has_consumers s;
     consumer_event := consumer_event s; stop_event := stop_event s;
     config := config s; segmentation := v; cap := cap s;
     config_mtime := config_mtime s; blur_strength := blur_strength s;
     threshold := threshold s; next_id := next_id s; watching := watching s |}.

Definition set_cap (v : option capture) (s : state) : state :=
  {| blur_active := blur_active s; has_consumers := has_consumers s;
     consumer_event := consumer_event s; stop_event := stop_event s;
     config := config s; segmentation := segmentation s; cap := v;
     config_mtime := config_mtime s; blur_strength := blur_strength s;
     threshold := threshold s; next_id := next_id s; watching := watching s |}.

Definition set_config_mtime (v : Qc) (s : state) : state :=
  {| blur_active := blur_active s; has_consumers := has_consumers s;
     consumer_event := consumer_event s; stop_event := stop_event s;
     config := config s; segmentation := segmentation s; cap := cap s;
     config_mtime := v; blur_strength := blur_strength s;
     threshold := threshold s; next_id := next_id s; watching := watching s |}.

Definition set_blur_strength (v : json) (s : state) : state :=
  {| blur_active := blur_active s; has_consumers := has_consumers s;
     consumer_event := consumer_event s; stop_event := stop_event s;
     config := config s; segmentation := segmentation s; cap := cap s;
     config_mtime := config_mtime s; blur_strength := v;
     threshold := threshold s; next_id := next_id s; watching := watching s |}.

Definition set_threshold (v : json) (s : state) : state :=
  {| blur_active := blur_active s; has_consumers := has_consumers s;
     consumer_event := consumer_event s; stop_event := stop_event s;
     config := config s; segmentation := segmentation s; cap := cap s;
     config_mtime := config_mtime s; blur_strength := blur_strength s;
     threshold := v; next_id := next_id s; watching := watching s |}.

Definition set_next_id (v : nat) (s : state) : state :=
  {| blur_active := blur_active s; has_consumers := has_consumers s;
     consumer_event := consumer_event s; stop_event := stop_event s;
     config := config s; segmentation := segmentation s; cap := cap s;
     config_mtime := config_mtime s; blur_strength := blur_strength s;
     threshold := threshold s; next_id := v; watching := watching s |}.

Definition set_watching (v : bool) (s : state) : state :=
  {| blur_active := blur_active s; has_consumers := has_consumers s;
     consumer_event := consumer_event s; stop_event := stop_event s;
     config := config s; segmentation := segmentation s; cap := cap s;
     config_mtime := config_mtime s; blur_strength := blur_strength s;
     threshold := threshold s; next_id := next_id s; watching := v |}.

(** *** The monad of [run]: state, a trace of effects, exceptions *)

Definition M (A : Type) : Type := state -> list effect * state * res A.

Definition ret {A} (a : A) : M A := fun s => ([], s, Ok a).

Definition bind {A B} (m : M A) (k : A -> M B) : M B := fun s =>
  match m s with
  | (t, s', Ok a) => let '(t', s'', r) := k a s' in (t ++ t', s'', r)
  | (t, s', Raise e) => (t, s', Raise e)
  end.

Definition raise {A} (e : exn) : M A := fun s => ([], s, Raise e).
Definition emit (e : effect) : M unit := fun s => ([e], s, Ok tt).
Definition gets {A} (f : state -> A) : M A := fun s => ([], s, Ok (f s)).
Definition modify (f : state -> state) : M unit := fun s => ([], f s, Ok tt).
Definition lift {A} (r : res A) : M A := fun s => ([], s, r).
Definition when (c : bool) (m : M unit) : M unit := if c then m else ret tt.

Fixpoint for_each {A} (l : list A) (body : A -> M unit) : M unit :=
  match l with
  | [] => ret tt
  | x :: rest => bind (body x) (fun _ => for_each rest body)
  end.

Declare Scope m_scope.
Delimit Scope m_scope with M.
Bind Scope m_scope with M.
Notation "'let*' x := m 'in' k" := (bind m (fun x => k))
  (at level 10, x name, m at level 100, k at level 200) : m_scope.
Notation "m ;; k" := (bind m (fun _ => k))
  (at level 100, k at level 200, right associativity) : m_scope.

Definition trace_of {A} (x : list effect * state * res A) : list effect := x.1.1.
Definition state_of {A} (x : list effect * state * res A) : state := x.1.2.
Definition result_of {A} (x : list effect * state * res A) : res A := x.2.

(** *** Python arithmetic on configuration values *)

(** A dimension of an array: numpy takes an [int], and nothing else (not
    a [bool], a [float] or a [str]). *)
Definition as_index (v : json) : res Z :=
  match v with
  | JInt n => Ok n
  | _ => Raise TypeError
  end.

(** The largest [intp] of numpy (64 bits). *)
Definition intp_max : Z := 2 ^ 63 - 1.

(** The number of bytes numpy computes for the shape [(h, w, 3)] of
    [uint8]: the product of the dimensions that are not 0. *)
Definition shape_bytes (h w : Z) : Z :=
  (if h =? 0 then 1 else h) * (if w =? 0 then 1 else w) * 3.

(** [cv2.cvtColor(f, cv2.COLOR_BGR2RGB)] on the flattened pixels. *)
Fixpoint bgr2rgb (f : frame) : frame :=
  match f with
  | b :: g :: r :: rest => r :: g :: b :: bgr2rgb rest
  | _ => f
  end.

(** The collaborators whose internals are not part of the daemon: the
    segmentation model, the Gaussian blend, Python's [%] on a [str]
    (string formatting: [format_error s] is what [s % 2] raises, TypeError
    or ValueError, if it raises), Python's addition of floats (IEEE 754,
    rounding to the nearest float), and the allocator ([allocates n]:
    [n] bytes can be had). *)
Class Vision := {
  mask_t : Type;
  get_mask : frame -> json -> res mask_t;
  gaussian_blend : frame -> mask_t -> json -> res frame;
  format_error : string -> option exn;
  float_add : Qc -> Qc -> Qc;
  allocates : Z -> bool
}.

Section Run.
Context {V : Vision}.

(** [np.zeros((height, width, 3), dtype=np.uint8)]: TypeError for a
    dimension that is not an [int], ValueError for a negative dimension,
    for one that does not fit [intp] and for a size that does not,
    MemoryError when the array cannot be allocated. *)
Definition np_zeros (h w : json) : res frame :=
  res_bind (as_index h) (fun h' =>
  res_bind (as_index w) (fun w' =>
  if (h' <? 0) || (w' <? 0) then Raise ValueError
  else if (intp_max <? h') || (intp_max <? w')
          || (intp_max <? shape_bytes h' w') then Raise ValueError
  else if negb (allocates (h' * w' * 3)) then Raise MemoryError
  else Ok (repeat 0 (Z.to_nat (h' * w' * 3))))).

(** [v % 2 == 0].  A float is taken as the rational it is; [bool] is a
    subclass of [int]; on a [str], [%] is string formatting, and a [str]
    is never equal to 0. *)
Definition mod2_is_zero (v : json) : res bool :=
  match v with
  | JInt n => Ok (n mod 2 =? 0)
  | JBool b => Ok (negb b)
  | JFloat q => Ok (bool_decide (Qden q = 1%positive) && (Qnum q mod 2 =? 0))
  | JStr s => match format_error s with
              | None => Ok false
              | Some e => Raise e
              end
  | _ => Raise TypeError
  end.

(** [v + 1] *)
Definition add1 (v : json) : res json :=
  match v with
  | JInt n => Ok (JInt (n + 1))
  | JBool b => Ok (JInt (Z.b2z b + 1))
  | JFloat q => Ok (JFloat (float_add q 1%Qc))
  | _ => Raise TypeError
  end.

(** [if blur_strength % 2 == 0: blur_strength += 1] *)
Definition make_odd (v : json) : res json :=
  res_bind (mod2_is_zero v) (fun even => if even then add1 v else Ok v).

(** segmentation.py, [apply_background_blur] *)
Definition apply_background_blur (f : frame) (m : mask_t) (strength : json)
  : res frame :=
  res_bind (make_odd strength) (fun k => gaussian_blend f m k).

(** What one iteration of the main loop finds outside the daemon. *)
Record tick_env := {
  model_loads : bool;           (* get_model_path() and SelfieSegmentation() return *)
  open_ok : bool;               (* isOpened() of a capture constructed now *)
  cfg_file : config_file;       (* the configuration file *)
  read_result : option frame;   (* cap.read(): (True, frame) or (False, _) *)
  send_ok : bool                (* vcam.send returns rather than raises *)
}.

(** The same tick with another configuration file on disk. *)
Definition with_cfg_file (f : config_file) (e : tick_env) : tick_env :=
  {| model_loads := model_loads e; open_ok := open_ok e; cfg_file := f;
     read_result := read_result e; send_ok := send_ok e |}.

Variable d : daemon.
Variable my_pid : Z.
Variable black_frame : frame.

(** **** The watcher thread, [BlurDaemon._inotify_watcher] *)

(** The body of [for event in events]. *)
Definition handle_event (ev : inotify_event) : M unit :=
  (if bool_decide (Z.land (mask ev) OPEN <> 0) then
     emit Settle;;
     let consumers := Proc.get_consumer_count my_pid (device d) (table ev) in
     when (0 <? consumers)
       (modify (set_has_consumers true);;
        emit EventSet;;
        modify (set_consumer_event true))
   else if bool_decide
             (Z.land (mask ev) (Z.lor CLOSE_NOWRITE CLOSE_WRITE) <> 0) then
     emit Settle;;
     let consumers := Proc.get_consumer_count my_pid (device d) (table ev) in
     when (consumers =? 0)
       (modify (set_has_consumers false);;
        emit EventSet;;
        modify (set_consumer_event true))
   else ret tt)%M.

(** The thread's start: [inotify.add_watch], and the warning and return
    when it raises. *)
Definition watcher_start (watch_ok : bool) : M unit :=
  (if watch_ok then modify (set_watching true)
   else emit (Print Stderr (MsgCouldNotWatch (device d))))%M.

(** One turn of [while not self.stop_event.is_set()], reading [events];
    nothing when the thread has returned. *)
Definition watcher_turn (events : list inotify_event) : M unit :=
  (let* alive := gets watching in
   if alive then
     let* stop := gets stop_event in
     if stop then modify (set_watching false);; emit InotifyClose
     else for_each events handle_event
   else ret tt)%M.

(** **** The main loop *)

Definition fresh : M nat :=
  (let* id := gets next_id in
   modify (set_next_id (S id));;
   ret id)%M.

Definition load_model (e : tick_env) : M unit :=
  (if model_loads e then
     let* id := fresh in
     emit (LoadModel id);;
     modify (set_segmentation (Some id))
   else raise RuntimeError)%M.

Definition cap_usable (c : option capture) : bool :=
  match c with
  | Some h => is_opened h
  | None => false
  end.

Definition open_webcam (e : tick_env) : M unit :=
  (let* id := fresh in
   emit (VideoCapture id (input_device d) (open_ok e));;
   modify (set_cap (Some {| cap_id := id; is_opened := open_ok e |}));;
   emit (CapSet id FRAME_WIDTH (width d));;
   emit (CapSet id FRAME_HEIGHT (height d));;
   emit (CapSet id FPS (fps d));;
   when (negb (open_ok e))
     (emit (Print Stderr MsgCouldNotOpenWebcam);;
      modify (set_blur_active false)))%M.

Definition release_webcam : M unit :=
  (let* c := gets cap in
   match c with
   | Some h => emit (CapRelease (cap_id h));; modify (set_cap None)
   | None => ret tt
   end)%M.

(** Lines 157-189: the consumer state change. *)
Definition consumer_change (e : tick_env) : M unit :=
  (let* signalled := gets consumer_event in
   when signalled
     (emit EventClear;;
      modify (set_consumer_event false);;
      let* consumers := gets has_consumers in
      let* active := gets blur_active in
      if consumers && negb active then
        emit (Print Stdout MsgConsumerConnected);;
        modify (set_blur_active true);;
        let* seg := gets segmentation in
        when (bool_decide (seg = None)) (load_model e);;
        let* c := gets cap in
        when (negb (cap_usable c)) (open_webcam e)
      else if negb consumers && active then
        emit (Print Stdout MsgNoConsumers);;
        modify (set_blur_active false);;
        release_webcam
      else ret tt))%M.

(** Lines 191-199: the configuration change. *)
Definition config_change (e : tick_env) : M unit :=
  (let* new_mtime := lift (get_config_mtime (cfg_file e)) in
   let* old_mtime := gets config_mtime in
   when (bool_decide (old_mtime < new_mtime)%Qc)
     (modify (set_config_mtime new_mtime);;
      let* cfg := lift (load_config (cfg_file e)) in
      modify (set_config cfg);;
      let* blur := lift (getitem cfg "blur") in
      modify (set_blur_strength blur);;
      let* odd := lift (make_odd blur) in
      modify (set_blur_strength odd);;
      let* th := lift (getitem cfg "threshold") in
      modify (set_threshold th)))%M.

Definition vcam_send (e : tick_env) (f : frame) : M unit :=
  (if send_ok e then emit (Send f) else raise ValueError)%M.

(** The frame the daemon composes from a captured one. *)
Definition blurred (raw : frame) (th strength : json) : res frame :=
  res_bind (get_mask raw th) (fun m =>
  res_bind (apply_background_blur raw m strength) (fun result =>
  Ok (bgr2rgb result))).

(** Lines 201-216: the frame of this tick. *)
Definition generate_frame (e : tick_env) : M unit :=
  (let* active := gets blur_active in
   let* c := gets cap in
   match c with
   | Some h =>
       if active && is_opened h then
         emit (CapRead (cap_id h) (bool_decide (is_Some (read_result e))));;
         match read_result e with
         | Some raw =>
             let* th := gets threshold in
             let* strength := gets blur_strength in
             let* result_rgb := lift (blurred raw th strength) in
             vcam_send e result_rgb
         | None => vcam_send e black_frame
         end
       else vcam_send e black_frame
   | None => vcam_send e black_frame
   end;;
   emit SleepUntilNextFrame)%M.

(** The frame lines 201-214 produce in a state that is active exactly
    when it holds an opened capture: composed from the captured one when the
    daemon is active and the read succeeds, the black frame otherwise. *)
Definition frame_due (e : tick_env) (s : state) : res frame :=
  if blur_active s then
    match read_result e with
    | Some raw => blurred raw (threshold s) (blur_strength s)
    | None => Ok black_frame
    end
  else Ok black_frame.

(** The body of [while not self.stop_event.is_set()]. *)
Definition tick (e : tick_env) : M unit :=
  (consumer_change e;;
   config_change e;;
   generate_frame e)%M.

(** What the two threads and the signal handler do, in the order in which
    it happens.  The threads share the flags [has_consumers],
    [consumer_event] and [stop_event] and nothing else; a schedule
    interleaves whole iterations of the main loop with whole turns of the
    watcher's loop. *)
Inductive sys_event :=
| Tick (e : tick_env)                  (* the main loop: test and body *)
| Notify (events : list inotify_event) (* the watcher: one inotify.read *)
| Signal.                              (* SIGINT or SIGTERM *)

Inductive loop_exit :=
| Stopped        (* the loop test found stop_event set *)
| Running.       (* the schedule ends inside the loop *)

Definition signal_handler : M unit :=
  (emit (Print Stdout MsgShuttingDown);;
   modify (set_stop_event true))%M.

Fixpoint main_loop (schedule : list sys_event) : M loop_exit :=
  match schedule with
  | [] => ret Running
  | Signal :: rest => (signal_handler;; main_loop rest)%M
  | Notify events :: rest => (watcher_turn events;; main_loop rest)%M
  | Tick e :: rest =>
      (let* stop := gets stop_event in
       if stop then ret Stopped
       else tick e;; main_loop rest)%M
  end.

(** What [run] finds when it starts. *)
Record run_env := {
  device_exists : bool;     (* os.path.exists(self.device) *)
  watch_ok : bool;          (* inotify.add_watch returns *)
  start_cfg_file : config_file;
  vcam_ok : bool            (* pyvirtualcam.Camera(...) returns *)
}.

Inductive run_result :=
| Returned (status : Z)
| Uncaught (e : exn)       (* raised before the try block *)
| InLoop.                  (* the schedule ends inside the loop *)

(** [finally: if cap is not None: cap.release()] *)
Definition finally_release (s : state) : list effect :=
  match cap s with
  | Some h => [CapRelease (cap_id h)]
  | None => []
  end.

End Run.

Section Process.
Context {V : Vision}.
Variable d : daemon.
Variable my_pid : Z.

(** Lines 125-141 of [run]: what precedes the [try] block. *)
Definition startup (r : run_env) : M frame :=
  (emit StartWatcher;;
   watcher_start d (watch_ok r);;
   modify (set_segmentation None);;
   modify (set_cap None);;
   let* black_frame := lift (np_zeros (height d) (width d)) in
   let* mtime := lift (get_config_mtime (start_cfg_file r)) in
   modify (set_config_mtime mtime);;
   let* cfg := gets config in
   let* blur := lift (getitem cfg "blur") in
   modify (set_blur_strength blur);;
   let* odd := lift (make_odd blur) in
   modify (set_blur_strength odd);;
   let* th := lift (getitem cfg "threshold") in
   modify (set_threshold th);;
   ret black_frame)%M.

(** [with pyvirtualcam.Camera(...) as vcam: ...]: the camera is closed
    when the block is left, by the loop test or by an exception. *)
Definition with_camera (r : run_env) (black_frame : frame)
    (schedule : list sys_event) : M loop_exit := fun s =>
  if vcam_ok r then
    let '(t, s', out) :=
      (emit VcamOpen;;
       emit (Print Stdout MsgVcamReady);;
       emit (Print Stdout MsgSelectBlurCam);;
       emit (Print Stdout MsgBlank);;
       main_loop d my_pid black_frame schedule)%M s in
    match out with
    | Ok Running => (t, s', out)
    | _ => (t ++ [VcamClose], s', out)
    end
  else ([], s, Raise RuntimeError).

Definition banner : list effect :=
  [ Print Stdout MsgStarted;
    Print Stdout (MsgVirtualCamera (device d));
    Print Stdout MsgPressCtrlC;
    Print Stdout MsgBlank ].

(** What [run] prints and does on entering the [with] block. *)
Definition vcam_banner : list effect :=
  [ VcamOpen; Print Stdout MsgVcamReady; Print Stdout MsgSelectBlurCam;
    Print Stdout MsgBlank ].

(** [BlurDaemon.run] *)
Definition run (r : run_env) (schedule : list sys_event) (s : state)
  : list effect * state * run_result :=
  if negb (device_exists r) then
    (banner ++ [ Print Stderr (MsgDeviceNotFound (device d));
                 Print Stderr MsgRunSetup ], s, Returned 1)
  else
    match startup r s with
    | (t1, s1, Raise e) => (banner ++ t1, s1, Uncaught e)
    | (t1, s1, Ok black_frame) =>
        match with_camera r black_frame schedule s1 with
        | (t2, s2, Ok Running) => (banner ++ t1 ++ t2, s2, InLoop)
        | (t2, s2, Ok Stopped) =>
            (banner ++ t1 ++ t2 ++ finally_release s2, s2, Returned 0)
        | (t2, s2, Raise e) =>
            (banner ++ t1 ++ t2 ++ [Print Stderr (MsgError e)]
               ++ finally_release s2, s2, Returned 1)
        end
    end.

End Process.

(** [BlurDaemon.__init__] *)
Definition init (dev : string) (input : json) (f : config_file)
  : res (daemon * state) :=
  res_bind (load_config f) (fun cfg =>
  res_bind (getitem cfg "width") (fun w =>
  res_bind (getitem cfg "height") (fun h =>
  res_bind (getitem cfg "fps") (fun r =>
  Ok ({| device := dev; input_device := input;
         width := w; height := h; fps := r |},
      {| blur_active := false; has_consumers := false;
         consumer_event := false; stop_event := false;
         config := cfg; segmentation := None; cap := None;
         config_mtime := 0%Qc; blur_strength := JNull; threshold := JNull;
         next_id := 0%nat; watching := false |}))))).

(** [run_daemon] *)
Definition run_daemon {V : Vision} (my_pid : Z) (input : json) (output : string)
    (f : config_file) (r : run_env) (schedule : list sys_event)
  : list effect * option state * run_result :=
  match init output input f with
  | Ok (d, s) =>
      let '(t, s', out) := run d my_pid r schedule s in (t, Some s', out)
  | Raise e => ([], None, Uncaught e)
  end.

(** *** Reading traces *)

(** The frames written to the output device. *)
Fixpoint frames_sent (t : list effect) : list frame :=
  match t with
  | [] => []
  | Send f :: rest => f :: frames_sent rest
  | _ :: rest => frames_sent rest
  end.

(** The models loaded. *)
Fixpoint models_loaded (t : list effect) : list nat :=
  match t with
  | [] => []
  | LoadModel id :: rest => id :: models_loaded rest
  | _ :: rest => models_loaded rest
  end.

(** The capture constructions, with their outcome. *)
Fixpoint captures_tried (t : list effect) : list (nat * bool) :=
  match t with
  | [] => []
  | VideoCapture id _ ok :: rest => (id, ok) :: captures_tried rest
  | _ :: rest => captures_tried rest
  end.

(** The captures released. *)
Fixpoint captures_released (t : list effect) : list nat :=
  match t with
  | [] => []
  | CapRelease id :: rest => id :: captures_released rest
  | _ :: rest => captures_released rest
  end.

(** The capture devices open after the trace [t], given those open before
    it: a successful construction opens one, a release closes it. *)
Fixpoint open_after (held : list nat) (t : list effect) : list nat :=
  match t with
  | [] => held
  | VideoCapture id _ true :: rest => open_after (id :: held) rest
  | CapRelease id :: rest =>
      open_after (filter (fun h => h <> id) held) rest
  | _ :: rest => open_after held rest
  end.

(** The ticks that reached their pacing sleep. *)
Fixpoint ticks_paced (t : list effect) : nat :=
  match t with
  | [] => 0
  | SleepUntilNextFrame :: rest => S (ticks_paced rest)
  | _ :: rest => ticks_paced rest
  end.

(** Whether the trace sets the edge-event signal. *)
Fixpoint signals (t : list effect) : bool :=
  match t with
  | [] => false
  | EventSet :: _ => true
  | _ :: rest => signals rest
  end.


(** A recount of [count] consumers shows the boolean [had] flipped. *)
Definition flip_shown (had : bool) (count : Z) : bool :=
  xorb had (0 <? count).

(** Effects that touch neither the output frames and their pacing, nor
    the model, nor a capture: what the watcher thread and the signal
    handler do. *)
Definition quiet_effect (x : effect) : bool :=
  match x with
  | Print _ _ | StartWatcher | Settle | EventSet | EventClear | InotifyClose
  | VcamOpen | VcamClose => true
  | _ => false
  end.

(** The capture variable is non-null exactly when the daemon is active:
    the invariant as the design document words it. *)
Definition handle_iff_active (s : state) : Prop :=
  is_Some (cap s) <-> blur_active s = true.

(** Active exactly when the capture variable holds an opened capture. *)
Definition active_iff_capturing (s : state) : Prop :=
  blur_active s = cap_usable (cap s).

(** The capture devices the daemon has open, as its state tells. *)
Definition held (s : state) : list nat :=
  match cap s with
  | Some h => if is_opened h then [cap_id h] else []
  | None => []
  end.

(** [s'] differs from [s] at most in the flags shared with the watcher
    thread and the signal handler. *)
Definition same_main (s s' : state) : Prop :=
  blur_active s' = blur_active s /\ config s' = config s
  /\ segmentation s' = segmentation s /\ cap s' = cap s
  /\ config_mtime s' = config_mtime s
  /\ blur_strength s' = blur_strength s /\ threshold s' = threshold s
  /\ next_id s' = next_id s.


(** The loop invariant of the capture variable: the daemon is active
    exactly when it holds an opened capture, and the capture variable, when
    set, is the result of the most recent construction. *)
Definition capture_invariant (t : list effect) (s : state) : Prop :=
  active_iff_capturing s
  /\ forall h, cap s = Some h ->
       last (captures_tried t) = Some (cap_id h, is_opened h).


End Daemon.

(** ** config.py: writing the configuration *)

Module ConfigWrite.
Import Config.

(** How far a write to the configuration file gets. *)
Inductive write_outcome :=
| Written                (* the three steps below all return *)
| PathFails              (* get_config_path(): CONFIG_DIR.mkdir raises OSError *)
| OpenFails              (* open(config_path, "w") raises OSError *)
| DumpFails (e : exn).   (* json.dump raises e, after open() has emptied the
                            file: TypeError on a value it cannot serialise,
                            ValueError on an integer over the digit limit,
                            OSError on a write error *)

(** What a write to the configuration file meets. *)
Record write_env := {
  outcome : write_outcome;
  now : Qc            (* the modification time the write leaves on the file *)
}.

Definition writable (w : write_env) : bool :=
  match outcome w with
  | Written => true
  | _ => false
  end.

(** The file after a write that put [text] in it.  Writing does not change
    who may read the file: a file that could not be opened for reading
    still cannot. *)
Definition rewritten (f : config_file) (mtime : Qc) (text : file_text)
  : config_file :=
  match f with
  | Unreadable _ => Unreadable mtime
  | _ => Readable mtime text
  end.

(** [save_config]: [get_config_path()], [open(config_path, "w")], which
    empties the file, and [json.dump(config, f, indent=2)].  What a
    complete dump writes is the JSON text of the object [config], which
    [json.load] reads back as that object; what an interrupted dump leaves
    is nothing or the beginning of that text, which is not JSON. *)
Definition save_config (config : gmap string json) (w : write_env)
    (f : config_file) : res unit * config_file :=
  match outcome w with
  | Written => (Ok tt, rewritten f (now w) (Parsed (JObj config)))
  | PathFails => (Raise OSError, f)
  | OpenFails => (Raise OSError, f)
  | DumpFails e => (Raise e, rewritten f (now w) NotJson)
  end.

(** [value is not None]; JSON's null is Python's None. *)
Definition is_not_none (v : json) : bool :=
  match v with
  | JNull => false
  | _ => true
  end.

(** [key in DEFAULT_CONFIG] *)
Definition in_defaults (key : string) : bool :=
  bool_decide (is_Some (DEFAULT_CONFIG !! key)).

(** The body of [for key, value in kwargs.items()]. *)
Definition apply_update (config : gmap string json) (kv : string * json)
  : gmap string json :=
  if is_not_none kv.2 && in_defaults kv.1 then <[kv.1 := kv.2]> config
  else config.

(** [update_config], given its keyword arguments in their order.  The
    values are taken among those JSON can hold; a value that [json.dump]
    cannot serialise shows as the outcome [DumpFails TypeError] of the
    write. *)
Definition update_config (kwargs : list (string * json)) (w : write_env)
    (f : config_file) : res (gmap string json) * config_file :=
  match load_config f with
  | Raise e => (Raise e, f)
  | Ok config =>
      let config' := foldl apply_update config kwargs in
      match save_config config' w f with
      | (Ok _, f') => (Ok config', f')
      | (Raise e, f') => (Raise e, f')
      end
  end.

(** The value the keyword arguments ask for key [k]: that of the last
    argument named [k] whose value is not None, for a key of
    DEFAULT_CONFIG. *)
Definition requested (kwargs : list (string * json)) (k : string)
  : option json :=
  if in_defaults k then
    last (omap (fun kv : string * json =>
                  if bool_decide (kv.1 = k) && is_not_none kv.2
                  then Some kv.2 else None) kwargs)
  else None.

End ConfigWrite.

(** ** cli.py: the [config] subcommand *)

Module Cli.
Import Config ConfigWrite.

(** [args.blur] (type=int) and [args.threshold] (type=float). *)
Record config_args := {
  arg_blur : option Z;
  arg_threshold : option Qc
}.

Inductive line :=
| LSettingsUpdated            (* "Settings updated:" *)
| LBlur (v : json)            (* "  blur: {config['blur']}" *)
| LThreshold (v : json)       (* "  threshold: {config['threshold']}" *)
| LBlank
| LChangesApply               (* "Changes apply immediately to running instance." *)
| LCurrentSettings            (* "Current settings:" *)
| LAdjustWith                 (* "Adjust with:" *)
| LExample                    (* "  blurcam config --blur 45" *)
| LAdvanced                   (* "Advanced:" *)
| LThresholdHint (v : json).  (* "  threshold: ... (detection sensitivity, 0-1)" *)

(** [args.blur if args.blur % 2 == 1 else args.blur + 1] *)
Definition odd_blur (b : Z) : Z := if b mod 2 =? 1 then b else b + 1.

Definition updates_of (a : config_args) : list (string * json) :=
  match arg_blur a with
  | Some b => [("blur", JInt (odd_blur b))]
  | None => []
  end ++
  match arg_threshold a with
  | Some t => [("threshold", JFloat t)]
  | None => []
  end.

(** [cmd_config]: what it prints, what it returns or raises, and the
    configuration file it leaves. *)
Definition cmd_config (a : config_args) (w : write_env) (f : config_file)
  : list line * res Z * config_file :=
  if bool_decide (is_Some (arg_blur a)) || bool_decide (is_Some (arg_threshold a))
  then
    match update_config (updates_of a) w f with
    | (Raise e, f') => ([], Raise e, f')
    | (Ok config, f') =>
        match
          (if bool_decide (is_Some (arg_blur a)) then
             res_bind (getitem config "blur") (fun v => Ok [LBlur v])
           else Ok []) with
        | Raise e => ([LSettingsUpdated], Raise e, f')
        | Ok l1 =>
            match
              (if bool_decide (is_Some (arg_threshold a)) then
                 res_bind (getitem config "threshold")
                   (fun v => Ok [LThreshold v])
               else Ok []) with
            | Raise e => (LSettingsUpdated :: l1, Raise e, f')
            | Ok l2 =>
                (LSettingsUpdated :: l1 ++ l2 ++ [LBlank; LChangesApply],
                 Ok 0, f')
            end
        end
    end
  else
    match load_config f with
    | Raise e => ([], Raise e, f)
    | Ok config =>
        match getitem config "blur" with
        | Raise e => ([LCurrentSettings], Raise e, f)
        | Ok b =>
            let shown :=
              [LCurrentSettings; LBlur b; LBlank; LAdjustWith; LExample;
               LBlank; LAdvanced] in
            match getitem config "threshold" with
            | Raise e => (shown, Raise e, f)
            | Ok t => (shown ++ [LThresholdHint t], Ok 0, f)
            end
        end
    end.

End Cli.

(** ** Concrete inputs, for the examples below *)

Module Sample.
Import Config Daemon.

#[global] Instance vision : Vision := {|
  mask_t := unit;
  get_mask := fun _ _ => Ok tt;
  gaussian_blend := fun f _ _ => Ok f;
  format_error := fun _ => Some TypeError;
  float_add := Qcplus;
  allocates := fun _ => true
|}.

(** A configuration file that sets three of the seven keys. *)
Definition small_cfg : config_file :=
  Readable 1%Qc
    (Parsed (JObj (list_to_map
       [("width", JInt 2); ("height", JInt 1); ("blur", JInt 4)]))).

Definition d0 : daemon :=
  {| device := "/dev/video10"; input_device := JInt 0;
     width := JInt 2; height := JInt 1; fps := JInt 30 |}.

Definition black0 : frame := [0; 0; 0; 0; 0; 0].

(** The daemon is process 100. *)
Definition pid0 : Z := 100.

(** The state in which the loop of [run] is entered. *)
Definition s0 : state :=
  {| blur_active := false; has_consumers := false;
     consumer_event := false; stop_event := false;
     config := list_to_map
       [("width", JInt 2); ("height", JInt 1); ("blur", JInt 4)]
       ∪ DEFAULT_CONFIG;
     segmentation := None; cap := None;
     config_mtime := 1%Qc; blur_strength := JInt 5;
     threshold := JFloat (Q2Qc (1 # 2));
     next_id := 0%nat; watching := true |}.

(** /proc with the daemon itself and two other processes on the device,
    one of them through two handles. *)
Definition two_consumers : Proc.procfs :=
  {| Proc.proc_listing := Some ["1"; "100"; "200"; "300"; "self"];
     Proc.fd_links := fun pid =>
       if pid =? 100 then Some [Some "/dev/video10"]
       else if pid =? 200 then
         Some [Some "/dev/null"; Some "/dev/video10"; Some "/dev/video10"]
       else if pid =? 300 then Some [None; Some "/dev/video10"]
       else None |}.

(** /proc with the daemon alone on the device. *)
Definition no_consumer : Proc.procfs :=
  {| Proc.proc_listing := Some ["1"; "100"; "200"; "self"];
     Proc.fd_links := fun pid =>
       if pid =? 100 then Some [Some "/dev/video10"]
       else if pid =? 200 then Some [Some "/dev/null"]
       else None |}.

Definition opened_by_two : inotify_event :=
  {| mask := OPEN; table := two_consumers |}.
Definition opened_by_none : inotify_event :=
  {| mask := OPEN; table := no_consumer |}.
Definition closed_by_all : inotify_event :=
  {| mask := CLOSE_WRITE; table := no_consumer |}.

(** A tick in which everything outside the daemon works. *)
Definition calm : tick_env :=
  {| model_loads := true; open_ok := true; cfg_file := small_cfg;
     read_result := Some [1; 2; 3; 4; 5; 6]; send_ok := true |}.

(** A tick in which the webcam cannot be opened. *)
Definition no_webcam : tick_env :=
  {| model_loads := true; open_ok := false; cfg_file := small_cfg;
     read_result := None; send_ok := true |}.

Definition env0 : run_env :=
  {| device_exists := true; watch_ok := true;
     start_cfg_file := small_cfg; vcam_ok := true |}.


(** Idle, with the signal set and consumers present. *)
Definition attached0 : state :=
  set_consumer_event true (set_has_consumers true s0).

(** Active: model 0 loaded, capture 1 open. *)
Definition active0 : state :=
  set_next_id 2
    (set_cap (Some {| cap_id := 1; is_opened := true |})
       (set_segmentation (Some 0%nat)
          (set_blur_active true (set_has_consumers true s0)))).

(** Active, with the signal set and no consumer left. *)
Definition detaching0 : state :=
  set_consumer_event true (set_has_consumers false active0).

(** Attach, detach and attach again. *)
Definition attach_twice : list sys_event :=
  [ Notify [opened_by_two]; Tick calm;
    Notify [closed_by_all]; Tick calm;
    Notify [opened_by_two]; Tick calm ].

(** Attach, then a termination request. *)
Definition attach_then_stop : list sys_event :=
  [ Notify [opened_by_two]; Tick calm; Signal; Tick calm ].

End Sample.

(** * Properties *)

Import Config Proc Daemon.

(** ** config.py: [load_config] *)

Section ConfigFacts.
Import Config.

Lemma default_keys_present k :
  k ∈ DEFAULT_KEYS -> is_Some (DEFAULT_CONFIG !! k).
Proof.
  unfold DEFAULT_KEYS. intros Hk.
  repeat (apply elem_of_cons in Hk as [-> | Hk]; [vm_compute; eauto |]).
  by apply elem_of_nil in Hk.
Qed.

Lemma default_keys_dom : dom DEFAULT_CONFIG = list_to_set DEFAULT_KEYS.
Proof.
  unfold DEFAULT_CONFIG, DEFAULT_KEYS. rewrite dom_list_to_map_L. reflexivity.
Qed.

(** Unpacking a saved value that is not an object is not caught. *)
Lemma load_config_non_object mtime v :
  (forall m, v <> JObj m) ->
  load_config (Readable mtime (Parsed v)) = Raise TypeError.
Proof. intros Hv. destruct v; try reflexivity. by destruct (Hv m). Qed.

Lemma merged_lookup (m : gmap string json) k :
  (m ∪ DEFAULT_CONFIG) !! k =
  match m !! k with
  | Some v => Some v
  | None => DEFAULT_CONFIG !! k
  end.
Proof.
  destruct (m !! k) as [v |] eqn:Hm.
  - by apply lookup_union_Some_l.
  - by rewrite lookup_union_r.
Qed.

(** X1.  When the configuration directory is there or can be created,
    and the file is absent, cannot be opened, is rejected by [json.load]
    with JSONDecodeError, or is one from which [json.load] returns an
    object (with any subset of the keys), [load_config] returns (it does
    not raise) a dictionary that has every key of DEFAULT_CONFIG; a key
    present in the file carries the file's value, every other key carries
    the default; and [BlurDaemon.__init__], which reads width, height and
    fps from it, succeeds. *)
Lemma load_config_complete (f : config_file) :
  anticipated f ->
  exists cfg,
    load_config f = Ok cfg
    /\ (forall k, k ∈ DEFAULT_KEYS -> is_Some (cfg !! k))
    /\ (forall k v, file_value f k = Some v -> cfg !! k = Some v)
    /\ (forall k, file_value f k = None -> cfg !! k = DEFAULT_CONFIG !! k)
    /\ (forall dev input, exists d s,
          Daemon.init dev input f = Ok (d, s) /\ Daemon.config s = cfg).
Proof.
  intros Hf.
  assert (Hinit : forall cfg, load_config f = Ok cfg ->
            (forall k, k ∈ DEFAULT_KEYS -> is_Some (cfg !! k)) ->
            forall dev input, exists d s,
              Daemon.init dev input f = Ok (d, s) /\ Daemon.config s = cfg).
  { intros cfg Hl Hk dev input. unfold Daemon.init. rewrite Hl. simpl.
    unfold getitem.
    destruct (Hk "width") as [w ->]; [unfold DEFAULT_KEYS; set_solver |].
    destruct (Hk "height") as [h ->]; [unfold DEFAULT_KEYS; set_solver |].
    destruct (Hk "fps") as [r ->]; [unfold DEFAULT_KEYS; set_solver |].
    simpl. eauto. }
  destruct f as [| | mtime | mtime [| v | x]]; simpl in Hf; try done.
  - exists DEFAULT_CONFIG.
    assert (Hk := default_keys_present).
    split_and!; [done | done | done | done | by apply Hinit].
  - exists DEFAULT_CONFIG.
    assert (Hk := default_keys_present).
    split_and!; [done | done | done | done | by apply Hinit].
  - exists DEFAULT_CONFIG.
    assert (Hk := default_keys_present).
    split_and!; [done | done | done | done | by apply Hinit].
  - destruct v; try done.
    exists (m ∪ DEFAULT_CONFIG).
    assert (Hk : forall k, k ∈ DEFAULT_KEYS ->
                   is_Some ((m ∪ DEFAULT_CONFIG) !! k)).
    { intros k Hin. rewrite merged_lookup.
      destruct (m !! k); [eauto | by apply default_keys_present]. }
    split_and!; [done | done | | | by apply Hinit].
    + intros k v Hv. simpl in Hv. by rewrite merged_lookup, Hv.
    + intros k Hv. simpl in Hv. by rewrite merged_lookup, Hv.
Qed.

(** C10.  A configuration file that exists, can be read and holds the
    JSON text [[]] (valid JSON, but not an object) makes [load_config]
    raise TypeError: the merge [{**DEFAULT_CONFIG, **saved}] unpacks a
    list, and the handler catches JSONDecodeError and IOError only.  No
    dictionary is returned, and [BlurDaemon.__init__] fails with it. *)
Theorem load_config_raises_on_json_array :
  load_config (Readable 1%Qc (Parsed (JArr []))) = Raise TypeError
  /\ Daemon.init "/dev/video10" (JInt 0) (Readable 1%Qc (Parsed (JArr [])))
     = Raise TypeError.
Proof. split; reflexivity. Qed.

End ConfigFacts.

(** ** daemon.py: [_get_consumer_count] *)

Section CountFacts.
Import Proc.

Lemma scan_fds_spec device fds :
  scan_fds device fds = true <-> Some device ∈ fds.
Proof.
  induction fds as [| [target |] rest IH]; simpl.
  - rewrite elem_of_nil. split; done.
  - rewrite elem_of_cons. case_bool_decide as Heq.
    + subst. split; [by left | done].
    + rewrite IH. split; [by right |]. intros [Hhd | Htl]; [congruence | done].
  - rewrite elem_of_cons, IH. split; [by right |].
    intros [Hhd | Htl]; done.
Qed.

Lemma scan_procs_spec my_pid device fs pid_dirs count :
  scan_procs my_pid device (fd_links fs) pid_dirs count =
  count + Z.of_nat
            (length (filter (is_consumer my_pid device fs)
                            (running_pids pid_dirs))).
Proof.
  revert count. unfold running_pids.
  induction pid_dirs as [| pid_dir rest IH]; intros count; simpl.
  - lia.
  - rewrite filter_cons. destruct (isdigit pid_dir) eqn:Hd; simpl.
    + rewrite filter_cons.
      destruct (Z.eqb_spec (int pid_dir) my_pid) as [Heq | Hne].
      * rewrite decide_False by (intros [? _]; done). apply IH.
      * destruct (fd_links fs (int pid_dir)) as [fds |] eqn:Hl.
        -- destruct (scan_fds device fds) eqn:Hs.
           ++ rewrite decide_True.
              ** rewrite IH. simpl. unfold fmap. lia.
              ** split; [done |]. exists fds. split; [done |].
                 by apply scan_fds_spec.
           ++ rewrite decide_False; [apply IH |].
              intros [_ (fds' & Heq & Hin)].
              assert (fds' = fds) as -> by congruence.
              apply scan_fds_spec in Hin. congruence.
        -- rewrite decide_False; [apply IH |].
           intros [_ (fds' & Heq & _)]. congruence.
    + apply IH.
Qed.

(** C6.  When /proc can be listed and names each running process once,
    the count is the size of the set of listed process ids, other than the
    daemon's own, that have at least one handle resolving to the device: a
    process is counted once however many such handles it has, and the
    count is not negative. *)
Theorem consumer_count_is_number_of_holders my_pid device fs pid_dirs :
  proc_listing fs = Some pid_dirs ->
  NoDup (running_pids pid_dirs) ->
  exists consumers : gset Z,
    (forall pid, pid ∈ consumers <->
       pid ∈ running_pids pid_dirs /\ pid <> my_pid /\ holds fs device pid)
    /\ get_consumer_count my_pid device fs = Z.of_nat (size consumers)
    /\ 0 <= get_consumer_count my_pid device fs.
Proof.
  intros Hl Hnd.
  exists (list_to_set (filter (is_consumer my_pid device fs)
                              (running_pids pid_dirs))).
  assert (Hc : get_consumer_count my_pid device fs =
               Z.of_nat (size (list_to_set (C := gset Z)
                  (filter (is_consumer my_pid device fs)
                          (running_pids pid_dirs))))).
  { unfold get_consumer_count. rewrite Hl, scan_procs_spec.
    rewrite size_list_to_set by by apply NoDup_filter. lia. }
  split_and!.
  - intros pid. rewrite elem_of_list_to_set, list_elem_of_filter.
    unfold is_consumer. tauto.
  - exact Hc.
  - rewrite Hc. lia.
Qed.

(** Whatever /proc looks like, the count is not negative, and it is 0 when
    /proc cannot be listed. *)
Lemma consumer_count_nonneg my_pid device fs :
  0 <= get_consumer_count my_pid device fs.
Proof.
  unfold get_consumer_count. destruct (proc_listing fs); [| lia].
  rewrite scan_procs_spec. lia.
Qed.

End CountFacts.

(** ** daemon.py: the watcher thread *)

Section WatcherFacts.
Import Config Daemon.
Context {V : Vision}.
Variable d : daemon.
Variable my_pid : Z.

(** C2 (as amended).  Handling one notification never raises.  It sets the
    edge-event signal exactly when the notification is an open and the
    recount is positive, or is a close and the recount is zero; when it
    signals, has_consumers becomes "the recount is positive"; when it does
    not, nothing shared changes.  Hence has_consumers never changes
    without the signal being set, while the signal is also set by an open
    that finds consumers when has_consumers was already true. *)
Theorem handle_event_signals (ev : inotify_event) (s : state) :
  let count := Proc.get_consumer_count my_pid (device d) (table ev) in
  let is_open := bool_decide (Z.land (mask ev) OPEN <> 0) in
  let is_close :=
    negb is_open &&
    bool_decide (Z.land (mask ev) (Z.lor CLOSE_NOWRITE CLOSE_WRITE) <> 0) in
  let out := handle_event d my_pid ev s in
  result_of out = Ok tt
  /\ signals (trace_of out)
       = (is_open && (0 <? count)) || (is_close && (count =? 0))
  /\ (signals (trace_of out) = true ->
        has_consumers (state_of out) = (0 <? count)
        /\ consumer_event (state_of out) = true)
  /\ (signals (trace_of out) = false -> state_of out = s)
  /\ (has_consumers (state_of out) <> has_consumers s ->
        signals (trace_of out) = true).
Proof.
  intros count is_open is_close out.
  subst out is_close is_open. unfold handle_event. fold count.
  destruct (bool_decide (Z.land (mask ev) OPEN <> 0)) eqn:Ho; simpl.
  - destruct (0 <? count) eqn:Hc; simpl.
    + split_and!; try done.
    + split_and!; try done.
  - destruct (bool_decide
                (Z.land (mask ev) (Z.lor CLOSE_NOWRITE CLOSE_WRITE) <> 0))
      eqn:Hcl; simpl.
    + destruct (Z.eqb_spec count 0) as [Hz | Hnz]; simpl.
      * rewrite Hz. split_and!; try done.
      * split_and!; try done.
    + split_and!; try done.
Qed.

End WatcherFacts.

(** C2, as it is written, fails: with has_consumers already true, an open
    notification whose recount finds two consumers sets the signal although
    the recount shows no flip. *)
Lemma signal_without_flip :
  signals (trace_of (handle_event Sample.d0 Sample.pid0 Sample.opened_by_two
                       (set_has_consumers true Sample.s0)))
  <> flip_shown true
       (get_consumer_count Sample.pid0 (device Sample.d0)
          (table Sample.opened_by_two)).
Proof. vm_compute. discriminate. Qed.

(** In the other direction, an open notification whose recount finds no
    consumer leaves has_consumers true and the signal unset. *)
Lemma flip_without_signal :
  signals (trace_of (handle_event Sample.d0 Sample.pid0 Sample.opened_by_none
                       (set_has_consumers true Sample.s0))) = false
  /\ flip_shown true
       (get_consumer_count Sample.pid0 (device Sample.d0)
          (table Sample.opened_by_none)) = true.
Proof. split; reflexivity. Qed.

(** ** Traces *)

Section TraceFacts.

Lemma frames_sent_app t1 t2 :
  frames_sent (t1 ++ t2) = frames_sent t1 ++ frames_sent t2.
Proof.
  induction t1 as [| x t1 IH]; [done |].
  destruct x; simpl; rewrite ?IH; done.
Qed.

Lemma models_loaded_app t1 t2 :
  models_loaded (t1 ++ t2) = models_loaded t1 ++ models_loaded t2.
Proof.
  induction t1 as [| x t1 IH]; [done |].
  destruct x; simpl; rewrite ?IH; done.
Qed.

Lemma captures_tried_app t1 t2 :
  captures_tried (t1 ++ t2) = captures_tried t1 ++ captures_tried t2.
Proof.
  induction t1 as [| x t1 IH]; [done |].
  destruct x; simpl; rewrite ?IH; done.
Qed.

Lemma captures_released_app t1 t2 :
  captures_released (t1 ++ t2) = captures_released t1 ++ captures_released t2.
Proof.
  induction t1 as [| x t1 IH]; [done |].
  destruct x; simpl; rewrite ?IH; done.
Qed.

Lemma ticks_paced_app t1 t2 :
  ticks_paced (t1 ++ t2) = (ticks_paced t1 + ticks_paced t2)%nat.
Proof.
  induction t1 as [| x t1 IH]; [done |].
  destruct x; simpl; rewrite ?IH; done.
Qed.

Lemma open_after_app hs t1 t2 :
  open_after hs (t1 ++ t2) = open_after (open_after hs t1) t2.
Proof.
  revert hs. induction t1 as [| x t1 IH]; intros hs; [done |].
  destruct x as [| | | | | | | id input [|] | | | | | | |]; simpl; apply IH.
Qed.

Lemma quiet_app t1 t2 :
  forallb quiet_effect (t1 ++ t2)
  = forallb quiet_effect t1 && forallb quiet_effect t2.
Proof. apply forallb_app. Qed.

Lemma quiet_trace t :
  forallb quiet_effect t = true ->
  frames_sent t = [] /\ models_loaded t = [] /\ captures_tried t = []
  /\ captures_released t = [] /\ forall hs, open_after hs t = hs.
Proof.
  induction t as [| x t IH]; simpl; [done |].
  intros [Hx Ht]%andb_true_iff. destruct (IH Ht) as (? & ? & ? & ? & ?).
  destruct x; simpl in *; try discriminate; done.
Qed.

Lemma quiet_trace_unpaced t :
  forallb quiet_effect t = true -> ticks_paced t = 0%nat.
Proof.
  induction t as [| x t IH]; simpl; [done |].
  intros [Hx Ht]%andb_true_iff.
  destruct x; simpl in *; try discriminate; by apply IH.
Qed.

End TraceFacts.

(** ** daemon.py: the main loop *)

Section LoopFacts.
Context {V : Vision}.
Variable d : daemon.
Variable my_pid : Z.
Variable black_frame : frame.

(** Symbolic execution of a monadic program on a state. *)
Ltac exec :=
  cbv [bind ret raise emit gets modify lift when fresh
       trace_of state_of result_of]; simpl.

(** Every combination of the flags, the handles and the outcomes that the
    consumer change depends on. *)
Ltac change_cases s e :=
  destruct s as [ba hc ce se cfg seg cp mt bs th nid w];
  destruct e as [ml ook cf rr sok];
  destruct ba, hc, ce, seg as [sid |], cp as [[cid [|]] |], ml, ook;
  unfold consumer_change, load_model, open_webcam, release_webcam; exec.

Lemma bind_split {A B} (m : M A) (k : A -> M B) s :
  bind m k s =
  match result_of (m s) with
  | Ok a =>
      (trace_of (m s) ++ trace_of (k a (state_of (m s))),
       state_of (k a (state_of (m s))),
       result_of (k a (state_of (m s))))
  | Raise x => (trace_of (m s), state_of (m s), Raise x)
  end.
Proof.
  unfold bind, trace_of, state_of, result_of.
  destruct (m s) as [[t s'] [a | x]]; simpl; [| done].
  destruct (k a s') as [[t' s''] r]; done.
Qed.

Lemma trace_of_triple {A} t s (r : res A) : trace_of (t, s, r) = t.
Proof. reflexivity. Qed.
Lemma state_of_triple {A} t s (r : res A) : state_of (t, s, r) = s.
Proof. reflexivity. Qed.
Lemma result_of_triple {A} t s (r : res A) : result_of (t, s, r) = r.
Proof. reflexivity. Qed.

Ltac proj3 :=
  rewrite ?trace_of_triple, ?state_of_triple, ?result_of_triple.

Lemma consumer_change_quiet e s :
  consumer_event s = false -> consumer_change d e s = ([], s, Ok tt).
Proof. intros H. unfold consumer_change. exec. rewrite H. reflexivity. Qed.

Lemma consumer_change_invariant e s :
  active_iff_capturing s ->
  result_of (consumer_change d e s) = Ok tt ->
  active_iff_capturing (state_of (consumer_change d e s)).
Proof.
  unfold active_iff_capturing. change_cases s e; intros; done.
Qed.

Lemma consumer_change_shared e s :
  let s' := state_of (consumer_change d e s) in
  has_consumers s' = has_consumers s /\ stop_event s' = stop_event s
  /\ watching s' = watching s /\ config s' = config s
  /\ config_mtime s' = config_mtime s
  /\ blur_strength s' = blur_strength s /\ threshold s' = threshold s
  /\ consumer_event s' = false.
Proof. change_cases s e; done. Qed.

Lemma consumer_change_frames e s :
  frames_sent (trace_of (consumer_change d e s)) = [].
Proof. change_cases s e; done. Qed.

Lemma consumer_change_handles e s :
  open_after (held s) (trace_of (consumer_change d e s))
  = held (state_of (consumer_change d e s)).
Proof.
  unfold held. change_cases s e; try done.
  all: rewrite filter_cons; case_decide; done.
Qed.

(** The model is loaded when there is none, and kept when there is one. *)
Lemma consumer_change_model e s :
  let out := consumer_change d e s in
  match segmentation s with
  | Some id =>
      segmentation (state_of out) = Some id /\ models_loaded (trace_of out) = []
  | None =>
      (segmentation (state_of out) = None /\ models_loaded (trace_of out) = [])
      \/ (segmentation (state_of out) = Some (next_id s)
          /\ models_loaded (trace_of out) = [next_id s])
  end.
Proof. change_cases s e; auto. Qed.

(** The capture variable changes by a construction or by a release. *)
Lemma consumer_change_capture e s :
  let out := consumer_change d e s in
  (captures_tried (trace_of out) = []
   /\ (cap (state_of out) = cap s \/ cap (state_of out) = None))
  \/ (exists id,
        captures_tried (trace_of out) = [(id, open_ok e)]
        /\ cap (state_of out) = Some {| cap_id := id; is_opened := open_ok e |}).
Proof. change_cases s e; eauto. Qed.

Lemma config_change_trace e s : trace_of (config_change e s) = [].
Proof.
  unfold config_change.
  destruct (get_config_mtime (cfg_file e)) as [new_mtime | x] eqn:Hmt;
    exec; [| done].
  case_bool_decide; simpl; [| done].
  destruct (load_config (cfg_file e)) as [cfg | x]; simpl; [| done].
  destruct (getitem cfg "blur") as [blur | x]; simpl; [| done].
  destruct (make_odd blur) as [odd | x]; simpl; [| done].
  destruct (getitem cfg "threshold") as [th | x]; done.
Qed.

(** A configuration change leaves the flags, the handles and the object
    counter alone. *)
Lemma config_change_resources e s :
  let s' := state_of (config_change e s) in
  blur_active s' = blur_active s /\ has_consumers s' = has_consumers s
  /\ consumer_event s' = consumer_event s /\ stop_event s' = stop_event s
  /\ segmentation s' = segmentation s /\ cap s' = cap s
  /\ next_id s' = next_id s /\ watching s' = watching s.
Proof.
  unfold config_change.
  destruct (get_config_mtime (cfg_file e)) as [new_mtime | x] eqn:Hmt;
    exec; [| done].
  case_bool_decide; simpl; [| done].
  destruct (load_config (cfg_file e)) as [cfg | x]; simpl; [| done].
  destruct (getitem cfg "blur") as [blur | x]; simpl; [| done].
  destruct (make_odd blur) as [odd | x]; simpl; [| done].
  destruct (getitem cfg "threshold") as [th | x]; done.
Qed.

(** What a configuration change that does not raise leaves behind. *)
Lemma config_change_values e s :
  let out := config_change e s in
  result_of out = Ok tt ->
  exists new_mtime,
    get_config_mtime (cfg_file e) = Ok new_mtime
    /\ if bool_decide (config_mtime s < new_mtime)%Qc then
         exists cfg blur odd th,
           load_config (cfg_file e) = Ok cfg
           /\ getitem cfg "blur" = Ok blur /\ make_odd blur = Ok odd
           /\ getitem cfg "threshold" = Ok th
           /\ config_mtime (state_of out) = new_mtime
           /\ config (state_of out) = cfg
           /\ blur_strength (state_of out) = odd
           /\ threshold (state_of out) = th
       else state_of out = s.
Proof.
  unfold config_change.
  destruct (get_config_mtime (cfg_file e)) as [new_mtime | x] eqn:Hmt;
    exec; [| done].
  case_bool_decide as Hnew; simpl.
  - destruct (load_config (cfg_file e)) as [cfg | x]; simpl; [| done].
    destruct (getitem cfg "blur") as [blur | x] eqn:Hb; simpl; [| done].
    destruct (make_odd blur) as [odd | x] eqn:Ho; simpl; [| done].
    destruct (getitem cfg "threshold") as [th | x] eqn:Ht; simpl; [| done].
    intros _. exists new_mtime. split; [done |].
    rewrite bool_decide_eq_true_2 by done. exists cfg, blur, odd, th. done.
  - intros _. exists new_mtime. split; [done |].
    by rewrite bool_decide_eq_false_2.
Qed.

Lemma generate_frame_state e s :
  state_of (generate_frame black_frame e s) = s.
Proof.
  unfold generate_frame, vcam_send. exec.
  destruct (cap s) as [[id [|]] |], (blur_active s), (send_ok e); simpl;
    try done.
  all: destruct (read_result e) as [raw |]; simpl; try done.
  all: destruct (blurred raw (threshold s) (blur_strength s)); done.
Qed.

Lemma generate_frame_frames e s :
  active_iff_capturing s ->
  let out := generate_frame black_frame e s in
  match frame_due black_frame e s with
  | Ok f =>
      if send_ok e
      then result_of out = Ok tt /\ frames_sent (trace_of out) = [f]
      else result_of out = Raise ValueError /\ frames_sent (trace_of out) = []
  | Raise x => result_of out = Raise x /\ frames_sent (trace_of out) = []
  end.
Proof.
  unfold active_iff_capturing, frame_due, generate_frame, vcam_send.
  intros Hinv. exec.
  destruct (cap s) as [[id [|]] |]; simpl in *; rewrite Hinv; simpl.
  - destruct (read_result e) as [raw |]; simpl.
    + destruct (blurred raw (threshold s) (blur_strength s)); simpl; [| done].
      destruct (send_ok e); done.
    + destruct (send_ok e); done.
  - destruct (send_ok e); done.
  - destruct (send_ok e); done.
Qed.

Lemma generate_frame_resources e s :
  let t := trace_of (generate_frame black_frame e s) in
  models_loaded t = [] /\ captures_tried t = [] /\ captures_released t = []
  /\ forall hs, open_after hs t = hs.
Proof.
  unfold generate_frame, vcam_send. exec.
  destruct (cap s) as [[id [|]] |], (blur_active s), (send_ok e); simpl;
    try done.
  all: destruct (read_result e) as [raw |]; simpl; try done.
  all: destruct (blurred raw (threshold s) (blur_strength s)); done.
Qed.

(** **** The watcher thread and the signal handler *)

Lemma same_main_refl s : same_main s s.
Proof. unfold same_main. done. Qed.

Lemma same_main_trans s1 s2 s3 :
  same_main s1 s2 -> same_main s2 s3 -> same_main s1 s3.
Proof. unfold same_main. intuition congruence. Qed.

Lemma handle_event_main ev s :
  let out := handle_event d my_pid ev s in
  result_of out = Ok tt /\ same_main s (state_of out)
  /\ forallb quiet_effect (trace_of out) = true
  /\ stop_event (state_of out) = stop_event s
  /\ watching (state_of out) = watching s.
Proof.
  unfold handle_event, same_main. exec.
  repeat case_bool_decide; simpl;
    repeat match goal with
           | |- context [if ?c then _ else _] => destruct c; simpl
           end; done.
Qed.

Lemma for_each_handle_event events s :
  let out := for_each events (handle_event d my_pid) s in
  result_of out = Ok tt /\ same_main s (state_of out)
  /\ forallb quiet_effect (trace_of out) = true
  /\ stop_event (state_of out) = stop_event s
  /\ watching (state_of out) = watching s.
Proof.
  revert s. induction events as [| ev rest IH]; intros s; simpl.
  - split_and!; try done; apply same_main_refl.
  - rewrite bind_split.
    destruct (handle_event_main ev s) as (Hr & Hm & Hq & Hs & Hw).
    simpl in Hr. rewrite Hr. simpl.
    destruct (IH (state_of (handle_event d my_pid ev s)))
      as (Hr' & Hm' & Hq' & Hs' & Hw').
    split_and!.
    + exact Hr'.
    + eapply same_main_trans; [exact Hm | exact Hm'].
    + unfold trace_of at 1. simpl. rewrite quiet_app.
      apply andb_true_iff. split; [exact Hq | exact Hq'].
    + unfold state_of at 1. simpl. congruence.
    + unfold state_of at 1. simpl. congruence.
Qed.

Lemma watcher_turn_eq events s :
  watcher_turn d my_pid events s =
  if watching s then
    if stop_event s then ([InotifyClose], set_watching false s, Ok tt)
    else for_each events (handle_event d my_pid) s
  else ([], s, Ok tt).
Proof.
  unfold watcher_turn, bind, gets. simpl.
  destruct (watching s), (stop_event s); simpl; try done.
  by destruct (for_each events (handle_event d my_pid) s) as [[t s'] r].
Qed.

Lemma watcher_turn_main events s :
  let out := watcher_turn d my_pid events s in
  result_of out = Ok tt /\ same_main s (state_of out)
  /\ forallb quiet_effect (trace_of out) = true
  /\ stop_event (state_of out) = stop_event s
  /\ (watching s = false -> out = ([], s, Ok tt)).
Proof.
  simpl. rewrite watcher_turn_eq.
  destruct (for_each_handle_event events s) as (Hr & Hm & Hq & Hs & Hw).
  destruct (watching s), (stop_event s) eqn:Hstop; simpl.
  - unfold same_main. done.
  - done.
  - split_and!; try done; apply same_main_refl.
  - split_and!; try done; apply same_main_refl.
Qed.

Lemma signal_handler_main s :
  signal_handler s
  = ([Print Stdout MsgShuttingDown], set_stop_event true s, Ok tt).
Proof. reflexivity. Qed.

(** **** One tick *)

Lemma tick_split e s :
  let o1 := consumer_change d e s in
  let o2 := config_change e (state_of o1) in
  let o3 := generate_frame black_frame e (state_of o2) in
  tick d black_frame e s =
  match result_of o1 with
  | Raise x => (trace_of o1, state_of o1, Raise x)
  | Ok _ =>
      match result_of o2 with
      | Raise x => (trace_of o1, state_of o2, Raise x)
      | Ok _ => (trace_of o1 ++ trace_of o3, state_of o2, result_of o3)
      end
  end.
Proof.
  simpl. unfold tick. rewrite bind_split.
  destruct (result_of (consumer_change d e s)) as [[] | x]; [| done].
  rewrite bind_split.
  pose proof (config_change_trace e (state_of (consumer_change d e s))) as Ht.
  pose proof (generate_frame_state e
    (state_of (config_change e (state_of (consumer_change d e s))))) as Hs.
  destruct (result_of (config_change e (state_of (consumer_change d e s))))
    as [[] | x].
  - unfold trace_of, state_of, result_of in *. cbn [fst snd].
    rewrite Ht, Hs. done.
  - unfold trace_of, state_of, result_of in *. cbn [fst snd].
    rewrite Ht, app_nil_r. done.
Qed.

Lemma tick_invariant e s :
  active_iff_capturing s ->
  result_of (tick d black_frame e s) = Ok tt ->
  active_iff_capturing (state_of (tick d black_frame e s)).
Proof.
  intros Hinv. rewrite tick_split.
  pose proof (consumer_change_invariant e s Hinv) as H1.
  pose proof (config_change_resources e (state_of (consumer_change d e s)))
    as (Hb & _ & _ & _ & _ & Hc & _).
  destruct (result_of (consumer_change d e s)) as [[] | x]; [| done].
  destruct (result_of (config_change e (state_of (consumer_change d e s))))
    as [[] | x]; [| done].
  intros _. proj3.
  unfold active_iff_capturing in *. rewrite Hb, Hc. by apply H1.
Qed.

Lemma tick_shared e s :
  let s' := state_of (tick d black_frame e s) in
  has_consumers s' = has_consumers s /\ stop_event s' = stop_event s
  /\ watching s' = watching s /\ consumer_event s' = false.
Proof.
  simpl. rewrite tick_split.
  pose proof (consumer_change_shared e s)
    as (Hh & Hs & Hw & _ & _ & _ & _ & He).
  pose proof (config_change_resources e (state_of (consumer_change d e s)))
    as (_ & Hh' & He' & Hs' & _ & _ & _ & Hw').
  destruct (result_of (consumer_change d e s)) as [[] | x]; [| done].
  destruct (result_of (config_change e (state_of (consumer_change d e s))))
    as [[] | x]; proj3; rewrite Hh', He', Hs', Hw'; done.
Qed.

Lemma tick_handles e s :
  open_after (held s) (trace_of (tick d black_frame e s))
  = held (state_of (tick d black_frame e s)).
Proof.
  rewrite tick_split.
  pose proof (consumer_change_handles e s) as H1.
  pose proof (config_change_resources e (state_of (consumer_change d e s)))
    as (_ & _ & _ & _ & _ & Hc & _).
  pose proof (generate_frame_resources e
    (state_of (config_change e (state_of (consumer_change d e s)))))
    as (_ & _ & _ & H3).
  assert (Hheld : held (state_of (config_change e
                    (state_of (consumer_change d e s))))
                  = held (state_of (consumer_change d e s))).
  { unfold held. by rewrite Hc. }
  destruct (result_of (consumer_change d e s)) as [[] | x]; [| done].
  destruct (result_of (config_change e (state_of (consumer_change d e s))))
    as [[] | x]; proj3.
  - rewrite open_after_app, H1, H3. done.
  - rewrite H1. done.
Qed.

Lemma tick_model e s :
  let out := tick d black_frame e s in
  match segmentation s with
  | Some id =>
      segmentation (state_of out) = Some id /\ models_loaded (trace_of out) = []
  | None =>
      (segmentation (state_of out) = None /\ models_loaded (trace_of out) = [])
      \/ (segmentation (state_of out) = Some (next_id s)
          /\ models_loaded (trace_of out) = [next_id s])
  end.
Proof.
  simpl. rewrite tick_split.
  pose proof (consumer_change_model e s) as H1. simpl in H1.
  pose proof (config_change_resources e (state_of (consumer_change d e s)))
    as (_ & _ & _ & _ & Hsg & _).
  pose proof (generate_frame_resources e
    (state_of (config_change e (state_of (consumer_change d e s)))))
    as (H3 & _).
  destruct (result_of (consumer_change d e s)) as [[] | x]; [| done].
  destruct (result_of (config_change e (state_of (consumer_change d e s))))
    as [[] | x]; proj3;
    rewrite ?models_loaded_app, ?H3, ?app_nil_r, Hsg; done.
Qed.

Lemma tick_capture e s :
  let out := tick d black_frame e s in
  (captures_tried (trace_of out) = []
   /\ (cap (state_of out) = cap s \/ cap (state_of out) = None))
  \/ (exists id,
        captures_tried (trace_of out) = [(id, open_ok e)]
        /\ cap (state_of out) = Some {| cap_id := id; is_opened := open_ok e |}).
Proof.
  simpl. rewrite tick_split.
  pose proof (consumer_change_capture e s) as H1. simpl in H1.
  pose proof (config_change_resources e (state_of (consumer_change d e s)))
    as (_ & _ & _ & _ & _ & Hc & _).
  pose proof (generate_frame_resources e
    (state_of (config_change e (state_of (consumer_change d e s)))))
    as (_ & H3 & _).
  destruct (result_of (consumer_change d e s)) as [[] | x]; [| done].
  destruct (result_of (config_change e (state_of (consumer_change d e s))))
    as [[] | x]; proj3;
    rewrite ?captures_tried_app, ?H3, ?app_nil_r, Hc; done.
Qed.

(** The frame written by a tick that runs to its end. *)
Lemma tick_frames e s :
  active_iff_capturing s ->
  let out := tick d black_frame e s in
  result_of out = Ok tt ->
  exists f, frame_due black_frame e (state_of out) = Ok f
            /\ frames_sent (trace_of out) = [f].
Proof.
  intros Hinv. simpl. rewrite tick_split.
  pose proof (consumer_change_invariant e s Hinv) as H1.
  pose proof (consumer_change_frames e s) as Hf1.
  pose proof (config_change_resources e (state_of (consumer_change d e s)))
    as (Hb & _ & _ & _ & _ & Hc & _).
  destruct (result_of (consumer_change d e s)) as [[] | x]; [| done].
  destruct (result_of (config_change e (state_of (consumer_change d e s))))
    as [[] | x]; [| done].
  proj3.
  assert (H2 : active_iff_capturing
                 (state_of (config_change e
                    (state_of (consumer_change d e s))))).
  { unfold active_iff_capturing in *. rewrite Hb, Hc. by apply H1. }
  pose proof (generate_frame_frames e _ H2) as H3. simpl in H3.
  destruct (frame_due black_frame e
              (state_of (config_change e (state_of (consumer_change d e s)))))
    as [f | x].
  - destruct (send_ok e).
    + destruct H3 as [_ H3]. intros _. exists f.
      rewrite frames_sent_app, Hf1, H3. done.
    + destruct H3 as [-> _]. done.
  - destruct H3 as [-> _]. done.
Qed.

(** After the consumer change, a tick only reads a frame, sends one and
    sleeps. *)
Lemma tick_after_change e s :
  let o1 := consumer_change d e s in
  let out := tick d black_frame e s in
  (exists t3, trace_of out = trace_of o1 ++ t3
              /\ captures_tried t3 = [] /\ models_loaded t3 = []
              /\ captures_released t3 = [])
  /\ blur_active (state_of out) = blur_active (state_of o1)
  /\ cap (state_of out) = cap (state_of o1)
  /\ segmentation (state_of out) = segmentation (state_of o1)
  /\ next_id (state_of out) = next_id (state_of o1).
Proof.
  simpl. rewrite tick_split.
  pose proof (config_change_resources e (state_of (consumer_change d e s)))
    as (Hb & _ & _ & _ & Hsg & Hc & Hn & _).
  pose proof (generate_frame_resources e
    (state_of (config_change e (state_of (consumer_change d e s)))))
    as (H3m & H3c & H3r & _).
  destruct (result_of (consumer_change d e s)) as [[] | x].
  - destruct (result_of (config_change e (state_of (consumer_change d e s))))
      as [[] | x]; proj3.
    + split; [| done]. eexists. split; [reflexivity | done].
    + split; [| done]. exists []. by rewrite app_nil_r.
  - proj3. split; [| done]. exists []. by rewrite app_nil_r.
Qed.

(** Whether a configuration change raises depends on the file and on the
    modification time remembered, on nothing else. *)
Lemma config_change_result e s s' :
  config_mtime s = config_mtime s' ->
  result_of (config_change e s) = result_of (config_change e s').
Proof.
  intros Hm. unfold config_change.
  destruct (get_config_mtime (cfg_file e)) as [new_mtime | x] eqn:Hmt;
    exec; [| done].
  rewrite <- Hm. case_bool_decide; simpl; [| done].
  destruct (load_config (cfg_file e)) as [cfg | x]; simpl; [| done].
  destruct (getitem cfg "blur") as [blur | x]; simpl; [| done].
  destruct (make_odd blur) as [odd | x]; simpl; [| done].
  destruct (getitem cfg "threshold") as [th | x]; done.
Qed.

Ltac in_trace :=
  repeat first [apply list_elem_of_here | apply list_elem_of_further].

Lemma failed_open_change e s :
  consumer_event s = true -> has_consumers s = true ->
  blur_active s = false -> active_iff_capturing s ->
  (segmentation s = None -> model_loads e = true) ->
  open_ok e = false ->
  let o := consumer_change d e s in
  result_of o = Ok tt
  /\ Print Stderr MsgCouldNotOpenWebcam ∈ trace_of o
  /\ blur_active (state_of o) = false
  /\ segmentation (state_of o) <> None
  /\ exists id, captures_tried (trace_of o) = [(id, false)]
                /\ cap (state_of o) = Some {| cap_id := id; is_opened := false |}.
Proof.
  unfold active_iff_capturing. change_cases s e; intros; try done.
  all: try (match goal with H : None = None -> _ |- _ =>
              by specialize (H eq_refl) end).
  all: split_and!; [done | in_trace | done | done | eauto].
Qed.

Lemma attach_tries_capture e s :
  consumer_event s = true -> has_consumers s = true ->
  blur_active s = false -> cap_usable (cap s) = false ->
  segmentation s <> None ->
  let o := consumer_change d e s in
  result_of o = Ok tt
  /\ captures_tried (trace_of o) = [(next_id s, open_ok e)]
  /\ cap (state_of o)
       = Some {| cap_id := next_id s; is_opened := open_ok e |}
  /\ blur_active (state_of o) = open_ok e.
Proof. change_cases s e; intros; done. Qed.

(** **** The loop *)

(** An invariant [P] of the trace so far and the state at the loop test,
    with [Q] for the state in which an exception leaves the loop. *)
Lemma main_loop_rule (P Q : list effect -> state -> Prop) :
  (forall t s e, P t s -> stop_event s = false ->
     let out := tick d black_frame e s in
     match result_of out with
     | Ok _ => P (t ++ trace_of out) (state_of out)
     | Raise _ => Q (t ++ trace_of out) (state_of out)
     end) ->
  (forall t s events, P t s ->
     let out := watcher_turn d my_pid events s in
     P (t ++ trace_of out) (state_of out)) ->
  (forall t s, P t s ->
     P (t ++ [Print Stdout MsgShuttingDown]) (set_stop_event true s)) ->
  forall schedule t s, P t s ->
    let out := main_loop d my_pid black_frame schedule s in
    match result_of out with
    | Ok _ => P (t ++ trace_of out) (state_of out)
    | Raise _ => Q (t ++ trace_of out) (state_of out)
    end.
Proof.
  intros Htick Hwatch Hsig schedule.
  induction schedule as [| ev rest IH]; intros t s HP; simpl.
  - unfold ret. proj3. by rewrite app_nil_r.
  - destruct ev as [e | events |]; simpl.
    + rewrite bind_split. unfold gets. proj3. rewrite app_nil_l.
      destruct (stop_event s) eqn:Hstop.
      { unfold ret. proj3. by rewrite app_nil_r. }
      rewrite bind_split.
      specialize (Htick t s e HP Hstop). simpl in Htick.
      destruct (result_of (tick d black_frame e s)) as [[] | x]; proj3.
      * specialize (IH _ _ Htick). simpl in IH.
        destruct (result_of (main_loop d my_pid black_frame rest
                               (state_of (tick d black_frame e s))));
          by rewrite app_assoc.
      * exact Htick.
    + rewrite bind_split.
      pose proof (watcher_turn_main events s) as (Hr & _). simpl in Hr.
      rewrite Hr. proj3.
      specialize (Hwatch t s events HP). simpl in Hwatch.
      specialize (IH _ _ Hwatch). simpl in IH.
      destruct (result_of (main_loop d my_pid black_frame rest
                             (state_of (watcher_turn d my_pid events s))));
        by rewrite app_assoc.
    + rewrite bind_split. rewrite signal_handler_main. proj3.
      specialize (IH _ _ (Hsig t s HP)). simpl in IH.
      destruct (result_of (main_loop d my_pid black_frame rest
                             (set_stop_event true s)));
        rewrite <- app_assoc in IH; exact IH.
Qed.

(** C3.  When the signal is set, consumers are present and the daemon is
    idle, and the capture device fails to open: the tick logs the failure
    on stderr, leaves the daemon idle with the unopened capture in hand,
    and raises nothing by itself, so that the tick goes on to write the
    black frame and the loop continues.  The next time the signal is seen
    set with consumers present, whatever the watcher thread did to the flags
    in between, the open is attempted again, and when that succeeds the
    daemon becomes active. *)
Theorem failed_open_stays_idle e s :
  consumer_event s = true -> has_consumers s = true ->
  blur_active s = false -> active_iff_capturing s ->
  (segmentation s = None -> model_loads e = true) ->
  open_ok e = false ->
  let out := tick d black_frame e s in
  let s1 := state_of out in
  Print Stderr MsgCouldNotOpenWebcam ∈ trace_of out
  /\ blur_active s1 = false
  /\ has_consumers s1 = true
  /\ (exists id, captures_tried (trace_of out) = [(id, false)]
                 /\ cap s1 = Some {| cap_id := id; is_opened := false |})
  /\ result_of (consumer_change d e s) = Ok tt
  /\ (result_of out = Ok tt -> frames_sent (trace_of out) = [black_frame])
  /\ (result_of (config_change e s) = Ok tt -> send_ok e = true ->
        result_of out = Ok tt)
  /\ forall e2 s2,
       same_main s1 s2 -> consumer_event s2 = true -> has_consumers s2 = true ->
       let out2 := tick d black_frame e2 s2 in
       captures_tried (trace_of out2) = [(next_id s1, open_ok e2)]
       /\ blur_active (state_of out2) = open_ok e2.
Proof.
  intros Hev Hcons Hidle Hinv Hmodel Hopen out s1.
  pose proof (failed_open_change e s Hev Hcons Hidle Hinv Hmodel Hopen)
    as (Hr & Hlog & Hb & Hseg & id & Htried & Hcap).
  cbv zeta in *.
  pose proof (tick_after_change e s)
    as ((t3 & Htrace & Ht3 & _) & Hb' & Hc' & Hs' & Hn'). cbv zeta in *.
  pose proof (tick_shared e s) as (Hh & _). cbv zeta in *.
  assert (Hinv1 : active_iff_capturing (state_of (consumer_change d e s))).
  { by apply consumer_change_invariant. }
  subst out s1. split_and!.
  - rewrite Htrace. apply elem_of_app. by left.
  - congruence.
  - congruence.
  - exists id. rewrite Htrace, captures_tried_app, Ht3, app_nil_r, Hc'. done.
  - exact Hr.
  - intros Hok.
    destruct (tick_frames e s Hinv Hok) as (f & Hdue & Hsent).
    unfold frame_due in Hdue. rewrite Hb', Hb in Hdue. congruence.
  - intros Hcfg Hsend. rewrite tick_split. cbv zeta. rewrite Hr.
    pose proof (consumer_change_shared e s)
      as (_ & _ & _ & _ & Hmt & _). cbv zeta in Hmt.
    rewrite (config_change_result e _ s Hmt), Hcfg.
    pose proof (config_change_resources e (state_of (consumer_change d e s)))
      as (Hb2 & _ & _ & _ & _ & Hc2 & _). cbv zeta in *.
    assert (Hinv2 : active_iff_capturing
              (state_of (config_change e (state_of (consumer_change d e s))))).
    { unfold active_iff_capturing in *. by rewrite Hb2, Hc2. }
    pose proof (generate_frame_frames e _ Hinv2) as Hgen. cbv zeta in Hgen.
    unfold frame_due in Hgen. rewrite Hb2, Hb, Hsend in Hgen.
    proj3. by destruct Hgen.
  - intros e2 s2 (Hb2 & _ & Hs2 & Hc2 & _ & _ & _ & Hn2) Hev2 Hcons2.
    assert (Hattach := attach_tries_capture e2 s2 Hev2 Hcons2).
    rewrite Hb2, Hc2, Hs2, Hn2 in Hattach.
    rewrite Hb', Hc', Hs', Hn' in Hattach.
    rewrite Hb, Hcap in Hattach.
    destruct (Hattach eq_refl eq_refl Hseg) as (_ & Htried2 & _ & Hact2).
    pose proof (tick_after_change e2 s2)
      as ((t4 & Htrace2 & Ht4 & _) & Hb4 & _). cbv zeta in *.
    rewrite Htrace2, captures_tried_app, Ht4, app_nil_r, Hb4, Hn'. done.
Qed.

Lemma np_zeros_all_zero h w f :
  np_zeros h w = Ok f -> Forall (fun x => x = 0) f.
Proof.
  unfold np_zeros.
  destruct (as_index h) as [h' |]; simpl; [| done].
  destruct (as_index w) as [w' |]; simpl; [| done].
  destruct ((h' <? 0) || (w' <? 0)); [done |].
  destruct ((intp_max <? h') || (intp_max <? w')
            || (intp_max <? shape_bytes h' w')); [done |].
  destruct (allocates (h' * w' * 3)); simpl; [| done].
  intros [= <-]. apply Forall_forall. intros x Hx.
  by apply list_elem_of_In, repeat_spec in Hx.
Qed.

Lemma tick_at_most_one_frame e s :
  active_iff_capturing s ->
  (length (frames_sent (trace_of (tick d black_frame e s))) <= 1)%nat.
Proof.
  intros Hinv. rewrite tick_split. cbv zeta.
  pose proof (consumer_change_invariant e s Hinv) as H1.
  pose proof (consumer_change_frames e s) as Hf1.
  pose proof (config_change_resources e (state_of (consumer_change d e s)))
    as (Hb & _ & _ & _ & _ & Hc & _). cbv zeta in *.
  destruct (result_of (consumer_change d e s)) as [[] | x];
    [| proj3; rewrite Hf1; simpl; lia].
  destruct (result_of (config_change e (state_of (consumer_change d e s))))
    as [[] | x]; proj3; [| rewrite Hf1; simpl; lia].
  assert (H2 : active_iff_capturing
                 (state_of (config_change e
                    (state_of (consumer_change d e s))))).
  { unfold active_iff_capturing in *. rewrite Hb, Hc. by apply H1. }
  pose proof (generate_frame_frames e _ H2) as H3. cbv zeta in H3.
  rewrite frames_sent_app, Hf1. simpl.
  destruct (frame_due black_frame e _) as [f | x];
    [destruct (send_ok e) |]; destruct H3 as [_ ->]; simpl; lia.
Qed.

Lemma consumer_change_unpaced e s :
  ticks_paced (trace_of (consumer_change d e s)) = 0%nat.
Proof. change_cases s e; done. Qed.

Lemma generate_frame_paced e s :
  let t := trace_of (generate_frame black_frame e s) in
  length (frames_sent t) = ticks_paced t.
Proof.
  unfold generate_frame, vcam_send. exec.
  destruct (cap s) as [[id [|]] |], (blur_active s), (send_ok e); simpl;
    try done.
  all: destruct (read_result e) as [raw |]; simpl; try done.
  all: destruct (blurred raw (threshold s) (blur_strength s)); done.
Qed.

Lemma tick_paced e s :
  let t := trace_of (tick d black_frame e s) in
  length (frames_sent t) = ticks_paced t.
Proof.
  cbv zeta. rewrite tick_split. cbv zeta.
  pose proof (consumer_change_frames e s) as Hf.
  pose proof (consumer_change_unpaced e s) as Hp.
  pose proof (generate_frame_paced e
    (state_of (config_change e (state_of (consumer_change d e s))))) as H3.
  cbv zeta in H3.
  destruct (result_of (consumer_change d e s)) as [[] | x]; proj3;
    [| by rewrite Hf, Hp].
  destruct (result_of (config_change e (state_of (consumer_change d e s))))
    as [[] | x]; proj3; [| by rewrite Hf, Hp].
  rewrite frames_sent_app, ticks_paced_app, Hf, Hp. exact H3.
Qed.

(** Over any stretch of the loop, as many frames are written as ticks
    reach their pacing sleep. *)
Lemma frames_match_ticks schedule s :
  let t := trace_of (main_loop d my_pid black_frame schedule s) in
  length (frames_sent t) = ticks_paced t.
Proof.
  cbv zeta.
  pose proof (main_loop_rule
    (fun t _ => length (frames_sent t) = ticks_paced t)
    (fun t _ => length (frames_sent t) = ticks_paced t)) as Hrule.
  cbv zeta in Hrule.
  enough (Hboth :
    match result_of (main_loop d my_pid black_frame schedule s) with
    | Ok _ | Raise _ =>
        length (frames_sent
                  ([] ++ trace_of (main_loop d my_pid black_frame schedule s)))
        = ticks_paced
            ([] ++ trace_of (main_loop d my_pid black_frame schedule s))
    end).
  { by destruct (result_of (main_loop d my_pid black_frame schedule s)). }
  apply Hrule; [| | | done].
  - intros t s' e HP _.
    assert (length (frames_sent (t ++ trace_of (tick d black_frame e s')))
            = ticks_paced (t ++ trace_of (tick d black_frame e s'))) as Hnext.
    { rewrite frames_sent_app, ticks_paced_app, length_app, HP.
      by rewrite (tick_paced e s'). }
    by destruct (result_of (tick d black_frame e s')).
  - intros t s' events HP.
    pose proof (watcher_turn_main events s') as (_ & _ & Hq & _).
    cbv zeta in Hq.
    pose proof (quiet_trace _ Hq) as (Hf & _).
    rewrite frames_sent_app, ticks_paced_app, Hf, (quiet_trace_unpaced _ Hq).
    rewrite app_nil_r, Nat.add_0_r. exact HP.
  - intros t s' HP. rewrite frames_sent_app, ticks_paced_app. simpl.
    rewrite app_nil_r, Nat.add_0_r. exact HP.
Qed.

(** C4.  In a state that is active exactly when it holds an opened
    capture (every state the loop reaches, by C1), with the black frame
    that [run] makes with [np.zeros]: the black frame is all zeros; a tick
    never writes more than one frame; a tick that runs to its end -- after
    which the loop goes on to its next test -- writes exactly one, namely
    the black frame when the daemon is idle after the consumer change, the
    black frame when it is active and the capture read fails, and the frame
    composed from the captured one with the current threshold and blur
    strength when it is active and the read succeeds; and the tick does
    run to its end whenever the consumer change and the configuration
    change raise nothing, the frame due can be computed (which is so for
    the black frame) and the output device accepts it.  Over any stretch
    of the loop, the frames written are as many as the ticks that reached
    their pacing sleep. *)
Theorem one_frame_per_tick e s :
  np_zeros (height d) (width d) = Ok black_frame ->
  active_iff_capturing s ->
  let out := tick d black_frame e s in
  let s' := state_of out in
  Forall (fun x => x = 0) black_frame
  /\ (length (frames_sent (trace_of out)) <= 1)%nat
  /\ (result_of out = Ok tt ->
        exists f, frames_sent (trace_of out) = [f]
          /\ ((blur_active s' = false /\ f = black_frame)
               \/ (blur_active s' = true /\ read_result e = None
                    /\ f = black_frame)
               \/ (blur_active s' = true
                    /\ exists raw, read_result e = Some raw
                         /\ blurred raw (threshold s') (blur_strength s')
                            = Ok f)))
  /\ (result_of (consumer_change d e s) = Ok tt ->
        result_of (config_change e s) = Ok tt ->
        send_ok e = true ->
        blur_active s' = false \/ read_result e = None
        \/ (exists raw f, read_result e = Some raw
              /\ blurred raw (threshold s') (blur_strength s') = Ok f) ->
        result_of out = Ok tt)
  /\ (forall schedule,
        let t := trace_of (main_loop d my_pid black_frame schedule s) in
        length (frames_sent t) = ticks_paced t).
Proof.
  intros Hzeros Hinv out s'. subst out s'. split_and!.
  - by apply (np_zeros_all_zero _ _ _ Hzeros).
  - by apply tick_at_most_one_frame.
  - intros Hok. destruct (tick_frames e s Hinv Hok) as (f & Hdue & Hsent).
    exists f. split; [exact Hsent |].
    unfold frame_due in Hdue.
    destruct (blur_active (state_of (tick d black_frame e s)));
      [| left; split; congruence].
    right. destruct (read_result e) as [raw |].
    + right. split; [done |]. by exists raw.
    + left. split_and!; congruence.
  - intros Hr Hcfg Hsend Hcase.
    pose proof (tick_after_change e s) as (_ & Hb' & _). cbv zeta in Hb'.
    rewrite tick_split in *. cbv zeta in *. rewrite Hr in *.
    pose proof (consumer_change_shared e s)
      as (_ & _ & _ & _ & Hmt & _). cbv zeta in Hmt.
    rewrite (config_change_result e _ s Hmt), Hcfg in *.
    pose proof (consumer_change_invariant e s Hinv Hr) as H1.
    pose proof (config_change_resources e (state_of (consumer_change d e s)))
      as (Hb2 & _ & _ & _ & _ & Hc2 & _). cbv zeta in *.
    assert (Hinv2 : active_iff_capturing
              (state_of (config_change e (state_of (consumer_change d e s))))).
    { unfold active_iff_capturing in *. by rewrite Hb2, Hc2. }
    pose proof (generate_frame_frames e _ Hinv2) as Hgen. cbv zeta in Hgen.
    unfold frame_due in Hgen. rewrite Hsend in Hgen.
    revert Hcase. proj3. intros Hcase.
    destruct Hcase as [Hidle | [Hnone | (raw & f & Hraw & Hf)]].
    + rewrite Hidle in Hgen. by destruct Hgen.
    + rewrite Hnone in Hgen.
      destruct (blur_active _); by destruct Hgen.
    + rewrite Hraw, Hf in Hgen.
      destruct (blur_active _); by destruct Hgen.
  - intros schedule. apply frames_match_ticks.
Qed.

Lemma detach_change e s h :
  consumer_event s = true -> has_consumers s = false ->
  blur_active s = true -> cap s = Some h ->
  consumer_change d e s
  = ([EventClear; Print Stdout MsgNoConsumers; CapRelease (cap_id h)],
     set_cap None (set_blur_active false (set_consumer_event false s)),
     Ok tt).
Proof.
  intros Hev Hcons Hact Hcap. unfold consumer_change, release_webcam. exec.
  rewrite Hev. simpl. rewrite Hcons, Hact. simpl. rewrite Hcap. done.
Qed.

Lemma first_attach_change e s :
  consumer_event s = true -> has_consumers s = true ->
  blur_active s = false -> segmentation s = None -> model_loads e = true ->
  let o := consumer_change d e s in
  models_loaded (trace_of o) = [next_id s]
  /\ segmentation (state_of o) = Some (next_id s).
Proof. change_cases s e; intros; done. Qed.

Lemma model_kept_loop schedule s :
  let out := main_loop d my_pid black_frame schedule s in
  match segmentation s with
  | Some id =>
      models_loaded (trace_of out) = []
      /\ segmentation (state_of out) = Some id
  | None =>
      (models_loaded (trace_of out) = []
       /\ segmentation (state_of out) = None)
      \/ exists id, models_loaded (trace_of out) = [id]
                    /\ segmentation (state_of out) = Some id
  end.
Proof.
  set (P := fun (t : list effect) (s' : state) =>
    match segmentation s with
    | Some id => models_loaded t = [] /\ segmentation s' = Some id
    | None =>
        (models_loaded t = [] /\ segmentation s' = None)
        \/ exists id, models_loaded t = [id] /\ segmentation s' = Some id
    end).
  assert (Hstart : P [] s).
  { unfold P. destruct (segmentation s); [done | by left]. }
  pose proof (main_loop_rule P P) as Hrule.
  cbv zeta in *.
  enough (Hgoal : P ([] ++ trace_of (main_loop d my_pid black_frame schedule s))
                    (state_of (main_loop d my_pid black_frame schedule s))).
  { exact Hgoal. }
  assert (Hboth : forall t s', P t s' ->
            match result_of (main_loop d my_pid black_frame schedule s') with
            | Ok _ | Raise _ =>
                P (t ++ trace_of (main_loop d my_pid black_frame schedule s'))
                  (state_of (main_loop d my_pid black_frame schedule s'))
            end).
  { intros t s' Hp. apply Hrule; [| | | exact Hp]; clear t s' Hp.
    - intros t s' e HP _.
      pose proof (tick_model e s') as Hm. cbv zeta in Hm.
      assert (P (t ++ trace_of (tick d black_frame e s'))
                (state_of (tick d black_frame e s'))) as Hnext.
      { unfold P in *. rewrite models_loaded_app.
        destruct (segmentation s) as [id |].
        - destruct HP as [Ht Hs]. rewrite Hs in Hm.
          destruct Hm as [Hs' Ht']. by rewrite Ht, Ht'.
        - destruct HP as [[Ht Hs] | (id & Ht & Hs)]; rewrite Hs in Hm.
          + destruct Hm as [[Hs' Ht'] | [Hs' Ht']]; rewrite Ht, Ht'.
            * by left.
            * right. eauto.
          + destruct Hm as [Hs' Ht']. rewrite Ht, Ht'. right. eauto. }
      by destruct (result_of (tick d black_frame e s')).
    - intros t s' events HP.
      pose proof (watcher_turn_main events s')
        as (_ & Hm & Hq & _). cbv zeta in Hm, Hq.
      destruct Hm as (_ & _ & Hsg & _).
      apply quiet_trace in Hq as (_ & Hq & _).
      unfold P in *. rewrite models_loaded_app, Hq, app_nil_r, Hsg. done.
    - intros t s' HP. unfold P in *. rewrite models_loaded_app. simpl.
      rewrite app_nil_r. done. }
  specialize (Hboth [] s Hstart).
  by destruct (result_of (main_loop d my_pid black_frame schedule s)).
Qed.

(** C5.  (1) A tick that sees the signal set with no consumers while the
    daemon is active releases the capture it holds, in that tick and as
    its only release, leaves the capture variable null and the daemon
    idle, and neither loads a model nor changes the segmentation handle.
    (2) A tick that sees the signal set with consumers while the daemon is
    idle and has no model loads one.  (3) Over any stretch of the loop, a
    model that is there is kept and none is loaded; when there is none, at
    most one is loaded, and it is then the one kept. *)
Theorem detach_releases_capture_keeps_model e s h schedule :
  (consumer_event s = true -> has_consumers s = false ->
   blur_active s = true -> cap s = Some h ->
   let out := tick d black_frame e s in
   CapRelease (cap_id h) ∈ trace_of out
   /\ captures_released (trace_of out) = [cap_id h]
   /\ cap (state_of out) = None
   /\ blur_active (state_of out) = false
   /\ segmentation (state_of out) = segmentation s
   /\ models_loaded (trace_of out) = [])
  /\ (consumer_event s = true -> has_consumers s = true ->
      blur_active s = false -> segmentation s = None ->
      model_loads e = true ->
      let out := tick d black_frame e s in
      models_loaded (trace_of out) = [next_id s]
      /\ segmentation (state_of out) = Some (next_id s))
  /\ (let out := main_loop d my_pid black_frame schedule s in
      match segmentation s with
      | Some id =>
          models_loaded (trace_of out) = []
          /\ segmentation (state_of out) = Some id
      | None =>
          (models_loaded (trace_of out) = []
           /\ segmentation (state_of out) = None)
          \/ exists id, models_loaded (trace_of out) = [id]
                        /\ segmentation (state_of out) = Some id
      end).
Proof.
  split_and!.
  - intros Hev Hcons Hact Hcap.
    pose proof (tick_after_change e s)
      as ((t3 & Htrace & _ & Hm3 & Hr3) & Hb & Hc & Hs & _).
    cbv zeta in *. rewrite Htrace, Hb, Hc, Hs.
    rewrite (detach_change e s h Hev Hcons Hact Hcap). proj3.
    rewrite captures_released_app, models_loaded_app, Hm3, Hr3.
    split_and!; try done. apply elem_of_app. left. in_trace.
  - intros Hev Hcons Hidle Hseg Hload.
    pose proof (tick_after_change e s)
      as ((t3 & Htrace & _ & Hm3 & _) & _ & _ & Hs & _).
    pose proof (first_attach_change e s Hev Hcons Hidle Hseg Hload)
      as [Hm Hs1].
    cbv zeta in *. rewrite Htrace, Hs, models_loaded_app, Hm3, Hm, Hs1. done.
  - apply model_kept_loop.
Qed.

(** C9.  The configuration change of a tick has no effect on the outside
    world and leaves the capture variable, the segmentation handle, the
    active flag and the object counter as they were; when the file is newer
    and the change raises nothing, the blur strength becomes the file's
    (or the default) blur made odd and the threshold the file's (or the
    default) threshold.  And whatever configuration file a tick finds, the
    captures it constructs and releases, the models it loads, and the
    capture and segmentation handles it ends with are the same. *)
Theorem config_change_keeps_handles e s f' :
  (let out := config_change e s in
   trace_of out = []
   /\ cap (state_of out) = cap s
   /\ segmentation (state_of out) = segmentation s
   /\ blur_active (state_of out) = blur_active s
   /\ next_id (state_of out) = next_id s
   /\ (result_of out = Ok tt ->
       forall new_mtime, get_config_mtime (cfg_file e) = Ok new_mtime ->
       (config_mtime s < new_mtime)%Qc ->
       exists cfg blur th,
         load_config (cfg_file e) = Ok cfg
         /\ cfg !! "blur" = Some blur /\ cfg !! "threshold" = Some th
         /\ make_odd blur = Ok (blur_strength (state_of out))
         /\ threshold (state_of out) = th))
  /\ (let out := tick d black_frame e s in
      let out' := tick d black_frame (with_cfg_file f' e) s in
      cap (state_of out') = cap (state_of out)
      /\ segmentation (state_of out') = segmentation (state_of out)
      /\ captures_tried (trace_of out') = captures_tried (trace_of out)
      /\ captures_released (trace_of out') = captures_released (trace_of out)
      /\ models_loaded (trace_of out') = models_loaded (trace_of out)).
Proof.
  split.
  - pose proof (config_change_trace e s) as Ht.
    pose proof (config_change_resources e s)
      as (Hb & _ & _ & _ & Hsg & Hc & Hn & _).
    pose proof (config_change_values e s) as Hv.
    cbv zeta in *. split_and!; try done.
    intros Hok new_mtime Hmt Hnewer.
    destruct (Hv Hok) as (new_mtime' & Hmt' & Hv').
    assert (new_mtime' = new_mtime) as -> by congruence.
    clear Hv. rename Hv' into Hv.
    rewrite bool_decide_eq_true_2 in Hv by done.
    destruct Hv as (cfg & blur & odd & th & Hl & Hblur & Hodd & Hth
                    & _ & _ & Hbs & Hths).
    exists cfg, blur, th. unfold getitem in *.
    destruct (cfg !! "blur"); [| done].
    destruct (cfg !! "threshold"); [| done].
    split_and!; congruence.
  - pose proof (tick_after_change e s)
      as ((t3 & Htrace & Hc3 & Hm3 & Hr3) & _ & Hc & Hs & _).
    pose proof (tick_after_change (with_cfg_file f' e) s)
      as ((t3' & Htrace' & Hc3' & Hm3' & Hr3') & _ & Hc' & Hs' & _).
    assert (Hsame : consumer_change d (with_cfg_file f' e) s
                    = consumer_change d e s) by reflexivity.
    cbv zeta in *. rewrite Hsame in *.
    rewrite Htrace, Htrace', Hc, Hc', Hs, Hs'.
    rewrite !captures_tried_app, !captures_released_app, !models_loaded_app.
    rewrite Hc3, Hc3', Hm3, Hm3', Hr3, Hr3'. done.
Qed.

Lemma generate_frame_idle e s :
  blur_active s = false ->
  generate_frame black_frame e s =
  if send_ok e then ([Send black_frame; SleepUntilNextFrame], s, Ok tt)
  else ([], s, Raise ValueError).
Proof.
  intros Hidle. unfold generate_frame, vcam_send. exec. rewrite Hidle.
  destruct (cap s) as [[id op] |], (send_ok e); done.
Qed.



(** Once the stop flag is set, the loop body does not run again. *)
Lemma main_loop_after_stop schedule s :
  stop_event s = true ->
  let out := main_loop d my_pid black_frame schedule s in
  (exists x, result_of out = Ok x)
  /\ same_main s (state_of out)
  /\ stop_event (state_of out) = true
  /\ forallb quiet_effect (trace_of out) = true.
Proof.
  revert s. induction schedule as [| ev rest IH]; intros s Hstop; cbv zeta.
  - cbn [main_loop]. unfold ret. proj3.
    split_and!; [eauto | apply same_main_refl | done | done].
  - cbn [main_loop]. destruct ev as [e | events |]; rewrite bind_split.
    + unfold gets. proj3. rewrite Hstop. unfold ret. proj3.
      split_and!; [eauto | apply same_main_refl | done | done].
    + pose proof (watcher_turn_main events s)
        as (Hr & Hm & Hq & Hs & _). cbv zeta in Hr, Hm, Hq, Hs.
      rewrite Hr. proj3.
      destruct (IH (state_of (watcher_turn d my_pid events s)))
        as (Hx & Hm' & Hs' & Hq'); [congruence |].
      cbv zeta in Hx, Hm', Hs', Hq'.
      split_and!; [exact Hx | | exact Hs' |].
      * eapply same_main_trans; [exact Hm | exact Hm'].
      * rewrite quiet_app, Hq, Hq'. done.
    + rewrite signal_handler_main. proj3.
      destruct (IH (set_stop_event true s)) as (Hx & Hm' & Hs' & Hq');
        [done |].
      cbv zeta in Hx, Hm', Hs', Hq'.
      split_and!; [exact Hx | | exact Hs' | exact Hq'].
      eapply same_main_trans; [| exact Hm']. unfold same_main. done.
Qed.


(** The captures open after the loop are those its last state holds. *)
Lemma handles_loop schedule t s :
  open_after [] t = held s ->
  let out := main_loop d my_pid black_frame schedule s in
  open_after [] (t ++ trace_of out) = held (state_of out).
Proof.
  intros Hstart. cbv zeta.
  pose proof (main_loop_rule
    (fun t s => open_after [] t = held s)
    (fun t s => open_after [] t = held s)) as Hrule.
  cbv zeta in Hrule.
  enough (Hboth :
    match result_of (main_loop d my_pid black_frame schedule s) with
    | Ok _ | Raise _ =>
        open_after [] (t ++ trace_of (main_loop d my_pid black_frame schedule s))
        = held (state_of (main_loop d my_pid black_frame schedule s))
    end).
  { by destruct (result_of (main_loop d my_pid black_frame schedule s)). }
  apply Hrule; [| | | exact Hstart]; clear t s Hstart.
  - intros t s e HP _.
    assert (open_after [] (t ++ trace_of (tick d black_frame e s))
            = held (state_of (tick d black_frame e s))) as Hnext.
    { rewrite open_after_app, HP. apply tick_handles. }
    by destruct (result_of (tick d black_frame e s)).
  - intros t s events HP.
    pose proof (watcher_turn_main events s) as (_ & Hm & Hq & _).
    cbv zeta in Hm, Hq. destruct Hm as (_ & _ & _ & Hc & _).
    apply quiet_trace in Hq as (_ & _ & _ & _ & Hq).
    rewrite open_after_app, Hq, HP. unfold held. by rewrite Hc.
  - intros t s HP. rewrite open_after_app, HP. done.
Qed.

(** The loop leaves through its test only when the stop flag is set. *)
Lemma main_loop_stopped schedule s :
  result_of (main_loop d my_pid black_frame schedule s) = Ok Stopped ->
  stop_event (state_of (main_loop d my_pid black_frame schedule s)) = true.
Proof.
  revert s. induction schedule as [| ev rest IH]; intros s; simpl.
  - unfold ret. proj3. done.
  - destruct ev as [e | events |]; rewrite bind_split.
    + unfold gets. proj3. destruct (stop_event s) eqn:Hstop.
      { unfold ret. proj3. done. }
      rewrite bind_split.
      destruct (result_of (tick d black_frame e s)) as [[] | x]; proj3;
        [apply IH | done].
    + pose proof (watcher_turn_main events s) as (Hr & _).
      cbv zeta in Hr. rewrite Hr. proj3. apply IH.
    + rewrite signal_handler_main. proj3. apply IH.
Qed.

(** Once the stop flag is set, the next loop test ends the loop. *)
Lemma main_loop_exits schedule s :
  stop_event s = true -> (exists e, Tick e ∈ schedule) ->
  result_of (main_loop d my_pid black_frame schedule s) = Ok Stopped.
Proof.
  revert s. induction schedule as [| ev rest IH]; intros s Hstop [e He].
  - by apply elem_of_nil in He.
  - simpl. destruct ev as [e' | events |]; rewrite bind_split.
    + unfold gets. proj3. rewrite Hstop. unfold ret. proj3. done.
    + pose proof (watcher_turn_main events s) as (Hr & _ & _ & Hs & _).
      cbv zeta in Hr, Hs. rewrite Hr. proj3. apply IH.
      * congruence.
      * apply elem_of_cons in He as [Heq | Hin]; [done | eauto].
    + rewrite signal_handler_main. proj3. apply IH; [done |].
      apply elem_of_cons in He as [Heq | Hin]; [done | eauto].
Qed.

(** A termination request followed by a loop test ends the loop, unless an
    exception has ended it before. *)
Lemma main_loop_ends_after_signal before after s :
  (exists e, Tick e ∈ after) ->
  result_of (main_loop d my_pid black_frame (before ++ Signal :: after) s)
  <> Ok Running.
Proof.
  intros Htick. revert s.
  induction before as [| ev rest IH]; intros s; simpl.
  - rewrite bind_split, signal_handler_main. proj3.
    rewrite main_loop_exits; [done | done | exact Htick].
  - destruct ev as [e | events |]; rewrite bind_split.
    + unfold gets. proj3. destruct (stop_event s).
      { unfold ret. proj3. done. }
      rewrite bind_split.
      destruct (result_of (tick d black_frame e s)) as [[] | x]; proj3;
        [apply IH | done].
    + pose proof (watcher_turn_main events s) as (Hr & _).
      cbv zeta in Hr. rewrite Hr. proj3. apply IH.
    + rewrite signal_handler_main. proj3. apply IH.
Qed.

End LoopFacts.

(** ** daemon.py: [run] as a whole *)

Section RunFacts.
Context {V : Vision}.

Ltac exec :=
  cbv [bind ret raise emit gets modify lift when fresh
       trace_of state_of result_of]; simpl.

Lemma init_state dev input f d s :
  init dev input f = Ok (d, s) ->
  device d = dev /\ blur_active s = false /\ has_consumers s = false
  /\ consumer_event s = false /\ stop_event s = false
  /\ watching s = false /\ cap s = None /\ segmentation s = None.
Proof.
  unfold init. destruct (load_config f) as [cfg |]; simpl; [| done].
  destruct (getitem cfg "width"); simpl; [| done].
  destruct (getitem cfg "height"); simpl; [| done].
  destruct (getitem cfg "fps"); simpl; [| done].
  intros [= <- <-]. done.
Qed.

(** What the lines before the [try] block leave behind. *)
Lemma startup_facts d r s :
  let out := startup d r s in
  cap (state_of out) = None /\ segmentation (state_of out) = None
  /\ blur_active (state_of out) = blur_active s
  /\ has_consumers (state_of out) = has_consumers s
  /\ consumer_event (state_of out) = consumer_event s
  /\ stop_event (state_of out) = stop_event s
  /\ watching (state_of out) = (watch_ok r || watching s)
  /\ forallb quiet_effect (trace_of out) = true
  /\ (watch_ok r = false ->
      Print Stderr (MsgCouldNotWatch (device d)) ∈ trace_of out)
  /\ (forall black_frame, result_of out = Ok black_frame ->
      np_zeros (height d) (width d) = Ok black_frame)
  /\ ticks_paced (trace_of out) = 0%nat.
Proof.
  unfold startup, watcher_start. exec.
  destruct (watch_ok r); simpl.
  all: destruct (np_zeros (height d) (width d)) as [bf | x]; simpl.
  all: try (split_and!; try done; set_solver).
  all: destruct (get_config_mtime (start_cfg_file r)) as [mtime | x]; simpl.
  all: try (split_and!; try done; set_solver).
  all: destruct (getitem (config s) "blur") as [blur | x]; simpl.
  all: try (split_and!; try done; set_solver).
  all: destruct (make_odd blur) as [odd | x]; simpl.
  all: try (split_and!; try done; set_solver).
  all: destruct (getitem (config s) "threshold") as [th | x]; simpl.
  all: split_and!; try done; try set_solver.
  all: intros ? [= <-]; done.
Qed.

Lemma with_camera_eq d my_pid r black_frame schedule s :
  with_camera d my_pid r black_frame schedule s =
  if vcam_ok r then
    let out := main_loop d my_pid black_frame schedule s in
    match result_of out with
    | Ok Running => (vcam_banner ++ trace_of out, state_of out, Ok Running)
    | Ok Stopped =>
        (vcam_banner ++ trace_of out ++ [VcamClose], state_of out, Ok Stopped)
    | Raise x =>
        (vcam_banner ++ trace_of out ++ [VcamClose], state_of out, Raise x)
    end
  else ([], s, Raise RuntimeError).
Proof.
  unfold with_camera. destruct (vcam_ok r); [| done]. exec.
  destruct (main_loop d my_pid black_frame schedule s) as [[t s'] [[] | x]];
    done.
Qed.

Lemma run_eq d my_pid r schedule s :
  run d my_pid r schedule s =
  if negb (device_exists r) then
    (banner d ++ [ Print Stderr (MsgDeviceNotFound (device d));
                   Print Stderr MsgRunSetup ], s, Returned 1)
  else
    let o := startup d r s in
    match result_of o with
    | Raise x => (banner d ++ trace_of o, state_of o, Uncaught x)
    | Ok black_frame =>
        if vcam_ok r then
          let l := main_loop d my_pid black_frame schedule (state_of o) in
          let pre := banner d ++ trace_of o ++ vcam_banner in
          match result_of l with
          | Ok Running => (pre ++ trace_of l, state_of l, InLoop)
          | Ok Stopped =>
              (pre ++ trace_of l ++ [VcamClose]
                 ++ finally_release (state_of l), state_of l, Returned 0)
          | Raise x =>
              (pre ++ trace_of l ++ [VcamClose; Print Stderr (MsgError x)]
                 ++ finally_release (state_of l), state_of l, Returned 1)
          end
        else
          (banner d ++ trace_of o ++ [Print Stderr (MsgError RuntimeError)]
             ++ finally_release (state_of o), state_of o, Returned 1)
    end.
Proof.
  unfold run. destruct (device_exists r); simpl; [| done].
  destruct (startup d r s) as [[t1 s1] [bf | x]]; [| done].
  rewrite with_camera_eq. unfold trace_of, state_of, result_of. cbn [fst snd].
  destruct (vcam_ok r); [| done].
  destruct (main_loop d my_pid bf schedule s1) as [[t2 s2] [[] | x]];
    cbn [fst snd]; cbn zeta; rewrite <- ?app_assoc; simpl;
    rewrite <- ?app_assoc; done.
Qed.

Lemma capture_invariant_loop d my_pid black_frame schedule t s :
  capture_invariant t s ->
  let out := main_loop d my_pid black_frame schedule s in
  match result_of out with
  | Ok _ => capture_invariant (t ++ trace_of out) (state_of out)
  | Raise _ => True
  end.
Proof.
  apply (main_loop_rule d my_pid black_frame capture_invariant
           (fun _ _ => True)); clear t s.
  - intros t s e [Hinv Hlast] _. simpl.
    pose proof (tick_invariant d black_frame e s Hinv) as H1.
    pose proof (tick_capture d black_frame e s) as H2. simpl in H2.
    destruct (result_of (tick d black_frame e s)) as [[] | x]; [| done].
    split; [by apply H1 |].
    intros h Hh. rewrite captures_tried_app.
    destruct H2 as [[Hnil [Hsame | Hnone]] | (id & Hone & Hcap)].
    + rewrite Hnil, app_nil_r. apply Hlast. congruence.
    + congruence.
    + rewrite Hone, last_snoc. rewrite Hcap in Hh. by injection Hh as <-.
  - intros t s events [Hinv Hlast]. simpl.
    pose proof (watcher_turn_main d my_pid events s)
      as (_ & Hm & Hq & _). simpl in Hm, Hq.
    destruct Hm as (Hb & _ & _ & Hc & _).
    apply quiet_trace in Hq as (_ & _ & Hq & _).
    split.
    + unfold active_iff_capturing in *. congruence.
    + intros h Hh. rewrite captures_tried_app, Hq, app_nil_r.
      apply Hlast. congruence.
  - intros t s [Hinv Hlast]. split; [exact Hinv |].
    intros h Hh. rewrite captures_tried_app. simpl. rewrite app_nil_r.
    by apply Hlast.
Qed.

(** C1 (as amended).  Whenever the main loop is at its test, the daemon is
    active if and only if the capture variable holds a capture that is
    open; and a capture held in the variable is the one the most recent
    construction returned, opened or not.  So an active daemon holds the
    capture its last open attempt succeeded with, and an idle one holds
    either nothing or the unopened capture its last attempt failed with. *)
Theorem capture_matches_state my_pid input output f r schedule t s :
  run_daemon my_pid input output f r schedule = (t, Some s, InLoop) ->
  (blur_active s = true <->
     exists h, cap s = Some h /\ is_opened h = true)
  /\ (forall h, cap s = Some h ->
        last (captures_tried t) = Some (cap_id h, is_opened h))
  /\ (blur_active s = false ->
        cap s = None
        \/ exists h, cap s = Some h /\ is_opened h = false
                     /\ last (captures_tried t) = Some (cap_id h, false)).
Proof.
  unfold run_daemon.
  destruct (init output input f) as [[d s0] |] eqn:Hinit; [| done].
  apply init_state in Hinit as (_ & Hb0 & _ & _ & _ & _ & _ & _).
  rewrite run_eq. destruct (device_exists r); cbn [negb]; [| done].
  pose proof (startup_facts d r s0)
    as (Hcap & _ & Hb & _ & _ & _ & _ & Hq & _). cbv zeta in *.
  destruct (result_of (startup d r s0)) as [bf | x]; [| done].
  destruct (vcam_ok r); [| done].
  pose proof (capture_invariant_loop d my_pid bf schedule
    (banner d ++ trace_of (startup d r s0) ++ vcam_banner)
    (state_of (startup d r s0))) as Hloop. cbv zeta in Hloop.
  destruct (result_of (main_loop d my_pid bf schedule
              (state_of (startup d r s0)))) as [[] | x]; try done.
  intros [= <- <-].
  destruct Hloop as [Hinv Hlast].
  { split.
    - unfold active_iff_capturing. rewrite Hb, Hb0, Hcap. done.
    - intros h Hh. congruence. }
  unfold active_iff_capturing, cap_usable in Hinv.
  set (s' := state_of (main_loop d my_pid bf schedule
                         (state_of (startup d r s0)))) in *.
  destruct (cap s') as [h |] eqn:Hh; rewrite Hinv.
  - split_and!.
    + split; [intros Ho; by exists h | by intros (h' & [= <-] & Ho)].
    + intros h' [= <-]. by apply Hlast.
    + intros Hidle. right. exists h. split_and!; [done | done |].
      pose proof (Hlast h eq_refl) as Hl. rewrite Hidle in Hl. exact Hl.
  - split_and!.
    + split; [done | by intros (h' & Hh' & _)].
    + done.
    + by left.
Qed.



Lemma run_result_inj (t t' : list effect) (s s' : state) (out out' : run_result) :
  (t, Some s, out) = (t', Some s', out') -> t = t' /\ s = s' /\ out = out'.
Proof. by intros [= -> -> ->]. Qed.




(** C8.  When [run] returns, every capture it opened has been released;
    the capture variable, if it is not null, was released as the last thing
    before returning; the status is 0 or 1, and 0 only when the loop left
    through its test with the stop flag set; and an exception that leaves
    the main loop is logged and gives status 1, not 0. *)
Theorem capture_released_on_exit my_pid input output f r schedule t s status :
  run_daemon my_pid input output f r schedule = (t, Some s, Returned status) ->
  open_after [] t = []
  /\ (forall h, cap s = Some h -> last t = Some (CapRelease (cap_id h)))
  /\ (status = 0 \/ status = 1)
  /\ (status = 0 -> stop_event s = true)
  /\ (forall d s0 black_frame x,
        init output input f = Ok (d, s0) ->
        device_exists r = true -> vcam_ok r = true ->
        result_of (startup d r s0) = Ok black_frame ->
        result_of (main_loop d my_pid black_frame schedule
                     (state_of (startup d r s0))) = Raise x ->
        status = 1 /\ Print Stderr (MsgError x) ∈ t).
Proof.
  unfold run_daemon.
  destruct (init output input f) as [[d s0] |] eqn:Hinit; [| done].
  pose proof (init_state _ _ _ _ _ Hinit) as (_ & _ & _ & _ & _ & _ & Hc0 & _).
  rewrite run_eq.
  pose proof (startup_facts d r s0)
    as (Hcap & _ & _ & _ & _ & _ & _ & Hq & _). cbv zeta in *.
  pose proof (quiet_trace _ Hq) as (_ & _ & _ & _ & Hopen).
  assert (Hrel : forall s', open_after (held s') (finally_release s') = []
                   /\ forall h, cap s' = Some h ->
                        finally_release s' = [CapRelease (cap_id h)]).
  { intros s'. unfold held, finally_release.
    destruct (cap s') as [[id [|]] |]; simpl; split; try done.
    - rewrite filter_cons. by case_decide.
    - by intros h [= <-].
    - by intros h [= <-]. }
  destruct (device_exists r) eqn:Hdev; cbn [negb].
  2: { intros (<- & <- & [= <-])%run_result_inj.
       split_and!; try done; [congruence | by right]. }
  destruct (result_of (startup d r s0)) as [bf | x] eqn:Hres;
    [| by intros (_ & _ & ?)%run_result_inj].
  destruct (vcam_ok r) eqn:Hvcam.
  - pose proof (handles_loop d my_pid bf schedule
      (banner d ++ trace_of (startup d r s0) ++ vcam_banner)
      (state_of (startup d r s0))) as Hloop. cbv zeta in Hloop.
    pose proof (main_loop_stopped d my_pid bf schedule
                  (state_of (startup d r s0))) as Hstop.
    set (l := main_loop d my_pid bf schedule (state_of (startup d r s0))) in *.
    set (pre := banner d ++ trace_of (startup d r s0) ++ vcam_banner) in *.
    assert (Hheld : open_after [] (pre ++ trace_of l) = held (state_of l)).
    { apply Hloop. unfold pre. rewrite !open_after_app. simpl.
      rewrite !Hopen. unfold held. by rewrite Hcap. }
    destruct (Hrel (state_of l)) as [Hnone Hlast].
    destruct (result_of l) as [[] | x] eqn:Hl;
      [| by intros (_ & _ & ?)%run_result_inj |].
    + intros (<- & <- & [= <-])%run_result_inj. split_and!.
      * rewrite app_assoc, open_after_app, Hheld. simpl. exact Hnone.
      * intros h Hh. rewrite (Hlast h Hh), !app_assoc. apply last_snoc.
      * by left.
      * intros _. by apply Hstop.
      * intros d' s0' bf' x [= <- <-] _ _ Hres'.
        rewrite Hres in Hres'. injection Hres' as <-. fold l.
        rewrite Hl. done.
    + intros (<- & <- & [= <-])%run_result_inj. split_and!.
      * rewrite app_assoc, open_after_app, Hheld. simpl. exact Hnone.
      * intros h Hh. rewrite (Hlast h Hh), !app_assoc. apply last_snoc.
      * by right.
      * done.
      * intros d' s0' bf' x' [= <- <-] _ _ Hres'.
        rewrite Hres in Hres'. injection Hres' as <-. fold l. rewrite Hl.
        intros [= <-]. split; [done |].
        rewrite !elem_of_app. right. right. left.
        apply list_elem_of_further, list_elem_of_here.
  - intros (<- & <- & [= <-])%run_result_inj.
    unfold finally_release. rewrite Hcap.
    split_and!.
    + rewrite !open_after_app. simpl. by rewrite Hopen.
    + intros h Hh. congruence.
    + by right.
    + done.
    + done.
Qed.

(** X22.  A termination request ends [run]: once a signal has been
    handled, the next loop test finds the stop flag set and [run] returns,
    whatever happened before the signal and whatever happens after that
    loop test. *)
Lemma run_returns_after_signal d my_pid r before after s :
  (exists e, Tick e ∈ after) ->
  (run d my_pid r (before ++ Signal :: after) s).2 <> InLoop.
Proof.
  intros Htick. rewrite run_eq. destruct (device_exists r); [| done].
  cbn [negb]. cbv zeta.
  destruct (result_of (startup d r s)) as [bf | x]; [| done].
  destruct (vcam_ok r); [| done].
  pose proof (main_loop_ends_after_signal d my_pid bf before after
                (state_of (startup d r s)) Htick) as Hend.
  destruct (result_of (main_loop d my_pid bf (before ++ Signal :: after)
              (state_of (startup d r s)))) as [[] | x]; done.
Qed.

End RunFacts.

(** C1, as it is written, fails: after an attach whose open attempt fails
    the daemon is idle and the capture variable is not null. *)
Lemma handle_kept_after_failed_open :
  exists t s,
    run_daemon Sample.pid0 (JInt 0) "/dev/video10" Sample.small_cfg Sample.env0
      [Notify [Sample.opened_by_two]; Tick Sample.no_webcam]
    = (t, Some s, InLoop)
    /\ blur_active s = false
    /\ cap s = Some {| cap_id := 1; is_opened := false |}
    /\ ~ handle_iff_active s.
Proof.
  eexists _, _. split; [vm_compute; reflexivity |].
  split; [reflexivity |]. split; [reflexivity |].
  unfold handle_iff_active. simpl. intros [Hact _].
  discriminate Hact. eauto.
Qed.

(** The invariant at work: after an attach whose open attempt succeeds. *)
Lemma capture_matches_state_witness :
  exists t s,
    run_daemon Sample.pid0 (JInt 0) "/dev/video10" Sample.small_cfg Sample.env0
      [Notify [Sample.opened_by_two]; Tick Sample.calm]
    = (t, Some s, InLoop)
    /\ (blur_active s = true <->
          exists h, cap s = Some h /\ is_opened h = true)
    /\ (forall h, cap s = Some h ->
          last (captures_tried t) = Some (cap_id h, is_opened h))
    /\ (blur_active s = false ->
          cap s = None
          \/ exists h, cap s = Some h /\ is_opened h = false
                       /\ last (captures_tried t) = Some (cap_id h, false)).
Proof.
  eexists _, _. split; [vm_compute; reflexivity |].
  apply (capture_matches_state (V := Sample.vision) Sample.pid0 (JInt 0)
           "/dev/video10" Sample.small_cfg Sample.env0
           [Notify [Sample.opened_by_two]; Tick Sample.calm]).
  vm_compute. reflexivity.
Defined.

(** ** The theorems at concrete inputs *)

Section Examples.
Import Sample.

Lemma load_config_complete_example :
  anticipated small_cfg
  /\ exists cfg,
       load_config small_cfg = Ok cfg
       /\ (forall k, k ∈ DEFAULT_KEYS -> is_Some (cfg !! k))
       /\ (forall k v, file_value small_cfg k = Some v -> cfg !! k = Some v)
       /\ (forall k, file_value small_cfg k = None ->
             cfg !! k = DEFAULT_CONFIG !! k)
       /\ (forall dev input, exists d s,
             init dev input small_cfg = Ok (d, s) /\ config s = cfg).
Proof.
  split; [exact I |]. apply (load_config_complete small_cfg). exact I.
Defined.

Lemma consumer_count_witness :
  get_consumer_count pid0 "/dev/video10" two_consumers = 2
  /\ exists consumers : gset Z,
       (forall pid, pid ∈ consumers <->
          pid ∈ running_pids ["1"; "100"; "200"; "300"; "self"]
          /\ pid <> pid0 /\ holds two_consumers "/dev/video10" pid)
       /\ get_consumer_count pid0 "/dev/video10" two_consumers
          = Z.of_nat (size consumers)
       /\ 0 <= get_consumer_count pid0 "/dev/video10" two_consumers.
Proof.
  split; [reflexivity |].
  apply (consumer_count_is_number_of_holders pid0 "/dev/video10"
           two_consumers ["1"; "100"; "200"; "300"; "self"]).
  - reflexivity.
  - apply (bool_decide_unpack _). vm_compute. exact I.
Defined.

Lemma failed_open_stays_idle_witness :
  let out := tick d0 black0 no_webcam attached0 in
  consumer_event attached0 = true /\ has_consumers attached0 = true
  /\ blur_active attached0 = false /\ open_ok no_webcam = false
  /\ Print Stderr MsgCouldNotOpenWebcam ∈ trace_of out
  /\ blur_active (state_of out) = false
  /\ result_of out = Ok tt
  /\ frames_sent (trace_of out) = [black0].
Proof.
  pose proof (failed_open_stays_idle (V := vision) d0 black0 no_webcam
                attached0 eq_refl eq_refl eq_refl eq_refl
                (fun _ => eq_refl) eq_refl)
    as (Hlog & Hidle & _ & _ & _ & Hframes & Hok & _).
  cbv zeta in *.
  assert (Hres : result_of (tick d0 black0 no_webcam attached0) = Ok tt).
  { apply Hok; reflexivity. }
  split_and!;
    [ reflexivity | reflexivity | reflexivity | reflexivity
    | exact Hlog | exact Hidle | exact Hres | exact (Hframes Hres) ].
Defined.

Lemma one_frame_per_tick_witness :
  let out := tick d0 black0 calm active0 in
  np_zeros (height d0) (width d0) = Ok black0
  /\ active_iff_capturing active0
  /\ Forall (fun x => x = 0) black0
  /\ (length (frames_sent (trace_of out)) <= 1)%nat
  /\ exists f, frames_sent (trace_of out) = [f]
       /\ ((blur_active (state_of out) = false /\ f = black0)
            \/ (blur_active (state_of out) = true /\ read_result calm = None
                 /\ f = black0)
            \/ (blur_active (state_of out) = true
                 /\ exists raw, read_result calm = Some raw
                      /\ blurred raw (threshold (state_of out))
                           (blur_strength (state_of out)) = Ok f)).
Proof.
  pose proof (one_frame_per_tick (V := vision) d0 pid0 black0 calm active0
                eq_refl eq_refl) as (Hzero & Hmost & Hone & _).
  cbv zeta in *.
  split_and!; [reflexivity | reflexivity | exact Hzero | exact Hmost |].
  apply Hone. reflexivity.
Defined.

Lemma detach_releases_capture_witness :
  let out := tick d0 black0 calm detaching0 in
  consumer_event detaching0 = true /\ has_consumers detaching0 = false
  /\ blur_active detaching0 = true
  /\ captures_released (trace_of out) = [1%nat]
  /\ cap (state_of out) = None
  /\ segmentation (state_of out) = Some 0%nat
  /\ models_loaded (trace_of (main_loop d0 pid0 black0 attach_twice
                                detaching0)) = [].
Proof.
  pose proof (detach_releases_capture_keeps_model (V := vision) d0 pid0
                black0 calm detaching0 {| cap_id := 1; is_opened := true |}
                attach_twice) as (Hdetach & _ & Hloop).
  destruct (Hdetach eq_refl eq_refl eq_refl eq_refl)
    as (_ & Hrel & Hcap & _ & Hseg & _).
  cbv zeta in *.
  split_and!;
    [ reflexivity | reflexivity | reflexivity
    | exact Hrel | exact Hcap | exact Hseg | exact (proj1 Hloop) ].
Defined.


Lemma capture_released_on_exit_witness :
  exists t s,
    run_daemon pid0 (JInt 0) "/dev/video10" small_cfg env0 attach_then_stop
    = (t, Some s, Returned 0)
    /\ open_after [] t = []
    /\ cap s = Some {| cap_id := 1; is_opened := true |}
    /\ last t = Some (CapRelease 1)
    /\ stop_event s = true.
Proof.
  eexists _, _. split; [vm_compute; reflexivity |].
  pose proof (capture_released_on_exit (V := vision) pid0 (JInt 0)
                "/dev/video10" small_cfg env0 attach_then_stop _ _ 0
                ltac:(vm_compute; reflexivity))
    as (Hopen & Hlast & _ & Hstop & _).
  split_and!; [exact Hopen | reflexivity | exact (Hlast _ eq_refl) |].
  apply Hstop. reflexivity.
Defined.

Lemma config_change_keeps_handles_witness :
  let newer := with_cfg_file (Readable 2%Qc (Parsed (JObj (list_to_map
                 [("blur", JInt 10); ("threshold", JFloat (Q2Qc (3 # 4)))]))))
                 calm in
  let out := config_change newer active0 in
  get_config_mtime (cfg_file newer) = Ok 2%Qc
  /\ (config_mtime active0 < 2)%Qc
  /\ trace_of out = []
  /\ cap (state_of out) = cap active0
  /\ segmentation (state_of out) = segmentation active0
  /\ blur_strength (state_of out) = JInt 11
  /\ threshold (state_of out) = JFloat (Q2Qc (3 # 4)).
Proof.
  intros newer out.
  pose proof (config_change_keeps_handles (V := vision) d0 black0 newer
                active0 small_cfg) as ((Ht & Hc & Hs & _) & _).
  split_and!; [reflexivity | reflexivity | exact Ht | exact Hc | exact Hs | |];
    reflexivity.
Defined.

Lemma handle_event_signals_witness :
  let out := handle_event d0 pid0 closed_by_all
               (set_has_consumers true s0) in
  signals (trace_of out) = true
  /\ has_consumers (state_of out) = false
  /\ consumer_event (state_of out) = true.
Proof.
  pose proof (handle_event_signals d0 pid0 closed_by_all
                (set_has_consumers true s0)) as (_ & Hsig & Hset & _).
  cbv zeta in *.
  assert (Hs : signals (trace_of (handle_event d0 pid0 closed_by_all
                                    (set_has_consumers true s0))) = true).
  { rewrite Hsig. reflexivity. }
  split; [exact Hs |]. exact (Hset Hs).
Defined.

End Examples.

(** * Further properties: writing the configuration, the [config]
      subcommand, and more of the daemon *)

Import ConfigWrite Cli.

(** ** config.py: [load_config], [save_config], [update_config] *)

Section ConfigWriteFacts.

(** What [load_config] returns for the files it is written for. *)
Lemma load_config_lookup f :
  anticipated f ->
  exists cfg,
    load_config f = Ok cfg
    /\ forall k, cfg !! k = match file_value f k with
                            | Some v => Some v
                            | None => DEFAULT_CONFIG !! k
                            end.
Proof.
  intros Hf. destruct f as [| | mtime | mtime [| v | x]]; simpl in Hf;
    try done.
  - by exists DEFAULT_CONFIG.
  - by exists DEFAULT_CONFIG.
  - by exists DEFAULT_CONFIG.
  - destruct v; try done. exists (m ∪ DEFAULT_CONFIG). split; [done |].
    intros k. simpl. apply merged_lookup.
Qed.

Lemma in_defaults_keys k : in_defaults k = true <-> k ∈ DEFAULT_KEYS.
Proof.
  unfold in_defaults. rewrite bool_decide_eq_true, <- elem_of_dom.
  rewrite default_keys_dom. set_solver.
Qed.

Lemma load_config_has_defaults f cfg :
  load_config f = Ok cfg -> forall k, k ∈ DEFAULT_KEYS -> is_Some (cfg !! k).
Proof.
  intros Hl k Hk. pose proof (default_keys_present k Hk) as Hd.
  destruct f as [| | mtime | mtime [| v | x]];
    try done; try (injection Hl as <-; done).
  - destruct v; try done. injection Hl as <-.
    rewrite merged_lookup. by destruct (m !! k).
  - unfold load_config in Hl. simpl in Hl.
    case_bool_decide; [| done]. by injection Hl as <-.
Qed.

(** A dictionary that has every default key is what merging it over the
    defaults gives. *)
Lemma complete_union (cfg : gmap string json) :
  (forall k, k ∈ DEFAULT_KEYS -> is_Some (cfg !! k)) ->
  cfg ∪ DEFAULT_CONFIG = cfg.
Proof.
  intros Hall. apply (map_eq (M := gmap string)). intros k.
  rewrite merged_lookup. destruct (cfg !! k) as [v |] eqn:Hk; [done |].
  destruct (DEFAULT_CONFIG !! k) as [v |] eqn:Hd; [| done].
  assert (Hin : k ∈ DEFAULT_KEYS).
  { apply in_defaults_keys. unfold in_defaults. rewrite Hd.
    by apply bool_decide_eq_true. }
  destruct (Hall k Hin) as [v' Hv']. congruence.
Qed.

Lemma load_written_complete mtime (cfg : gmap string json) :
  (forall k, k ∈ DEFAULT_KEYS -> is_Some (cfg !! k)) ->
  load_config (Readable mtime (Parsed (JObj cfg))) = Ok cfg.
Proof.
  intros Hall.
  exact (eq_trans
           (eq_refl : load_config (Readable mtime (Parsed (JObj cfg)))
                      = Ok (cfg ∪ DEFAULT_CONFIG))
           (f_equal Ok (complete_union cfg Hall))).
Qed.

(** The file a successful write leaves. *)
Lemma save_config_ok cfg w f :
  writable w = true -> (forall mtime, f <> Unreadable mtime) ->
  save_config cfg w f = (Ok tt, Readable (now w) (Parsed (JObj cfg))).
Proof.
  intros Hw Hf. unfold save_config, writable in *.
  destruct (outcome w); try done.
  destruct f as [| | mtime | mtime text]; try done. by destruct (Hf mtime).
Qed.

(** What the loop over the keyword arguments leaves for each key. *)
Lemma updates_lookup kwargs base k :
  foldl apply_update base kwargs !! k =
  match requested kwargs k with
  | Some v => Some v
  | None => base !! k
  end.
Proof.
  induction kwargs as [| [key value] rest IH] using rev_ind.
  - unfold requested. simpl. by destruct (in_defaults k).
  - rewrite foldl_app. simpl. unfold requested in *.
    rewrite omap_app. simpl. unfold apply_update at 1. simpl.
    destruct (decide (key = k)) as [-> | Hne].
    + rewrite bool_decide_eq_true_2 by done. simpl.
      destruct (is_not_none value) eqn:Hv; simpl.
      * destruct (in_defaults k) eqn:Hd.
        -- rewrite lookup_insert_eq, last_snoc. done.
        -- exact IH.
      * rewrite app_nil_r. exact IH.
    + rewrite bool_decide_eq_false_2 by done. simpl. rewrite app_nil_r.
      destruct (is_not_none value && in_defaults key); [| exact IH].
      rewrite lookup_insert_ne by done. exact IH.
Qed.

Lemma updates_keep_keys kwargs base k :
  is_Some (base !! k) -> is_Some (foldl apply_update base kwargs !! k).
Proof.
  intros Hk. rewrite updates_lookup. by destruct (requested kwargs k).
Qed.

Lemma update_config_ok kwargs w f base :
  load_config f = Ok base -> writable w = true ->
  (forall mtime, f <> Unreadable mtime) ->
  let cfg := foldl apply_update base kwargs in
  update_config kwargs w f = (Ok cfg, Readable (now w) (Parsed (JObj cfg)))
  /\ (forall k, k ∈ DEFAULT_KEYS -> is_Some (cfg !! k))
  /\ load_config (Readable (now w) (Parsed (JObj cfg))) = Ok cfg.
Proof.
  intros Hl Hw Hf cfg.
  assert (Hall : forall k, k ∈ DEFAULT_KEYS -> is_Some (cfg !! k)).
  { intros k Hk. apply updates_keep_keys.
    by apply (load_config_has_defaults f). }
  split; [| split; [exact Hall | by apply load_written_complete]].
  unfold update_config. rewrite Hl. fold cfg.
  by rewrite (save_config_ok cfg w f Hw Hf).
Qed.

(** X2.  [load_config] raises in three cases and in no other: when the
    configuration directory cannot be created (the OSError of
    [get_config_path], which is called outside the [try]); when
    [json.load] returns a value that is not an object (TypeError, from the
    merge with the defaults); and when [json.load] raises anything other
    than JSONDecodeError or OSError, for instance UnicodeDecodeError on
    bytes that do not decode, ValueError on an integer over the digit
    limit, RecursionError on deep nesting (that exception: the handler
    does not catch it). *)
Theorem load_config_raises_exactly f e :
  load_config f = Raise e <->
  (f = Blocked /\ e = OSError)
  \/ (exists mtime v, f = Readable mtime (Parsed v)
                      /\ (forall m, v <> JObj m) /\ e = TypeError)
  \/ (exists mtime, f = Readable mtime (LoadRaises e)
                    /\ e <> JSONDecodeError /\ e <> OSError).
Proof.
  split.
  - destruct f as [| | mtime | mtime [| v | x]]; try done.
    + intros [= <-]. by left.
    + intros Hl. right. left. exists mtime, v. split; [done |].
      destruct v; try done; injection Hl as <-; done.
    + unfold load_config. simpl. case_bool_decide as Hx; [done |].
      intros [= <-]. right. right. exists mtime. split; [done |].
      split; intros ->; apply Hx;
        [apply list_elem_of_here | apply list_elem_of_further, list_elem_of_here].
  - intros [[-> ->] | [(mtime & v & -> & Hv & ->) | (mtime & -> & H1 & H2)]].
    + done.
    + by apply load_config_non_object.
    + unfold load_config. simpl. rewrite bool_decide_eq_false_2; [done |].
      rewrite !elem_of_cons, elem_of_nil. intros [? | [? | []]]; congruence.
Qed.

(** X3.  Saving and loading: after [save_config] has written a
    configuration to a file that was absent or readable, [load_config]
    returns it merged over the defaults, which is the configuration
    itself when it has every default key, and the file's modification
    time, as [get_config_mtime] returns it, is that of the write. *)
Theorem save_then_load cfg w f :
  writable w = true -> (forall mtime, f <> Unreadable mtime) ->
  let out := save_config cfg w f in
  out.1 = Ok tt
  /\ load_config out.2 = Ok (cfg ∪ DEFAULT_CONFIG)
  /\ get_config_mtime out.2 = Ok (now w)
  /\ ((forall k, k ∈ DEFAULT_KEYS -> is_Some (cfg !! k)) ->
      load_config out.2 = Ok cfg).
Proof.
  intros Hw Hf. rewrite (save_config_ok cfg w f Hw Hf). simpl.
  split; [done |]. split; [done |]. split; [done |].
  apply load_written_complete.
Qed.

(** X4.  When the configuration directory is there, the file is absent,
    is rejected by [json.load] with JSONDecodeError or is one from which
    [json.load] returns an object, and the write goes through,
    [update_config] returns a configuration that has every default key,
    in which a key of DEFAULT_CONFIG named by an argument with a value
    other than None carries that value (the last such argument wins), and
    every other key carries what [load_config] gave it: arguments with
    value None and arguments naming a key that is not in DEFAULT_CONFIG
    are ignored.  The file then has the time of the write, and
    [load_config] returns from it the very configuration [update_config]
    returned. *)
Theorem update_config_result kwargs w f :
  anticipated f -> (forall mtime, f <> Unreadable mtime) ->
  writable w = true ->
  exists cfg f',
    update_config kwargs w f = (Ok cfg, f')
    /\ (forall k, k ∈ DEFAULT_KEYS -> is_Some (cfg !! k))
    /\ (forall k, cfg !! k =
          match requested kwargs k with
          | Some v => Some v
          | None => match file_value f k with
                    | Some v => Some v
                    | None => DEFAULT_CONFIG !! k
                    end
          end)
    /\ get_config_mtime f' = Ok (now w)
    /\ load_config f' = Ok cfg.
Proof.
  intros Hf Hr Hw. destruct (load_config_lookup f Hf) as (base & Hl & Hbase).
  destruct (update_config_ok kwargs w f base Hl Hw Hr) as (Hup & Hall & Hre).
  eexists _, _. split; [exact Hup |].
  split; [exact Hall |]. split; [| split; [done | exact Hre]].
  intros k. rewrite updates_lookup, Hbase. done.
Qed.

(** X5.  How [update_config] fails.  When it raises, either nothing has
    been written and the file is as it was (what is raised is then what
    [load_config] raised, or the OSError of [get_config_path] or of
    [open]), or [json.dump] has raised after [open] had emptied the file:
    then the file holds nothing that [json.load] accepts and the next
    [load_config] returns the defaults: the settings the file held are
    lost. *)
Theorem update_config_failure_modes kwargs w f e f' :
  update_config kwargs w f = (Raise e, f') ->
  (f' = f
   /\ (load_config f = Raise e
       \/ ((outcome w = PathFails \/ outcome w = OpenFails) /\ e = OSError)))
  \/ (outcome w = DumpFails e
      /\ (exists base, load_config f = Ok base)
      /\ f' = rewritten f (now w) NotJson
      /\ load_config f' = Ok DEFAULT_CONFIG).
Proof.
  unfold update_config, save_config.
  destruct (load_config f) as [base | x] eqn:Hl; [| intros [= <- <-]; auto].
  destruct (outcome w) as [| | | x]; [done | | |]; intros [= <- <-].
  - left. split; [done |]. right. auto.
  - left. split; [done |]. right. auto.
  - right. split; [done |]. split; [eauto |]. split; [done |].
    destruct f as [| | mtime | mtime text]; done.
Qed.

(** X6.  [update_config] is idempotent: run again with the same
    arguments on the file it has just written, it returns the same
    configuration and writes the same content. *)
Theorem update_config_twice kwargs w w' f cfg f' :
  (forall mtime, f <> Unreadable mtime) -> writable w' = true ->
  update_config kwargs w f = (Ok cfg, f') ->
  update_config kwargs w' f'
  = (Ok cfg, Readable (now w') (Parsed (JObj cfg))).
Proof.
  intros Hr Hw' Hup.
  destruct (load_config f) as [base |] eqn:Hl;
    [| unfold update_config in Hup; by rewrite Hl in Hup].
  destruct (writable w) eqn:Hw;
    [| unfold update_config, save_config, writable in *;
       rewrite Hl in Hup; by destruct (outcome w)].
  destruct (update_config_ok kwargs w f base Hl Hw Hr) as (Hup' & Hall & Hre).
  rewrite Hup' in Hup. injection Hup as <- <-.
  destruct (update_config_ok kwargs w' _ _ Hre Hw') as (Hup2 & _);
    [done |].
  rewrite Hup2.
  assert (Hfix : foldl apply_update (foldl apply_update base kwargs) kwargs
                 = foldl apply_update base kwargs).
  { apply (map_eq (M := gmap string)). intros k.
    rewrite !updates_lookup. by destruct (requested kwargs k). }
  by rewrite Hfix.
Qed.

End ConfigWriteFacts.

(** ** cli.py: [cmd_config] *)

Section CliFacts.

Lemma odd_blur_spec b :
  odd_blur b mod 2 = 1 /\ b <= odd_blur b <= b + 1.
Proof.
  unfold odd_blur. destruct (Z.eqb_spec (b mod 2) 1) as [H1 | H1].
  - split; [done | lia].
  - split; [| lia]. Z.to_euclidean_division_equations. lia.
Qed.

Lemma requested_blur b t :
  requested (updates_of {| arg_blur := Some b; arg_threshold := t |}) "blur"
  = Some (JInt (odd_blur b)).
Proof. by destruct t. Qed.

Lemma requested_other a k :
  k <> "blur" -> k <> "threshold" -> requested (updates_of a) k = None.
Proof.
  intros Hb Ht. unfold requested, updates_of.
  destruct (in_defaults k); [| done].
  destruct (arg_blur a), (arg_threshold a); simpl;
    rewrite ?bool_decide_eq_false_2 by congruence; done.
Qed.

(** What [cmd_config] does when [--blur] is given and the write works. *)
Lemma cmd_config_blur b t w f base :
  load_config f = Ok base -> writable w = true ->
  (forall mtime, f <> Unreadable mtime) ->
  let a := {| arg_blur := Some b; arg_threshold := t |} in
  let cfg := foldl apply_update base (updates_of a) in
  exists th,
    cfg !! "threshold" = Some th
    /\ cfg !! "blur" = Some (JInt (odd_blur b))
    /\ load_config (Readable (now w) (Parsed (JObj cfg))) = Ok cfg
    /\ cmd_config a w f
       = (LSettingsUpdated :: [LBlur (JInt (odd_blur b))]
            ++ (if bool_decide (is_Some t) then [LThreshold th] else [])
            ++ [LBlank; LChangesApply],
          Ok 0, Readable (now w) (Parsed (JObj cfg))).
Proof.
  intros Hl Hw Hr a cfg.
  destruct (update_config_ok (updates_of a) w f base Hl Hw Hr)
    as (Hup & Hall & Hre).
  fold cfg in Hup, Hall, Hre.
  assert (Hblur : cfg !! "blur" = Some (JInt (odd_blur b))).
  { unfold cfg. rewrite updates_lookup. unfold a. by rewrite requested_blur. }
  destruct (Hall "threshold") as [th Hth];
    [unfold DEFAULT_KEYS; set_solver |].
  exists th. split; [exact Hth |]. split; [exact Hblur |].
  split; [exact Hre |].
  unfold cmd_config. rewrite Hup. unfold getitem. simpl.
  rewrite Hblur, Hth. simpl. by destruct t.
Qed.

(** X7.  [blurcam config --blur b], when the configuration directory is
    there, the file is absent, is rejected by [json.load] with
    JSONDecodeError or is one from which [json.load] returns an object,
    and the write goes through, returns 0, prints the stored blur, and
    leaves a file from which [load_config] returns a blur that is odd: [b]
    itself when [b] is odd and [b + 1] when it is even (negative values
    and zero included); the keys other than blur and threshold keep what
    [load_config] gave them before. *)
Theorem cmd_config_stores_odd_blur b t w f :
  anticipated f -> (forall mtime, f <> Unreadable mtime) ->
  writable w = true ->
  exists lines f' cfg0 cfg,
    cmd_config {| arg_blur := Some b; arg_threshold := t |} w f
    = (lines, Ok 0, f')
    /\ LBlur (JInt (odd_blur b)) ∈ lines
    /\ load_config f = Ok cfg0
    /\ load_config f' = Ok cfg
    /\ cfg !! "blur" = Some (JInt (odd_blur b))
    /\ odd_blur b mod 2 = 1 /\ b <= odd_blur b <= b + 1
    /\ (forall k, k <> "blur" -> k <> "threshold" -> cfg !! k = cfg0 !! k).
Proof.
  intros Hf Hr Hw.
  destruct (load_config_lookup f Hf) as (cfg0 & Hl0 & _).
  destruct (cmd_config_blur b t w f cfg0 Hl0 Hw Hr)
    as (th & Hth & Hblur & Hre & Hcmd).
  destruct (odd_blur_spec b) as (Hodd & Hrange).
  eexists _, _, cfg0, _.
  split; [exact Hcmd |].
  split; [apply list_elem_of_further, list_elem_of_here |].
  split; [exact Hl0 |]. split; [exact Hre |]. split; [exact Hblur |].
  split; [exact Hodd |]. split; [exact Hrange |].
  intros k Hkb Hkt. by rewrite updates_lookup, requested_other.
Qed.

(** X8.  [blurcam config] without options never writes: the file is left
    as it is found, whatever it is and whether or not the command raises;
    the command raises exactly what [load_config] raises; and when the
    configuration directory is there and the file is absent, unreadable,
    rejected by [json.load] with JSONDecodeError or one from which
    [json.load] returns an object, it returns 0 after printing the blur
    and the threshold that [load_config] returns. *)
Theorem cmd_config_show_only w f :
  let a := {| arg_blur := None; arg_threshold := None |} in
  (cmd_config a w f).2 = f
  /\ (forall e, (cmd_config a w f).1.2 = Raise e <-> load_config f = Raise e)
  /\ (anticipated f ->
      exists cfg b t,
        load_config f = Ok cfg
        /\ cfg !! "blur" = Some b /\ cfg !! "threshold" = Some t
        /\ (cmd_config a w f).1
           = ([LCurrentSettings; LBlur b; LBlank; LAdjustWith; LExample;
               LBlank; LAdvanced; LThresholdHint t], Ok 0)).
Proof.
  simpl. unfold cmd_config. simpl. split; [| split].
  - destruct (load_config f) as [cfg |]; [| done].
    destruct (getitem cfg "blur"); [| done].
    by destruct (getitem cfg "threshold").
  - intros e. destruct (load_config f) as [cfg | x] eqn:Hl;
      [| simpl; split; intros [= ->]; reflexivity].
    pose proof (load_config_has_defaults f cfg Hl) as Hall.
    destruct (Hall "blur") as [b Hb]; [unfold DEFAULT_KEYS; set_solver |].
    destruct (Hall "threshold") as [t Ht];
      [unfold DEFAULT_KEYS; set_solver |].
    unfold getitem. rewrite Hb, Ht. simpl. split; intros H; discriminate H.
  - intros Hf. destruct (load_config_lookup f Hf) as (cfg & Hl & _).
    pose proof (load_config_has_defaults f cfg Hl) as Hall.
    destruct (Hall "blur") as [b Hb]; [unfold DEFAULT_KEYS; set_solver |].
    destruct (Hall "threshold") as [t Ht];
      [unfold DEFAULT_KEYS; set_solver |].
    exists cfg, b, t. rewrite Hl. unfold getitem. rewrite Hb, Ht. done.
Qed.

Lemma make_odd_of_odd {V : Vision} n :
  n mod 2 = 1 -> make_odd (JInt n) = Ok (JInt n).
Proof.
  intros Hn. unfold make_odd. simpl. rewrite Hn. done.
Qed.

(** X9.  "Changes apply immediately to running instance": after
    [blurcam config --blur b] has written the file at a time later than
    the one the daemon remembers, the configuration check of the daemon's
    next tick raises nothing, takes the odd blur the command stored as its
    blur strength and the threshold the file had before (the default when
    it had none) as its threshold, remembers the time of the write, and
    leaves the capture and the segmentation handle alone. *)
Theorem config_blur_reaches_daemon {V : Vision} b w f e s :
  anticipated f -> (forall mtime, f <> Unreadable mtime) ->
  writable w = true -> (config_mtime s < now w)%Qc ->
  let f' := (cmd_config {| arg_blur := Some b; arg_threshold := None |} w f).2 in
  let out := config_change (with_cfg_file f' e) s in
  result_of out = Ok tt
  /\ trace_of out = []
  /\ blur_strength (state_of out) = JInt (odd_blur b)
  /\ Some (threshold (state_of out))
     = match file_value f "threshold" with
       | Some v => Some v
       | None => DEFAULT_CONFIG !! "threshold"
       end
  /\ config_mtime (state_of out) = now w
  /\ cap (state_of out) = cap s
  /\ segmentation (state_of out) = segmentation s
  /\ blur_active (state_of out) = blur_active s.
Proof.
  intros Hf Hr Hw Hnew.
  destruct (load_config_lookup f Hf) as (cfg0 & Hl0 & Hlook0).
  destruct (cmd_config_blur b None w f cfg0 Hl0 Hw Hr)
    as (th & Hth & Hblur & Hre & Hcmd).
  rewrite Hcmd. cbn [snd]. cbv zeta.
  assert (Hth0 : Some th = match file_value f "threshold" with
                           | Some v => Some v
                           | None => DEFAULT_CONFIG !! "threshold"
                           end).
  { rewrite <- Hth, updates_lookup, <- Hlook0. done. }
  rewrite <- Hth0.
  destruct (odd_blur_spec b) as (Hodd & _).
  unfold config_change.
  cbv [bind ret raise emit gets modify lift when trace_of state_of result_of].
  destruct e as [ml ook cf rr sok]. unfold with_cfg_file. cbn [cfg_file].
  cbn [get_config_mtime get_config_path path_exists st_mtime res_bind].
  rewrite bool_decide_eq_true_2 by exact Hnew.
  rewrite Hre. unfold getitem. rewrite Hblur, Hth.
  rewrite (make_odd_of_odd _ Hodd).
  destruct s. done.
Qed.

End CliFacts.


(** ** daemon.py: more on [_get_consumer_count] *)

Section CountMore.
Import Proc.

(** X10.  The count is positive exactly when /proc can be listed and some
    listed process other than the daemon has a readable handle that
    resolves to the device: this is what the watcher's tests
    [consumers > 0] and [consumers == 0] decide.  No uniqueness of the
    listed names is needed for it, and the count never exceeds the number
    of numeric names listed. *)
Theorem consumer_count_positive_iff my_pid device fs :
  (0 < get_consumer_count my_pid device fs <->
   exists pid_dirs pid,
     proc_listing fs = Some pid_dirs /\ pid ∈ running_pids pid_dirs
     /\ pid <> my_pid /\ holds fs device pid)
  /\ (forall pid_dirs, proc_listing fs = Some pid_dirs ->
      get_consumer_count my_pid device fs
      <= Z.of_nat (length (running_pids pid_dirs))).
Proof.
  unfold get_consumer_count. split.
  - destruct (proc_listing fs) as [pid_dirs |].
    + rewrite scan_procs_spec. split.
      * intros Hpos.
        destruct (filter (is_consumer my_pid device fs)
                    (running_pids pid_dirs)) as [| pid rest] eqn:Hf;
          [simpl in Hpos; lia |].
        assert (Hin : pid ∈ filter (is_consumer my_pid device fs)
                        (running_pids pid_dirs))
          by (rewrite Hf; apply list_elem_of_here).
        apply list_elem_of_filter in Hin as [[Hne Hh] Hin].
        exists pid_dirs, pid. done.
      * intros (pid_dirs' & pid & [= <-] & Hin & Hne & Hh).
        assert (Hin' : pid ∈ filter (is_consumer my_pid device fs)
                         (running_pids pid_dirs))
          by (apply list_elem_of_filter; split; [split |]; done).
        destruct (filter (is_consumer my_pid device fs)
                    (running_pids pid_dirs)) as [| x rest];
          [by apply elem_of_nil in Hin' | simpl; lia].
    + split; [lia |]. by intros (pid_dirs & pid & Hl & _).
  - intros pid_dirs ->. rewrite scan_procs_spec.
    pose proof (length_filter (is_consumer my_pid device fs)
                  (running_pids pid_dirs)). lia.
Qed.

(** X11.  "Excluding ourselves": what the daemon's own process holds has
    no influence on the count.  Two states of /proc with the same listing
    that agree on the handles of every process but the daemon give the same
    count; so the daemon's own handle on the device, which it has as the
    writer of the virtual camera, is never taken for a consumer. *)
Theorem own_handles_not_counted my_pid device fs fs' :
  proc_listing fs = proc_listing fs' ->
  (forall pid, pid <> my_pid -> fd_links fs pid = fd_links fs' pid) ->
  get_consumer_count my_pid device fs = get_consumer_count my_pid device fs'.
Proof.
  intros Hl Hlinks. unfold get_consumer_count. rewrite <- Hl.
  destruct (proc_listing fs) as [pid_dirs |]; [| done].
  rewrite !scan_procs_spec. do 2 f_equal.
  f_equal. apply list_filter_iff. intros pid. unfold is_consumer, holds.
  split; intros [Hne (fds & Hfd & Hin)]; (split; [done |]); exists fds;
    (split; [| done]); [rewrite <- Hlinks | rewrite Hlinks]; done.
Qed.

End CountMore.

(** ** daemon.py and segmentation.py: the odd blur strength *)

Section BlurStrength.
Context {V : Vision}.

(** X12.  The adjustment [if blur_strength % 2 == 0: blur_strength += 1]
    that [run] makes at startup and at every reload turns an integer into
    an odd one, the integer itself or its successor; and the value it
    returns for a blur that is an [int], a [bool] or a [str] is left
    unchanged by a second adjustment: the adjustment that
    [apply_background_blur] repeats on every frame does not alter the
    strength the daemon hands to it, and the kernel of the Gaussian blur
    is the daemon's blur strength.  (A [float] is left out: the sum of a
    float and 1 is rounded.) *)
Theorem make_odd_settles v v' :
  make_odd v = Ok v' -> (forall q, v <> JFloat q) ->
  make_odd v' = Ok v'
  /\ (forall f m, apply_background_blur f m v' = gaussian_blend f m v')
  /\ (forall n, v = JInt n ->
      exists n', v' = JInt n' /\ n' mod 2 = 1 /\ n <= n' <= n + 1).
Proof.
  intros Hv Hnf.
  assert (Hfix : make_odd v' = Ok v').
  { unfold make_odd in *. destruct v as [| b | n | q | s | |]; simpl in *;
      try discriminate.
    - destruct b; simpl in Hv; injection Hv as <-; done.
    - destruct (Z.eqb_spec (n mod 2) 0) as [He | Hne];
        simpl in Hv; injection Hv as <-; simpl.
      + replace ((n + 1) mod 2 =? 0) with false; [done |].
        symmetry. apply Z.eqb_neq.
        Z.to_euclidean_division_equations. lia.
      + by rewrite (proj2 (Z.eqb_neq _ _) Hne).
    - by destruct (Hnf q).
    - destruct (format_error s) as [x |] eqn:Hs; simpl in Hv; [done |].
      injection Hv as <-. simpl. by rewrite Hs. }
  split; [exact Hfix |]. split.
  - intros f m. unfold apply_background_blur. by rewrite Hfix.
  - intros n ->. unfold make_odd in Hv. simpl in Hv.
    destruct (Z.eqb_spec (n mod 2) 0) as [He | Hne];
      simpl in Hv; injection Hv as <-; eexists; (split; [reflexivity |]).
    + split; [| lia]. Z.to_euclidean_division_equations. lia.
    + split; [| lia]. Z.to_euclidean_division_equations. lia.
Qed.

End BlurStrength.

(** ** daemon.py: more on the main loop and the watcher *)

Section LoopMore.
Context {V : Vision}.
Variable d : daemon.
Variable my_pid : Z.
Variable black_frame : frame.

Ltac exec :=
  cbv [bind ret raise emit gets modify lift when fresh
       trace_of state_of result_of]; simpl.

Ltac change_cases s e :=
  destruct s as [ba hc ce se cfg seg cp mt bs th nid w];
  destruct e as [ml ook cf rr sok];
  destruct ba, hc, ce, seg as [sid |], cp as [[cid [|]] |], ml, ook;
  unfold consumer_change, load_model, open_webcam, release_webcam; exec.

Ltac proj3 :=
  rewrite ?trace_of_triple, ?state_of_triple, ?result_of_triple.

Ltac not_in_trace :=
  rewrite ?elem_of_cons, ?elem_of_nil; intuition discriminate.

(** The consumer change reads no frame. *)
Lemma consumer_change_reads_nothing e s id ok :
  CapRead id ok ∉ trace_of (consumer_change d e s).
Proof. change_cases s e; not_in_trace. Qed.

Lemma generate_frame_reads e s id ok :
  CapRead id ok ∈ trace_of (generate_frame black_frame e s) ->
  blur_active s = true
  /\ cap s = Some {| cap_id := id; is_opened := true |}
  /\ ok = bool_decide (is_Some (read_result e)).
Proof.
  unfold generate_frame, vcam_send. exec.
  destruct s as [ba hc ce se cfg seg cp mt bs th nid w]. simpl.
  destruct cp as [[cid [|]] |], ba, (send_ok e); simpl.
  all: try (rewrite ?elem_of_cons, ?elem_of_nil; intuition discriminate).
  all: destruct (read_result e) as [raw |]; simpl.
  all: try destruct (blurred raw th bs); simpl.
  all: rewrite ?elem_of_cons, ?elem_of_nil.
  all: intros H; repeat destruct H as [H | H]; try discriminate; try done.
  all: injection H as -> ->; done.
Qed.

Lemma generate_frame_clears_nothing e s :
  EventClear ∉ trace_of (generate_frame black_frame e s).
Proof.
  unfold generate_frame, vcam_send. exec.
  destruct s as [ba hc ce se cfg seg cp mt bs th nid w]. simpl.
  destruct cp as [[cid [|]] |], ba, (send_ok e); simpl; try not_in_trace.
  all: destruct (read_result e) as [raw |]; simpl; try not_in_trace.
  all: destruct (blurred raw th bs); simpl; not_in_trace.
Qed.

(** X13.  The webcam is read only while blur is active: whenever a tick
    reads a frame from a capture, the daemon is active at the end of that
    tick and the capture read is the opened one it holds; an idle daemon
    reads no frame, and a capture is not read in the tick that releases
    it. *)
Theorem webcam_read_only_when_active e s id ok :
  let out := tick d black_frame e s in
  CapRead id ok ∈ trace_of out ->
  blur_active (state_of out) = true
  /\ cap (state_of out) = Some {| cap_id := id; is_opened := true |}
  /\ captures_released (trace_of out) = []
  /\ ok = bool_decide (is_Some (read_result e)).
Proof.
  cbv zeta. rewrite tick_split. cbv zeta.
  pose proof (consumer_change_reads_nothing e s id ok) as H1.
  pose proof (config_change_resources e (state_of (consumer_change d e s)))
    as (Hb & _ & _ & _ & _ & Hc & _). cbv zeta in Hb, Hc.
  pose proof (config_change_trace e (state_of (consumer_change d e s))) as Ht2.
  destruct (result_of (consumer_change d e s)) as [[] | x] eqn:Hr1;
    [| proj3; done].
  destruct (result_of (config_change e (state_of (consumer_change d e s))))
    as [[] | x]; proj3; [| done].
  rewrite elem_of_app. intros [Hin | Hin]; [done |].
  apply generate_frame_reads in Hin as (Hact & Hcap & Hok).
  split; [exact Hact |].
  split; [exact Hcap |]. split; [| exact Hok].
  rewrite captures_released_app.
  pose proof (generate_frame_resources black_frame e
                (state_of (config_change e (state_of (consumer_change d e s)))))
    as (_ & _ & Hrel & _). cbv zeta in Hrel. rewrite Hrel, app_nil_r.
  rewrite Hb in Hact. rewrite Hc in Hcap. clear -Hact Hcap.
  revert Hact Hcap. change_cases s e; simpl; intros; done.
Qed.

(** X14.  Without the signal the main loop changes nothing about the
    webcam: a tick that finds the edge-event signal clear leaves the
    activity flag, the capture and the model as they are, and constructs,
    releases and loads nothing, whatever the has-consumers flag says.
    The main loop acts on has-consumers only through the signal. *)
Theorem tick_without_signal e s :
  consumer_event s = false ->
  let out := tick d black_frame e s in
  blur_active (state_of out) = blur_active s
  /\ cap (state_of out) = cap s
  /\ segmentation (state_of out) = segmentation s
  /\ has_consumers (state_of out) = has_consumers s
  /\ captures_tried (trace_of out) = []
  /\ captures_released (trace_of out) = []
  /\ models_loaded (trace_of out) = []
  /\ EventClear ∉ trace_of out.
Proof.
  intros Hev. cbv zeta. rewrite tick_split. cbv zeta.
  rewrite (consumer_change_quiet d e s Hev). proj3.
  pose proof (config_change_resources e s)
    as (Hb & Hh & _ & _ & Hsg & Hc & _). cbv zeta in Hb, Hh, Hsg, Hc.
  destruct (result_of (config_change e s)) as [[] | x]; proj3.
  - pose proof (generate_frame_resources black_frame e
                  (state_of (config_change e s))) as (Hm & Ht & Hr & _).
    cbv zeta in Hm, Ht, Hr. rewrite app_nil_l.
    split_and!; try done. apply generate_frame_clears_nothing.
  - split_and!; try done. apply not_elem_of_nil.
Qed.

(** **** An inotify event followed by a tick *)

Ltac in_trace :=
  repeat first [apply list_elem_of_here | apply list_elem_of_further].

Lemma handle_event_cases ev s :
  let count := Proc.get_consumer_count my_pid (device d) (table ev) in
  handle_event d my_pid ev s =
  if bool_decide (Z.land (mask ev) OPEN <> 0) then
    if 0 <? count
    then ([Settle; EventSet],
          set_consumer_event true (set_has_consumers true s), Ok tt)
    else ([Settle], s, Ok tt)
  else if bool_decide
            (Z.land (mask ev) (Z.lor CLOSE_NOWRITE CLOSE_WRITE) <> 0) then
    if count =? 0
    then ([Settle; EventSet],
          set_consumer_event true (set_has_consumers false s), Ok tt)
    else ([Settle], s, Ok tt)
  else ([], s, Ok tt).
Proof.
  cbv zeta. unfold handle_event. exec.
  repeat case_bool_decide; simpl;
    repeat match goal with
           | |- context [if ?c then _ else _] => destruct c; simpl
           end; done.
Qed.

Lemma notify_then_tick ev e s :
  watching s = true -> stop_event s = false ->
  main_loop d my_pid black_frame [Notify [ev]; Tick e] s =
  let o1 := handle_event d my_pid ev s in
  let o2 := tick d black_frame e (state_of o1) in
  (trace_of o1 ++ trace_of o2, state_of o2,
   match result_of o2 with
   | Ok _ => Ok Running
   | Raise x => Raise x
   end).
Proof.
  intros Hw Hs. cbv zeta.
  pose proof (handle_event_main d my_pid ev s) as (Hr & _ & _ & Hstop & _).
  cbv zeta in Hr, Hstop. rewrite Hs in Hstop.
  cbn [main_loop]. unfold watcher_turn. cbn [for_each].
  cbv [bind gets ret]. rewrite Hw, Hs.
  destruct (handle_event d my_pid ev s) as [[t1 s1] r1].
  unfold result_of, state_of, trace_of in *. simpl in Hr, Hstop. subst r1.
  simpl. rewrite Hstop.
  destruct (tick d black_frame e s1) as [[t2 s2] [[] | x]]; simpl;
    by rewrite ?app_nil_r.
Qed.

(** The attach whose open succeeds. *)
Lemma attach_change e s :
  consumer_event s = true -> has_consumers s = true ->
  blur_active s = false -> cap_usable (cap s) = false ->
  (segmentation s = None -> model_loads e = true) ->
  open_ok e = true ->
  let o := consumer_change d e s in
  result_of o = Ok tt
  /\ blur_active (state_of o) = true
  /\ segmentation (state_of o) <> None
  /\ Print Stdout MsgConsumerConnected ∈ trace_of o
  /\ captures_released (trace_of o) = []
  /\ exists id,
       cap (state_of o) = Some {| cap_id := id; is_opened := true |}
       /\ captures_tried (trace_of o) = [(id, true)]
       /\ VideoCapture id (input_device d) true ∈ trace_of o
       /\ CapSet id FRAME_WIDTH (width d) ∈ trace_of o
       /\ CapSet id FRAME_HEIGHT (height d) ∈ trace_of o
       /\ CapSet id FPS (fps d) ∈ trace_of o.
Proof.
  change_cases s e; intros; try done.
  all: try (match goal with H : None = None -> _ |- _ =>
              specialize (H eq_refl); discriminate end).
  all: split_and!; [done | done | done | in_trace | done |].
  all: eexists; split_and!; [reflexivity | reflexivity | in_trace ..].
Qed.

(** A signal that finds the flags agreeing only clears itself. *)
Lemma consumer_change_settled e s :
  has_consumers s = blur_active s ->
  consumer_change d e s
  = (if consumer_event s then [EventClear] else [],
     set_consumer_event false s, Ok tt).
Proof. change_cases s e; intros; done. Qed.

(** X15.  From the device being opened to the webcam running: when the
    watcher reads an open notification and its recount finds a consumer,
    the next tick of an idle daemon loads the model if none is loaded,
    constructs a capture on the configured input device, sets its width,
    height and frame rate to the configured ones, ends active holding the
    opened capture, and, when it runs to its end, writes one frame, which
    is the composed frame when the read succeeds. *)
Theorem open_event_starts_capture ev e s :
  watching s = true -> stop_event s = false ->
  blur_active s = false -> cap_usable (cap s) = false ->
  Z.land (mask ev) OPEN <> 0 ->
  0 < Proc.get_consumer_count my_pid (device d) (table ev) ->
  (segmentation s = None -> model_loads e = true) ->
  open_ok e = true ->
  let out := main_loop d my_pid black_frame [Notify [ev]; Tick e] s in
  blur_active (state_of out) = true
  /\ has_consumers (state_of out) = true
  /\ consumer_event (state_of out) = false
  /\ segmentation (state_of out) <> None
  /\ captures_released (trace_of out) = []
  /\ (exists id,
        cap (state_of out) = Some {| cap_id := id; is_opened := true |}
        /\ captures_tried (trace_of out) = [(id, true)]
        /\ VideoCapture id (input_device d) true ∈ trace_of out
        /\ CapSet id FRAME_WIDTH (width d) ∈ trace_of out
        /\ CapSet id FRAME_HEIGHT (height d) ∈ trace_of out
        /\ CapSet id FPS (fps d) ∈ trace_of out)
  /\ (result_of out = Ok Running ->
      exists f, frames_sent (trace_of out) = [f]
                /\ frame_due black_frame e (state_of out) = Ok f).
Proof.
  intros Hw Hs Hidle Hcap Hopen Hcount Hmodel Hok. cbv zeta.
  rewrite (notify_then_tick ev e s Hw Hs). cbv zeta.
  rewrite handle_event_cases. cbv zeta.
  rewrite bool_decide_eq_true_2 by exact Hopen.
  rewrite (proj2 (Z.ltb_lt _ _) Hcount). proj3.
  set (s1 := set_consumer_event true (set_has_consumers true s)).
  assert (Hinv1 : active_iff_capturing s1).
  { unfold active_iff_capturing, s1. simpl. congruence. }
  destruct (attach_change e s1) as (Hr & Hact & Hseg & _ & Hrel & Hid);
    try done.
  cbv zeta in Hr, Hact, Hseg, Hrel, Hid.
  destruct (tick_after_change d black_frame e s1)
    as ((t3 & Ht & Hc3 & _ & Hr3) & Hb & Hc & Hsg & _).
  cbv zeta in Ht, Hb, Hc, Hsg.
  destruct (tick_shared d black_frame e s1) as (Hh & _ & _ & Hce).
  cbv zeta in Hh, Hce.
  split; [congruence |]. split; [by rewrite Hh |]. split; [exact Hce |].
  split; [by rewrite Hsg |].
  split; [rewrite Ht; simpl; by rewrite captures_released_app, Hrel, Hr3 |].
  split.
  - destruct Hid as (id & Hcp & Htried & H1 & H2 & H3 & H4). exists id.
    rewrite Hc, Ht. simpl. rewrite captures_tried_app, Htried, Hc3.
    split_and!; try done; apply elem_of_cons; right;
      apply elem_of_cons; right; apply elem_of_app; by left.
  - intros Hrun.
    destruct (result_of (tick d black_frame e s1)) as [[] | x] eqn:Hrt;
      [| done].
    destruct (tick_frames d black_frame e s1 Hinv1 Hrt) as (f & Hdue & Hsent).
    exists f. split; [| exact Hdue]. simpl. exact Hsent.
Qed.

(** X16.  From the last consumer closing the device to the webcam being
    free: when the watcher reads a close notification and its recount
    finds no consumer, the next tick of an active daemon releases the
    capture it holds, reads no frame, constructs no capture, keeps the
    model, ends idle with no capture in hand, and, when it runs to its
    end, writes the black frame. *)
Theorem last_close_releases_capture ev e s h :
  watching s = true -> stop_event s = false ->
  blur_active s = true -> cap s = Some h ->
  Z.land (mask ev) OPEN = 0 ->
  Z.land (mask ev) (Z.lor CLOSE_NOWRITE CLOSE_WRITE) <> 0 ->
  Proc.get_consumer_count my_pid (device d) (table ev) = 0 ->
  let out := main_loop d my_pid black_frame [Notify [ev]; Tick e] s in
  blur_active (state_of out) = false
  /\ has_consumers (state_of out) = false
  /\ cap (state_of out) = None
  /\ segmentation (state_of out) = segmentation s
  /\ captures_released (trace_of out) = [cap_id h]
  /\ captures_tried (trace_of out) = []
  /\ (forall id ok, CapRead id ok ∉ trace_of out)
  /\ (result_of out = Ok Running ->
      frames_sent (trace_of out) = [black_frame]).
Proof.
  intros Hw Hs Hact Hcap Hopen Hclose Hcount. cbv zeta.
  rewrite (notify_then_tick ev e s Hw Hs). cbv zeta.
  rewrite handle_event_cases. cbv zeta.
  rewrite bool_decide_eq_false_2 by (intros Hne; by apply Hne).
  rewrite bool_decide_eq_true_2 by exact Hclose.
  rewrite Hcount. cbn [Z.eqb]. proj3.
  set (s1 := set_consumer_event true (set_has_consumers false s)).
  rewrite tick_split. cbv zeta.
  rewrite (detach_change d e s1 h) by done. proj3.
  set (s2 := set_cap None (set_blur_active false
                             (set_consumer_event false s1))).
  pose proof (config_change_resources e s2)
    as (Hb & Hh & _ & _ & Hsg & Hc & _). cbv zeta in Hb, Hh, Hsg, Hc.
  destruct (result_of (config_change e s2)) as [[] | x]; proj3.
  - rewrite (generate_frame_idle black_frame e (state_of (config_change e s2)))
      by (by rewrite Hb).
    destruct (send_ok e); proj3; simpl;
      (split_and!; try done; intros; not_in_trace).
  - simpl. split_and!; try done. intros. not_in_trace.
Qed.

(** X17.  A notification that tells the daemon nothing new changes
    nothing: when has-consumers agrees with the activity flag and the
    recount of a notification agrees with has-consumers (a second consumer
    opening the device, one of two consumers closing it, an open by a
    process that is gone at the recount), then whatever the notification
    is, and whether or not the watcher sets the signal for it, the next
    tick keeps the flags, the capture and the model, and constructs,
    releases and loads nothing. *)
Theorem redundant_event_changes_nothing ev e s :
  watching s = true -> stop_event s = false ->
  has_consumers s = blur_active s ->
  (0 <? Proc.get_consumer_count my_pid (device d) (table ev))
  = has_consumers s ->
  let out := main_loop d my_pid black_frame [Notify [ev]; Tick e] s in
  blur_active (state_of out) = blur_active s
  /\ has_consumers (state_of out) = has_consumers s
  /\ consumer_event (state_of out) = false
  /\ cap (state_of out) = cap s
  /\ segmentation (state_of out) = segmentation s
  /\ captures_tried (trace_of out) = []
  /\ captures_released (trace_of out) = []
  /\ models_loaded (trace_of out) = [].
Proof.
  intros Hw Hs Hagree Hcount. cbv zeta.
  rewrite (notify_then_tick ev e s Hw Hs). cbv zeta.
  pose proof (consumer_count_nonneg my_pid (device d) (table ev)) as Hnn.
  assert (Hs1 : exists t1 ce,
            handle_event d my_pid ev s
            = (t1, set_consumer_event ce s, Ok tt)
            /\ forallb quiet_effect t1 = true).
  { rewrite handle_event_cases. cbv zeta.
    destruct s as [ba hc ce se cfg seg cp mt bs th nid w]. simpl in *.
    repeat case_bool_decide.
    all: destruct (0 <? _) eqn:Hpos; subst.
    all: try (apply Z.ltb_lt in Hpos;
              rewrite (proj2 (Z.eqb_neq _ 0)) by lia).
    all: try (apply Z.ltb_ge in Hpos;
              rewrite (proj2 (Z.eqb_eq _ 0)) by lia).
    all: first [ by exists [Settle; EventSet], true
               | by exists [Settle], ce
               | by exists [], ce ]. }
  destruct Hs1 as (t1 & ce & -> & Hq1). proj3.
  destruct (quiet_trace t1 Hq1) as (_ & Hm1 & Hc1 & Hr1 & _).
  set (s1 := set_consumer_event ce s).
  destruct (tick_after_change d black_frame e s1)
    as ((t3 & Ht & Hc3 & Hm3 & Hr3) & Hb & Hc & Hsg & _).
  cbv zeta in Ht, Hb, Hc, Hsg.
  destruct (tick_shared d black_frame e s1) as (Hh & _ & _ & Hce).
  cbv zeta in Hh, Hce.
  rewrite (consumer_change_settled e s1) in Ht, Hb, Hc, Hsg by exact Hagree.
  proj3. rewrite Hb, Hc, Hsg, Hh, Hce, Ht.
  rewrite !captures_tried_app, !captures_released_app, !models_loaded_app.
  rewrite Hm1, Hc1, Hr1, Hc3, Hm3, Hr3.
  split_and!; try done; by destruct (consumer_event s1).
Qed.

(** **** After the stop flag is set *)

(** X18.  Once the stop flag is set the loop body never runs again:
    whatever the watcher thread and further signals do, the loop raises
    nothing, writes no frame, sleeps for no frame, constructs and releases
    no capture, loads no model, and leaves the activity flag, the capture,
    the model and the configuration values as they were; and the first
    loop test ends the loop. *)
Theorem nothing_after_stop schedule s :
  stop_event s = true ->
  let out := main_loop d my_pid black_frame schedule s in
  (exists x, result_of out = Ok x)
  /\ same_main s (state_of out)
  /\ frames_sent (trace_of out) = []
  /\ ticks_paced (trace_of out) = 0%nat
  /\ captures_tried (trace_of out) = []
  /\ captures_released (trace_of out) = []
  /\ models_loaded (trace_of out) = []
  /\ ((exists e, Tick e ∈ schedule) -> result_of out = Ok Stopped).
Proof.
  intros Hstop. cbv zeta.
  destruct (main_loop_after_stop d my_pid black_frame schedule s Hstop) as (Hx & Hm & _ & Hq).
  cbv zeta in Hx, Hm, Hq.
  destruct (quiet_trace _ Hq) as (Hf & Hmod & Hc & Hr & _).
  pose proof (quiet_trace_unpaced _ Hq) as Hp.
  split_and!; try done.
  intros Htick. by apply main_loop_exits.
Qed.

(** **** The watcher's turn *)

Lemma handle_event_flags ev s :
  let s' := state_of (handle_event d my_pid ev s) in
  (consumer_event s = true -> consumer_event s' = true)
  /\ (has_consumers s' <> has_consumers s -> consumer_event s' = true).
Proof.
  cbv zeta. rewrite handle_event_cases. cbv zeta.
  repeat case_bool_decide;
    repeat match goal with
           | |- context [if ?c then _ else _] => destruct c
           end; proj3; simpl; done.
Qed.

Lemma for_each_flags events s :
  let s' := state_of (for_each events (handle_event d my_pid) s) in
  (consumer_event s = true -> consumer_event s' = true)
  /\ (has_consumers s' <> has_consumers s -> consumer_event s' = true).
Proof.
  revert s. induction events as [| ev rest IH]; intros s; cbv zeta.
  - cbn [for_each]. unfold ret. proj3. done.
  - cbn [for_each]. rewrite bind_split.
    pose proof (handle_event_main d my_pid ev s) as (Hr & _).
    cbv zeta in Hr. rewrite Hr. proj3.
    destruct (handle_event_flags ev s) as (Ha & Hb). cbv zeta in Ha, Hb.
    destruct (IH (state_of (handle_event d my_pid ev s))) as (Ha' & Hb').
    cbv zeta in Ha', Hb'. split; [auto |].
    intros Hne.
    destruct (decide (has_consumers (state_of (handle_event d my_pid ev s))
                      = has_consumers s)) as [Heq | Hneq].
    + apply Hb'. by rewrite Heq.
    + auto.
Qed.

(** X19.  The watcher thread keeps to the shared flags.  A turn of its
    loop, whatever events it reads, raises nothing, leaves everything the
    main loop owns (activity flag, capture, model, configuration values)
    and the stop flag alone, and touches no frame, capture or model; it
    never clears the edge-event signal, and has-consumers does not change
    in a turn without the signal being set at its end.  Once the stop
    flag is set its next turn closes the inotify handle, handles no event
    and ends the thread, after which it does nothing at all. *)
Theorem watcher_keeps_to_flags events s :
  let out := watcher_turn d my_pid events s in
  result_of out = Ok tt
  /\ same_main s (state_of out)
  /\ stop_event (state_of out) = stop_event s
  /\ forallb quiet_effect (trace_of out) = true
  /\ (consumer_event s = true -> consumer_event (state_of out) = true)
  /\ (has_consumers (state_of out) <> has_consumers s ->
      consumer_event (state_of out) = true)
  /\ (watching s = true -> stop_event s = true ->
      out = ([InotifyClose], set_watching false s, Ok tt))
  /\ (watching s = false -> out = ([], s, Ok tt)).
Proof.
  cbv zeta.
  destruct (watcher_turn_main d my_pid events s) as (Hr & Hm & Hq & Hs & Hw).
  cbv zeta in Hr, Hm, Hq, Hs, Hw.
  split; [exact Hr |]. split; [exact Hm |]. split; [exact Hs |].
  split; [exact Hq |].
  rewrite watcher_turn_eq.
  destruct (for_each_flags events s) as (Ha & Hb). cbv zeta in Ha, Hb.
  destruct (watching s), (stop_event s); proj3; simpl;
    split_and!; try done.
Qed.

(** **** The configuration check *)

Lemma config_change_skip e s new_mtime :
  get_config_mtime (cfg_file e) = Ok new_mtime ->
  ~ (config_mtime s < new_mtime)%Qc ->
  config_change e s = ([], s, Ok tt).
Proof.
  intros Hmt Hold. unfold config_change. rewrite Hmt. exec.
  by rewrite bool_decide_eq_false_2.
Qed.

Lemma config_change_blocked e s x :
  get_config_mtime (cfg_file e) = Raise x ->
  config_change e s = ([], s, Raise x).
Proof. intros Hmt. unfold config_change. rewrite Hmt. reflexivity. Qed.

Lemma config_change_mtime e s new_mtime :
  get_config_mtime (cfg_file e) = Ok new_mtime ->
  (config_mtime s < new_mtime)%Qc ->
  config_mtime (state_of (config_change e s)) = new_mtime.
Proof.
  intros Hmt Hnew. unfold config_change. rewrite Hmt. exec.
  rewrite bool_decide_eq_true_2 by exact Hnew. simpl.
  destruct (load_config (cfg_file e)) as [cfg | x]; simpl; [| done].
  destruct (getitem cfg "blur") as [blur | x]; simpl; [| done].
  destruct (make_odd blur) as [odd | x]; simpl; [| done].
  destruct (getitem cfg "threshold") as [th | x]; done.
Qed.

(** X20.  The configuration file is loaded once per modification: after
    a check, whether it reloaded or not and whether or not the reload
    raised, a second check of the same file reads nothing and changes
    nothing, because the new modification time is remembered before the
    file is read; it raises nothing either, unless [get_config_mtime]
    itself raises because the configuration directory is gone.  And a file
    that disappears while the daemon runs resets nothing: with the file
    absent, the check leaves the configuration, the blur strength and the
    threshold as they are. *)
Theorem config_loaded_once_per_change e s :
  let s1 := state_of (config_change e s) in
  config_change e s1
  = ([], s1, res_bind (get_config_mtime (cfg_file e)) (fun _ => Ok tt))
  /\ (cfg_file e = Absent -> (0 <= config_mtime s)%Qc ->
      config_change e s = ([], s, Ok tt)).
Proof.
  cbv zeta. split.
  - destruct (get_config_mtime (cfg_file e)) as [new_mtime | x] eqn:Hmt.
    + apply (config_change_skip _ _ new_mtime Hmt).
      destruct (Qclt_le_dec (config_mtime s) new_mtime) as [Hnew | Hold].
      * rewrite (config_change_mtime e s new_mtime Hmt Hnew).
        apply Qcle_not_lt, Qcle_refl.
      * rewrite (config_change_skip e s new_mtime Hmt)
          by by apply Qcle_not_lt.
        proj3. by apply Qcle_not_lt.
    + by apply config_change_blocked.
  - intros Hf Hpos. apply (config_change_skip _ _ 0%Qc).
    + by rewrite Hf.
    + by apply Qcle_not_lt.
Qed.

(** X21.  A configuration file that is newer than the one remembered but
    cannot be opened, or that [json.load] rejects with JSONDecodeError
    (text that is not JSON), resets a running daemon to the defaults: the
    check raises nothing and leaves DEFAULT_CONFIG as the configuration,
    35 as the blur strength and 0.5 as the threshold, whatever they were
    before, while the capture, the model and the activity flag stay as
    they are.  A newer file on which [json.load] raises anything other
    than JSONDecodeError or OSError (UnicodeDecodeError on bytes that do
    not decode, for one) resets nothing: the check raises that exception,
    with the configuration, the blur strength and the threshold as they
    were and the new modification time remembered. *)
Theorem broken_file_resets_to_defaults e s mtime :
  (config_mtime s < mtime)%Qc ->
  let out := config_change e s in
  (cfg_file e = Unreadable mtime \/ cfg_file e = Readable mtime NotJson ->
   result_of out = Ok tt
   /\ config (state_of out) = DEFAULT_CONFIG
   /\ blur_strength (state_of out) = JInt 35
   /\ threshold (state_of out) = JFloat (Q2Qc (1 # 2))
   /\ config_mtime (state_of out) = mtime
   /\ cap (state_of out) = cap s
   /\ segmentation (state_of out) = segmentation s
   /\ blur_active (state_of out) = blur_active s)
  /\ (forall x, cfg_file e = Readable mtime (LoadRaises x) ->
      x <> JSONDecodeError -> x <> OSError ->
      result_of out = Raise x
      /\ config (state_of out) = config s
      /\ blur_strength (state_of out) = blur_strength s
      /\ threshold (state_of out) = threshold s
      /\ config_mtime (state_of out) = mtime).
Proof.
  intros Hnew. cbv zeta. unfold config_change. split.
  - intros Hf. destruct Hf as [-> | ->]; exec;
      rewrite bool_decide_eq_true_2 by exact Hnew; done.
  - intros x -> H1 H2. exec.
    rewrite bool_decide_eq_true_2 by exact Hnew.
    unfold load_config. simpl.
    rewrite (bool_decide_eq_false_2 (x ∈ [JSONDecodeError; OSError]));
      [simpl; done |].
    rewrite !elem_of_cons, elem_of_nil. intros [? | [? | []]]; congruence.
Qed.

End LoopMore.

(** ** daemon.py: more on [run] *)

Section RunMore.
Context {V : Vision}.

(** The lines between the start of the watcher thread and the [try]
    block: what they raise, and what they do. *)
Lemma startup_result d r s :
  result_of (startup d r s)
  = res_bind (np_zeros (height d) (width d)) (fun bf =>
    res_bind (get_config_mtime (start_cfg_file r)) (fun _ =>
    res_bind (getitem (config s) "blur") (fun v =>
    res_bind (make_odd v) (fun _ =>
    res_bind (getitem (config s) "threshold") (fun _ => Ok bf)))))
  /\ trace_of (startup d r s)
     = StartWatcher ::
       (if watch_ok r then []
        else [Print Stderr (MsgCouldNotWatch (device d))]).
Proof.
  unfold startup, watcher_start.
  cbv [bind ret raise emit gets modify lift when
       trace_of state_of result_of]; simpl.
  destruct (watch_ok r); simpl.
  all: destruct (np_zeros (height d) (width d)) as [bf | y]; simpl; [| done].
  all: destruct (get_config_mtime (start_cfg_file r)) as [mtime | y]; simpl;
    [| done].
  all: destruct (getitem (config s) "blur") as [v | y]; simpl; [| done].
  all: destruct (make_odd v) as [odd | y]; simpl; [| done].
  all: destruct (getitem (config s) "threshold") as [th | y]; done.
Qed.

(** X23.  An exception leaves [run] uncaught exactly when the device
    exists and one of the lines between the start of the watcher thread
    and the [try] block raises it: building the black frame from the
    configured height and width ([np.zeros]: TypeError for a dimension
    that is not an [int], ValueError for one that is negative or too
    large, MemoryError), reading the modification time of the
    configuration file ([get_config_mtime]: OSError when the
    configuration directory cannot be created), reading the blur from the
    configuration, making it odd, or reading the threshold, in this
    order.  In that case the watcher thread has been started, the virtual
    camera has not been opened, no frame has been written and [run] has
    not logged the error.  Whatever is raised later, inside the [try]
    block, is caught. *)
Theorem run_uncaught_exactly d my_pid r schedule s x :
  let out := run d my_pid r schedule s in
  let before_try :=
    res_bind (np_zeros (height d) (width d)) (fun bf =>
    res_bind (get_config_mtime (start_cfg_file r)) (fun _ =>
    res_bind (getitem (config s) "blur") (fun v =>
    res_bind (make_odd v) (fun _ =>
    res_bind (getitem (config s) "threshold") (fun _ => Ok bf))))) in
  (out.2 = Uncaught x <-> device_exists r = true /\ before_try = Raise x)
  /\ (out.2 = Uncaught x ->
      StartWatcher ∈ out.1.1 /\ (VcamOpen ∉ out.1.1)
      /\ frames_sent out.1.1 = []
      /\ (Print Stderr (MsgError x) ∉ out.1.1)).
Proof.
  cbv zeta. rewrite run_eq.
  destruct (startup_result d r s) as (Hres & Htrace). rewrite <- Hres.
  destruct (device_exists r); cbn [negb]; cbv zeta;
    [| split; [split; [done | by intros [? _]] | done]].
  destruct (result_of (startup d r s)) as [bf | y].
  - destruct (vcam_ok r);
      [destruct (result_of (main_loop d my_pid bf schedule
                              (state_of (startup d r s)))) as [[] | y] |];
      (split; [split; [done | by intros [_ ?]] | done]).
  - cbn [fst snd]. split.
    + split; [intros [= ->]; done | intros [_ [= ->]]; done].
    + intros [= ->]. rewrite Htrace. unfold banner.
      destruct (watch_ok r); simpl.
      all: split_and!; [| | done |].
      all: rewrite ?elem_of_cons, ?elem_of_nil; intuition discriminate.
Qed.

End RunMore.

(** ** The properties above at concrete inputs *)

Section MoreExamples.
Import Sample.

Lemma run_returns_after_signal_witness :
  (exists e, Tick e ∈ [Tick calm])
  /\ (run d0 pid0 env0
        ([Notify [opened_by_two]; Tick calm] ++ Signal :: [Tick calm]) s0).2
     <> InLoop.
Proof.
  assert (H : exists e, Tick e ∈ [Tick calm])
    by (exists calm; apply list_elem_of_here).
  split; [exact H |].
  exact (run_returns_after_signal (V := vision) d0 pid0 env0
           [Notify [opened_by_two]; Tick calm] [Tick calm] s0 H).
Defined.

Lemma save_then_load_witness :
  let cfg := <["blur" := JInt 45]> DEFAULT_CONFIG in
  let w := {| outcome := Written; now := 2%Qc |} in
  let out := save_config cfg w Absent in
  out.1 = Ok tt
  /\ load_config out.2 = Ok (cfg ∪ DEFAULT_CONFIG)
  /\ get_config_mtime out.2 = Ok (now w)
  /\ ((forall k, k ∈ DEFAULT_KEYS -> is_Some (cfg !! k)) ->
      load_config out.2 = Ok cfg).
Proof.
  intros cfg w.
  apply (save_then_load cfg w Absent); [reflexivity | intros m; discriminate].
Defined.

Lemma update_config_result_witness :
  let kwargs := [("blur", JInt 45); ("threshold", JNull); ("colour", JInt 1)] in
  let w := {| outcome := Written; now := 2%Qc |} in
  exists cfg f',
    update_config kwargs w small_cfg = (Ok cfg, f')
    /\ (forall k, k ∈ DEFAULT_KEYS -> is_Some (cfg !! k))
    /\ (forall k, cfg !! k =
          match requested kwargs k with
          | Some v => Some v
          | None => match file_value small_cfg k with
                    | Some v => Some v
                    | None => DEFAULT_CONFIG !! k
                    end
          end)
    /\ get_config_mtime f' = Ok (now w)
    /\ load_config f' = Ok cfg.
Proof.
  intros kwargs w.
  apply (update_config_result kwargs w small_cfg);
    [exact I | intros m; discriminate | reflexivity].
Defined.

Lemma update_config_failure_modes_witness :
  let w := {| outcome := DumpFails TypeError; now := 2%Qc |} in
  let f' := Readable 2%Qc NotJson in
  update_config [("blur", JInt 45)] w small_cfg = (Raise TypeError, f')
  /\ ((f' = small_cfg
       /\ (load_config small_cfg = Raise TypeError
           \/ ((outcome w = PathFails \/ outcome w = OpenFails)
               /\ TypeError = OSError)))
      \/ (outcome w = DumpFails TypeError
          /\ (exists base, load_config small_cfg = Ok base)
          /\ f' = rewritten small_cfg (now w) NotJson
          /\ load_config f' = Ok DEFAULT_CONFIG)).
Proof.
  intros w f'.
  assert (H : update_config [("blur", JInt 45)] w small_cfg
              = (Raise TypeError, f')) by reflexivity.
  split; [exact H |].
  exact (update_config_failure_modes [("blur", JInt 45)] w small_cfg
           TypeError f' H).
Defined.

Lemma update_config_twice_witness :
  let kwargs := [("blur", JInt 45)] in
  let w := {| outcome := Written; now := 2%Qc |} in
  let w' := {| outcome := Written; now := (Q2Qc 3) |} in
  let cfg := <["blur" := JInt 45]> DEFAULT_CONFIG in
  update_config kwargs w Absent
  = (Ok cfg, Readable 2%Qc (Parsed (JObj cfg)))
  /\ update_config kwargs w' (Readable 2%Qc (Parsed (JObj cfg)))
     = (Ok cfg, Readable (Q2Qc 3) (Parsed (JObj cfg))).
Proof.
  intros kwargs w w' cfg.
  assert (H : update_config kwargs w Absent
              = (Ok cfg, Readable 2%Qc (Parsed (JObj cfg))))
    by reflexivity.
  split; [exact H |].
  apply (update_config_twice kwargs w w' Absent cfg _
           (fun m => ltac:(discriminate)) eq_refl H).
Defined.

Lemma cmd_config_stores_odd_blur_witness :
  let w := {| outcome := Written; now := 2%Qc |} in
  exists lines f' cfg0 cfg,
    cmd_config {| arg_blur := Some 44; arg_threshold := None |} w small_cfg
    = (lines, Ok 0, f')
    /\ LBlur (JInt (odd_blur 44)) ∈ lines
    /\ load_config small_cfg = Ok cfg0
    /\ load_config f' = Ok cfg
    /\ cfg !! "blur" = Some (JInt (odd_blur 44))
    /\ odd_blur 44 mod 2 = 1 /\ 44 <= odd_blur 44 <= 44 + 1
    /\ (forall k, k <> "blur" -> k <> "threshold" -> cfg !! k = cfg0 !! k).
Proof.
  intros w.
  apply (cmd_config_stores_odd_blur 44 None w small_cfg);
    [exact I | intros m; discriminate | reflexivity].
Defined.

Lemma config_blur_reaches_daemon_witness :
  let w := {| outcome := Written; now := 2%Qc |} in
  let f' := (cmd_config {| arg_blur := Some 44; arg_threshold := None |}
               w small_cfg).2 in
  let out := config_change (with_cfg_file f' calm) active0 in
  result_of out = Ok tt
  /\ trace_of out = []
  /\ blur_strength (state_of out) = JInt (odd_blur 44)
  /\ Some (threshold (state_of out))
     = match file_value small_cfg "threshold" with
       | Some v => Some v
       | None => DEFAULT_CONFIG !! "threshold"
       end
  /\ config_mtime (state_of out) = now w
  /\ cap (state_of out) = cap active0
  /\ segmentation (state_of out) = segmentation active0
  /\ blur_active (state_of out) = blur_active active0.
Proof.
  intros w.
  apply (config_blur_reaches_daemon (V := vision) 44 w small_cfg calm active0);
    [exact I | intros m; discriminate | reflexivity | reflexivity].
Defined.

Lemma own_handles_not_counted_witness :
  let hidden :=
    {| proc_listing := proc_listing two_consumers;
       fd_links := fun pid =>
         if pid =? 100 then None else fd_links two_consumers pid |} in
  get_consumer_count 100 "/dev/video10" two_consumers
  = get_consumer_count 100 "/dev/video10" hidden.
Proof.
  intros hidden.
  apply (own_handles_not_counted 100 "/dev/video10" two_consumers hidden).
  - reflexivity.
  - intros pid Hne. unfold hidden. cbn [fd_links].
    destruct (Z.eqb_spec pid 100) as [Heq | _]; [by destruct Hne | reflexivity].
Defined.

Lemma make_odd_settles_witness :
  make_odd (JInt 4) = Ok (JInt 5)
  /\ make_odd (JInt 5) = Ok (JInt 5)
  /\ (forall f m, apply_background_blur f m (JInt 5)
                  = gaussian_blend f m (JInt 5))
  /\ (forall n, JInt 4 = JInt n ->
      exists n', JInt 5 = JInt n' /\ n' mod 2 = 1 /\ n <= n' <= n + 1).
Proof.
  split; [reflexivity |].
  apply (make_odd_settles (V := vision) (JInt 4) (JInt 5));
    [reflexivity | intros q; discriminate].
Defined.

Lemma webcam_read_only_when_active_witness :
  let out := tick d0 black0 calm active0 in
  CapRead 1 true ∈ trace_of out
  /\ blur_active (state_of out) = true
  /\ cap (state_of out) = Some {| cap_id := 1; is_opened := true |}
  /\ captures_released (trace_of out) = []
  /\ true = bool_decide (is_Some (read_result calm)).
Proof.
  intros out.
  assert (H : CapRead 1 true ∈ trace_of out) by apply list_elem_of_here.
  split; [exact H |].
  exact (webcam_read_only_when_active (V := vision) d0 black0 calm active0
           1%nat true H).
Defined.

Lemma tick_without_signal_witness :
  let out := tick d0 black0 calm (set_has_consumers true s0) in
  blur_active (state_of out) = false
  /\ cap (state_of out) = None
  /\ segmentation (state_of out) = None
  /\ has_consumers (state_of out) = true
  /\ captures_tried (trace_of out) = []
  /\ captures_released (trace_of out) = []
  /\ models_loaded (trace_of out) = []
  /\ EventClear ∉ trace_of out.
Proof.
  intros out.
  apply (tick_without_signal (V := vision) d0 black0 calm
           (set_has_consumers true s0)).
  reflexivity.
Defined.

Lemma open_event_starts_capture_witness :
  let out := main_loop d0 pid0 black0 [Notify [opened_by_two]; Tick calm] s0 in
  blur_active (state_of out) = true
  /\ has_consumers (state_of out) = true
  /\ consumer_event (state_of out) = false
  /\ segmentation (state_of out) <> None
  /\ captures_released (trace_of out) = []
  /\ (exists id,
        cap (state_of out) = Some {| cap_id := id; is_opened := true |}
        /\ captures_tried (trace_of out) = [(id, true)]
        /\ VideoCapture id (input_device d0) true ∈ trace_of out
        /\ CapSet id FRAME_WIDTH (width d0) ∈ trace_of out
        /\ CapSet id FRAME_HEIGHT (height d0) ∈ trace_of out
        /\ CapSet id FPS (fps d0) ∈ trace_of out)
  /\ (result_of out = Ok Running ->
      exists f, frames_sent (trace_of out) = [f]
                /\ frame_due black0 calm (state_of out) = Ok f).
Proof.
  intros out.
  apply (open_event_starts_capture (V := vision) d0 pid0 black0
           opened_by_two calm s0).
  - reflexivity.
  - reflexivity.
  - reflexivity.
  - reflexivity.
  - vm_compute. intros H. discriminate H.
  - vm_compute. reflexivity.
  - intros _. reflexivity.
  - reflexivity.
Defined.

Lemma last_close_releases_capture_witness :
  let out := main_loop d0 pid0 black0 [Notify [closed_by_all]; Tick calm]
               active0 in
  blur_active (state_of out) = false
  /\ has_consumers (state_of out) = false
  /\ cap (state_of out) = None
  /\ segmentation (state_of out) = segmentation active0
  /\ captures_released (trace_of out) = [1%nat]
  /\ captures_tried (trace_of out) = []
  /\ (forall id ok, CapRead id ok ∉ trace_of out)
  /\ (result_of out = Ok Running -> frames_sent (trace_of out) = [black0]).
Proof.
  intros out.
  apply (last_close_releases_capture (V := vision) d0 pid0 black0
           closed_by_all calm active0 {| cap_id := 1; is_opened := true |}).
  - reflexivity.
  - reflexivity.
  - reflexivity.
  - reflexivity.
  - reflexivity.
  - vm_compute. intros H. discriminate H.
  - reflexivity.
Defined.

Lemma redundant_event_changes_nothing_witness :
  let out := main_loop d0 pid0 black0 [Notify [opened_by_two]; Tick calm]
               active0 in
  blur_active (state_of out) = true
  /\ has_consumers (state_of out) = true
  /\ consumer_event (state_of out) = false
  /\ cap (state_of out) = cap active0
  /\ segmentation (state_of out) = segmentation active0
  /\ captures_tried (trace_of out) = []
  /\ captures_released (trace_of out) = []
  /\ models_loaded (trace_of out) = [].
Proof.
  intros out.
  apply (redundant_event_changes_nothing (V := vision) d0 pid0 black0
           opened_by_two calm active0); reflexivity.
Defined.

Lemma nothing_after_stop_witness :
  let s := set_stop_event true active0 in
  let out := main_loop d0 pid0 black0 [Notify [closed_by_all]; Tick calm] s in
  (exists x, result_of out = Ok x)
  /\ same_main s (state_of out)
  /\ frames_sent (trace_of out) = []
  /\ ticks_paced (trace_of out) = 0%nat
  /\ captures_tried (trace_of out) = []
  /\ captures_released (trace_of out) = []
  /\ models_loaded (trace_of out) = []
  /\ ((exists e, Tick e ∈ [Notify [closed_by_all]; Tick calm]) ->
      result_of out = Ok Stopped).
Proof.
  intros s out.
  apply (nothing_after_stop (V := vision) d0 pid0 black0
           [Notify [closed_by_all]; Tick calm] s).
  reflexivity.
Defined.

Lemma broken_file_resets_to_defaults_witness :
  let e := with_cfg_file (Readable 2%Qc NotJson) calm in
  let e' := with_cfg_file (Readable 2%Qc (LoadRaises UnicodeDecodeError))
              calm in
  (config_mtime active0 < 2)%Qc
  /\ blur_strength active0 = JInt 5
  /\ result_of (config_change e active0) = Ok tt
  /\ blur_strength (state_of (config_change e active0)) = JInt 35
  /\ result_of (config_change e' active0) = Raise UnicodeDecodeError
  /\ blur_strength (state_of (config_change e' active0)) = JInt 5.
Proof.
  intros e e'.
  assert (Hnew : (config_mtime active0 < 2)%Qc) by reflexivity.
  destruct (broken_file_resets_to_defaults (V := vision) e active0 2%Qc Hnew)
    as (Hreset & _).
  destruct (Hreset (or_intror eq_refl)) as (Hr & _ & Hb & _).
  destruct (broken_file_resets_to_defaults (V := vision) e' active0 2%Qc Hnew)
    as (_ & Hraise).
  destruct (Hraise UnicodeDecodeError eq_refl) as (Hr' & _ & Hb' & _);
    [discriminate | discriminate |].
  split_and!; [exact Hnew | reflexivity | exact Hr | exact Hb | exact Hr'
              | exact Hb'].
Defined.

End MoreExamples.
